(** * GrowPanel MCP server: a shallow embedding of the protocol front-end

    The development follows the TypeScript sources:
    - [utils/api.ts]       : [callApi], the upstream client;
    - [tools/getMRR.ts], [tools/getLeads.ts], [tools/getCohorts.ts] :
      the three tool descriptors with their zod input contracts and [run];
    - [server.ts]          : [wrapTool], the two SDK request handlers of the
      streaming transport and the hand-written JSON-RPC handler behind
      [POST /events].

    JavaScript values are an inductive type, objects are association lists in
    insertion order with distinct keys, strings are sequences of code units
    (one [ascii] per unit), a number [VNum n] is the Number nearest the
    integer [n], which is [n] itself up to 2^53.
    Effects are explicit: a computation returns a value or throws, and
    threads the list of the requests handed to [fetch] so far.  What the host
    supplies is a parameter: the environment variables, the clock, the time
    zone, the URL parser and the upstream service in [env], the JSON
    built-ins in the [Server] section. *)

From Stdlib Require Import ZArith List String Ascii Bool Lia.
From Stdlib Require Import Numbers.DecimalString.
Import ListNotations.

Open Scope string_scope.
Open Scope Z_scope.

(** ** JavaScript values *)

#[warnings="-register-all"]
Inductive value : Type :=
| VUndefined
| VNull
| VBool (b : bool)
| VNum (n : Z)
| VStr (s : string)
| VArr (items : list value)
| VObj (fields : list (string * value)).

(** Property lookup in an object literal. *)
Fixpoint lookup (k : string) (fields : list (string * value)) : value :=
  match fields with
  | [] => VUndefined
  | (k', v) :: rest => if String.eqb k k' then v else lookup k rest
  end.

Definition is_undefined (v : value) : bool :=
  match v with
  | VUndefined => true
  | _ => false
  end.

Definition is_null (v : value) : bool :=
  match v with
  | VNull => true
  | _ => false
  end.

Definition is_nullish (v : value) : bool :=
  match v with
  | VUndefined | VNull => true
  | _ => false
  end.

(** [v.k] for a [v] that is neither [null] nor [undefined]: primitives and
    arrays have no such own property. *)
Definition get (v : value) (k : string) : value :=
  match v with
  | VObj fields => lookup k fields
  | _ => VUndefined
  end.

(** ToBoolean. *)
Definition truthy (v : value) : bool :=
  match v with
  | VUndefined | VNull => false
  | VBool b => b
  | VNum n => negb (n =? 0)
  | VStr s => negb (String.eqb s "")
  | VArr _ | VObj _ => true
  end.

Definition Array_isArray (v : value) : bool :=
  match v with
  | VArr _ => true
  | _ => false
  end.

Definition is_string (v : value) : bool :=
  match v with
  | VStr _ => true
  | _ => false
  end.

(** The decimal digits of an integer, with a sign when it is negative. *)
Definition Z_to_string (n : Z) : string :=
  NilZero.string_of_int (Z.to_int n).

Fixpoint join (sep : string) (parts : list string) : string :=
  match parts with
  | [] => ""
  | [p] => p
  | p :: rest => p ++ sep ++ join sep rest
  end.

Fixpoint zeros (n : nat) : string :=
  match n with
  | O => ""
  | S n' => String "0" (zeros n')
  end.

(** [k in obj], for an own property. *)
Fixpoint has_key (k : string) (fields : list (string * value)) : bool :=
  match fields with
  | [] => false
  | (k', _) :: rest => String.eqb k k' || has_key k rest
  end.

(** *** Number::toString

    The Number nearest a positive integer: 53 bits of significand, rounded
    to nearest, ties to even. *)
Definition nearest_double (v : Z) : Z :=
  let e := Z.log2 v in
  if e <? 53 then v
  else
    let sh := e - 52 in
    let q := Z.shiftr v sh in
    let r := v - Z.shiftl q sh in
    let half := Z.shiftl 1 (sh - 1) in
    Z.shiftl (if (half <? r) || ((r =? half) && Z.odd q) then q + 1 else q) sh.

(** The integer [s] of [k] digits for which [s * 10^(n-k)] reads back as the
    Number [x], the one nearest [x] when there are two. *)
Definition digits_for (x k n : Z) : option Z :=
  let unit := 10 ^ (n - k) in
  let lo := x / unit in
  let fits s :=
    (10 ^ (k - 1) <=? s) && (s <? 10 ^ k) && (nearest_double (s * unit) =? x) in
  match fits lo, fits (lo + 1) with
  | true, false => Some lo
  | false, true => Some (lo + 1)
  | true, true =>
      let below := x - lo * unit in
      let above := (lo + 1) * unit - x in
      if below <? above then Some lo
      else if above <? below then Some (lo + 1)
      else if Z.even lo then Some lo else Some (lo + 1)
  | false, false => None
  end.

(** The digits [s], their number [k] and the exponent [n] of the shortest
    decimal that reads back as [x], a Number of [d] digits. *)
Fixpoint shortest_digits (fuel : nat) (x d k : Z) : Z * Z * Z :=
  match fuel with
  | O => (x, d, d)
  | S fuel' =>
      match digits_for x k d, digits_for x k (d + 1) with
      | Some s, _ => (s, k, d)
      | None, Some s => (s, k, d + 1)
      | None, None => shortest_digits fuel' x d (k + 1)
      end
  end.

(** ToString of the Number nearest [m]: the digits of the shortest decimal
    and zeros up to 21 digits, the exponential notation beyond. *)
Definition Number_toString (m : Z) : string :=
  if m =? 0 then "0"
  else
    let x := nearest_double (Z.abs m) in
    let sign := if m <? 0 then "-" else "" in
    if 2 ^ 1024 <=? x then sign ++ "Infinity"
    else
      let d := Z.of_nat (String.length (Z_to_string x)) in
      let '(s, k, n) := shortest_digits (Z.to_nat d) x d 1 in
      sign ++
      (if n <=? 21 then Z_to_string s ++ zeros (Z.to_nat (n - k))
       else
         match Z_to_string s with
         | String c EmptyString => String c ("e+" ++ Z_to_string (n - 1))
         | String c rest => String c ("." ++ rest ++ "e+" ++ Z_to_string (n - 1))
         | EmptyString => ""
         end).

(** Strict equality with a string constant, as in [switch (name)]. *)
Definition is_str (v : value) (s : string) : bool :=
  match v with
  | VStr s' => String.eqb s' s
  | _ => false
  end.

(** [sub] occurs in [s]. *)
Definition contains (s sub : string) : Prop :=
  exists pre post, s = pre ++ sub ++ post.

(** ** Thrown values *)

(** An issue of a [ZodError]: the path of the field and the message, the
    custom one when the contract gives one, a short form of zod's otherwise. *)
Record issue : Type := mkIssue { issue_path : string; issue_message : string }.

Inductive js_error : Type :=
| Error (message : string)
| TypeError (message : string)
| SyntaxError (message : string)
| ZodError (issues : list issue).

(** None of these carries a [code] property: the sources construct them with
    a message only, and a [ZodError] holds its codes inside the issues. *)
Definition error_code (e : js_error) : option Z :=
  match e with
  | Error _ | TypeError _ | SyntaxError _ | ZodError _ => None
  end.

(** ** Computations: a result or a throw, with the log of upstream requests *)

(** A request as [callApi] builds it: [rq_path] and [rq_base] are the two
    arguments of [new URL(path, base)], [rq_query] the pairs appended to its
    [searchParams], in order. *)
Record http_request : Type := mkRequest {
  rq_method : string;
  rq_base : string;
  rq_path : string;
  rq_query : list (string * string);
  rq_headers : list (string * string)
}.

Inductive outcome (A : Type) : Type :=
| Return (a : A)
| Throw (e : js_error).
Arguments Return {A} a.
Arguments Throw {A} e.

(** The strings [Array.prototype.join] joins: the empty string for
    [undefined] and [null], the string form of any other element. *)
Fixpoint element_strings (ToString : value -> outcome string) (l : list value)
  : outcome (list string) :=
  match l with
  | [] => Return []
  | i :: rest =>
      match (if is_nullish i then Return "" else ToString i) with
      | Throw err => Throw err
      | Return s =>
          match element_strings ToString rest with
          | Throw err => Throw err
          | Return ss => Return (s :: ss)
          end
      end
  end.

(** ToString, as a template literal or [URLSearchParams.append] applies it.
    An array is joined as [Array.prototype.join] does.  A plain object goes
    through [Object.prototype.toString] unless it has a [toString] property
    of its own, which cannot be a function in a value read from JSON: then
    neither [toString] nor [valueOf] yields a primitive and the conversion
    throws. *)
Fixpoint to_js_string (v : value) : outcome string :=
  match v with
  | VUndefined => Return "undefined"
  | VNull => Return "null"
  | VBool true => Return "true"
  | VBool false => Return "false"
  | VNum n => Return (Number_toString n)
  | VStr s => Return s
  | VArr items =>
      match element_strings to_js_string items with
      | Throw err => Throw err
      | Return parts => Return (join "," parts)
      end
  | VObj fields =>
      if has_key "toString" fields
      then Throw (TypeError "Cannot convert object to primitive value")
      else Return "[object Object]"
  end.

Definition M (A : Type) : Type := list http_request -> outcome A * list http_request.

Definition ret {A} (a : A) : M A := fun log => (Return a, log).
Definition throw {A} (e : js_error) : M A := fun log => (Throw e, log).
Definition bind {A B} (m : M A) (k : A -> M B) : M B :=
  fun log =>
    match m log with
    | (Return a, log') => k a log'
    | (Throw e, log') => (Throw e, log')
    end.
Definition lift {A} (o : outcome A) : M A := fun log => (o, log).

Notation "x <- m ;; k" := (bind m (fun x => k))
  (at level 61, m at next level, right associativity).

(** [try { m } catch (e) { h e }] *)
Definition try_catch {A} (m : M A) (h : js_error -> M A) : M A :=
  fun log =>
    match m log with
    | (Return a, log') => (Return a, log')
    | (Throw e, log') => h e log'
    end.

(** ** The zod input contracts

    The only regular expression of the sources, [/^\d{8}-\d{8}$/], is a
    sequence of fixed-width atoms between anchors; without the [m] flag [$]
    matches at the end of the input only, and [\d] is an ASCII digit. *)

Inductive atom : Type :=
| Digit
| Lit (c : ascii).

Definition regex : Type := list (atom * nat).

Definition is_digit (c : ascii) : bool :=
  ((48 <=? nat_of_ascii c) && (nat_of_ascii c <=? 57))%nat.

Fixpoint all_digits (s : string) : bool :=
  match s with
  | EmptyString => true
  | String c rest => is_digit c && all_digits rest
  end.

Definition atom_match (a : atom) (c : ascii) : bool :=
  match a with
  | Digit => is_digit c
  | Lit c' => Ascii.eqb c c'
  end.

(** Consume exactly [n] characters matching [a]. *)
Fixpoint match_repeat (a : atom) (n : nat) (s : string) : option string :=
  match n with
  | O => Some s
  | S n' =>
      match s with
      | String c rest => if atom_match a c then match_repeat a n' rest else None
      | EmptyString => None
      end
  end.

Fixpoint regex_test (r : regex) (s : string) : bool :=
  match r with
  | [] => String.eqb s ""
  | (a, n) :: r' =>
      match match_repeat a n s with
      | Some rest => regex_test r' rest
      | None => false
      end
  end.

Inductive string_check : Type :=
| CheckRegex (r : regex) (message : string)
| CheckLength (n : nat).

Inductive zod_type : Type :=
| ZString (checks : list string_check)
| ZEnum (values : list string)
| ZOptional (inner : zod_type)
| ZDefault (inner : zod_type) (dflt : string)
| ZDescribe (inner : zod_type) (description : string).

Definition shape : Type := list (string * zod_type).

Definition check_ok (s : string) (c : string_check) : bool :=
  match c with
  | CheckRegex r _ => regex_test r s
  | CheckLength n => Nat.eqb (String.length s) n
  end.

Definition check_issue (path s : string) (c : string_check) : list issue :=
  if check_ok s c then []
  else match c with
       | CheckRegex _ message => [mkIssue path message]
       | CheckLength _ => [mkIssue path "String must contain exactly n character(s)"]
       end.

Definition mem (s : string) (l : list string) : bool :=
  existsb (String.eqb s) l.

(** [schema._parse] of one field; [undefined] stands for an absent key. *)
Fixpoint zod_parse_field (t : zod_type) (path : string) (v : value)
  : value + list issue :=
  match t with
  | ZString checks =>
      match v with
      | VStr s =>
          match flat_map (check_issue path s) checks with
          | [] => inl v
          | issues => inr issues
          end
      | VUndefined => inr [mkIssue path "Required"]
      | _ => inr [mkIssue path "Expected string"]
      end
  | ZEnum values =>
      match v with
      | VStr s => if mem s values then inl v
                  else inr [mkIssue path "Invalid enum value"]
      | VUndefined => inr [mkIssue path "Required"]
      | _ => inr [mkIssue path "Invalid enum value"]
      end
  | ZOptional inner =>
      match v with
      | VUndefined => inl VUndefined
      | _ => zod_parse_field inner path v
      end
  | ZDefault inner dflt =>
      match v with
      | VUndefined => zod_parse_field inner path (VStr dflt)
      | _ => zod_parse_field inner path v
      end
  | ZDescribe inner _ => zod_parse_field inner path v
  end.

(** The object parser walks the keys of the shape in declaration order,
    strips unknown keys, and keeps a key in the output when its parsed value
    is defined or the key was present in the input. *)
Fixpoint zod_parse_fields (sh : shape) (input : list (string * value))
  : list (string * value) * list issue :=
  match sh with
  | [] => ([], [])
  | (k, t) :: sh' =>
      let (out, issues) := zod_parse_fields sh' input in
      match zod_parse_field t k (lookup k input) with
      | inl v =>
          if negb (is_undefined v) || has_key k input
          then ((k, v) :: out, issues) else (out, issues)
      | inr i => (out, (i ++ issues)%list)
      end
  end.

Definition zod_parse (sh : shape) (params : value)
  : outcome (list (string * value)) :=
  match params with
  | VObj input =>
      match zod_parse_fields sh input with
      | (out, []) => Return out
      | (_, issues) => Throw (ZodError issues)
      end
  | VUndefined => Throw (ZodError [mkIssue "" "Required"])
  | _ => Throw (ZodError [mkIssue "" "Expected object"])
  end.

(** *** The three input contracts, as declared in the tool modules *)

Definition date_regex : regex := [(Digit, 8%nat); (Lit "-", 1%nat); (Digit, 8%nat)].

Definition date_field (description : string) : zod_type :=
  ZDescribe
    (ZOptional (ZString [CheckRegex date_regex "Date must be in format yyyyMMdd-yyyyMMdd"]))
    description.

Definition intervals : list string := ["day"; "week"; "month"; "quarter"; "year"].
Definition regions : list string := ["europe"; "asia"; "north_america"; "emea"; "apac"].
Definition billing_freqs : list string := ["month"; "quarter"; "year"; "week"].

Definition interval_field : zod_type :=
  ZDescribe (ZDefault (ZOptional (ZEnum intervals)) "month")
    "Reporting interval. Defaults to 'month'".

Definition region_field : zod_type :=
  ZDescribe (ZOptional (ZEnum regions)) "Filter by region (optional)".

Definition currency_field (description : string) : zod_type :=
  ZDescribe (ZOptional (ZString [CheckLength 3])) description.

Definition billing_freq_field (description : string) : zod_type :=
  ZDescribe (ZOptional (ZEnum billing_freqs)) description.

Definition free_text_field (description : string) : zod_type :=
  ZDescribe (ZOptional (ZString [])) description.

Definition getMRRInput : shape :=
  [ ("date", date_field "Reporting period in format yyyyMMdd-yyyyMMdd, e.g., 20241128-20250828. Defaults to last 365 days if omitted");
    ("interval", interval_field);
    ("region", region_field);
    ("currency", currency_field "Filter by 3-letter currency code in lower case, e.g., usd, eur (optional)");
    ("billing_freq", billing_freq_field "Filter by billing frequency (month, year, quarter, week - optional)");
    ("payment_method", free_text_field "Filter by payment method, e.g., visa, mastercard (optional)");
    ("age", free_text_field "Filter by customer age group (optional)") ].

Definition getLeadsInput : shape :=
  [ ("date", date_field "Reporting period in format yyyyMMdd-yyyyMMdd. Defaults to last 365 days if omitted");
    ("interval", interval_field);
    ("region", region_field);
    ("currency", currency_field "Filter by 3-letter currency code, e.g., usd, eur (optional)");
    ("payment_method", free_text_field "Filter by payment method, e.g., visa, mastercard (optional)");
    ("age", free_text_field "Filter by customer age group (optional)") ].

Definition getCohortsInput : shape :=
  [ ("date", date_field "Reporting period in format yyyyMMdd-yyyyMMdd. Defaults to last 365 days if omitted");
    ("interval", interval_field);
    ("region", region_field);
    ("currency", currency_field "Filter by 3-letter currency code, e.g., usd, eur (optional)");
    ("billing_freq", billing_freq_field "Billing frequency (optional)");
    ("payment_method", free_text_field "Filter by payment method (optional)");
    ("age", free_text_field "Filter by customer age group (optional)") ].

(** *** The tool registry: the three names [switch (name)] knows *)

Inductive tool : Type := GetMRR | GetLeads | GetCohorts.

Definition tool_name (t : tool) : string :=
  match t with
  | GetMRR => "getMRR"
  | GetLeads => "getLeads"
  | GetCohorts => "getCohorts"
  end.

Definition tool_description (t : tool) : string :=
  match t with
  | GetMRR => "Retrieve MRR, ARR, ARPA, ASP, churn metrics, customer movements, LTV, FX adjustments, and net MRR movements from GrowPanel"
  | GetLeads => "Retrieve lead, trial, and conversion metrics from GrowPanel, including conversion rates, trial stats, and forecasts"
  | GetCohorts => "Retrieve cohort metrics from GrowPanel, including MRR and customer retention/churn over periods"
  end.

Definition tool_input (t : tool) : shape :=
  match t with
  | GetMRR => getMRRInput
  | GetLeads => getLeadsInput
  | GetCohorts => getCohortsInput
  end.

(** The upstream report each [run] asks for. *)
Definition tool_endpoint (t : tool) : string :=
  match t with
  | GetMRR => "mrr"
  | GetLeads => "leads"
  | GetCohorts => "cohort"
  end.

Definition all_tools : list tool := [GetMRR; GetLeads; GetCohorts].

Definition registered (name : string) : bool :=
  String.eqb name (tool_name GetMRR) || String.eqb name (tool_name GetLeads)
  || String.eqb name (tool_name GetCohorts).

(** ** Dates

    A [Date] is its time value, the milliseconds since the epoch in UTC.  The
    calendar is the proleptic Gregorian one; local time is the time value
    shifted by the zone's offset [LocalTZA], which the host supplies. *)

Definition msPerDay : Z := 86400000.

Definition Day (t : Z) : Z := t / msPerDay.
Definition TimeWithinDay (t : Z) : Z := t mod msPerDay.

(** Year, month (1..12) and day of month of a day number. *)
Definition civil_from_days (z : Z) : Z * Z * Z :=
  let z := z + 719468 in
  let era := z / 146097 in
  let doe := z - era * 146097 in
  let yoe := (doe - doe / 1460 + doe / 36524 - doe / 146096) / 365 in
  let doy := doe - (365 * yoe + yoe / 4 - yoe / 100) in
  let mp := (5 * doy + 2) / 153 in
  let d := doy - (153 * mp + 2) / 5 + 1 in
  let m := if mp <? 10 then mp + 3 else mp - 9 in
  (yoe + era * 400 + (if m <=? 2 then 1 else 0), m, d).

(** Day number of a year, month (1..12) and day of month. *)
Definition days_from_civil (y m d : Z) : Z :=
  let y := y - (if m <=? 2 then 1 else 0) in
  let era := y / 400 in
  let yoe := y - era * 400 in
  let doy := (153 * (if 2 <? m then m - 3 else m + 9) + 2) / 5 + d - 1 in
  let doe := yoe * 365 + yoe / 4 - yoe / 100 + doy in
  era * 146097 + doe - 719468.

Definition YearFromTime (t : Z) : Z := fst (fst (civil_from_days (Day t))).
(** Months count from 0, as [getMonth] reports them. *)
Definition MonthFromTime (t : Z) : Z := snd (fst (civil_from_days (Day t))) - 1.
Definition DateFromTime (t : Z) : Z := snd (civil_from_days (Day t)).

(** [MakeDay(year, month, date)]: the day number of the first of the month,
    plus [date - 1]; months beyond 0..11 carry into the year. *)
Definition MakeDay (year month date : Z) : Z :=
  days_from_civil (year + month / 12) (month mod 12 + 1) 1 + date - 1.

Definition MakeDate (day time : Z) : Z := day * msPerDay + time.

Section LocalTime.
(** [LocalTZA t isUTC]: the offset of local time from UTC in milliseconds,
    at the UTC instant [t] when [isUTC], at the local wall-clock reading
    [t] otherwise. *)
Variable LocalTZA : Z -> bool -> Z.

Definition LocalTime (t : Z) : Z := t + LocalTZA t true.
Definition UTC (t : Z) : Z := t - LocalTZA t false.

(** [d.getDate()], [d.getMonth()], [d.getFullYear()] *)
Definition getDate (d : Z) : Z := DateFromTime (LocalTime d).
Definition getMonth (d : Z) : Z := MonthFromTime (LocalTime d).
Definition getFullYear (d : Z) : Z := YearFromTime (LocalTime d).

(** [d.setDate(date)], returning the new time value of [d]. *)
Definition setDate (d : Z) (date : Z) : Z :=
  let t := LocalTime d in
  UTC (MakeDate (MakeDay (YearFromTime t) (MonthFromTime t) date) (TimeWithinDay t)).
End LocalTime.

(** [s.padStart(width, "0")] *)
Definition padStart0 (width : nat) (s : string) : string :=
  zeros (width - String.length s) ++ s.

Definition pad (width : nat) (n : Z) : string :=
  padStart0 width (Z_to_string n).

(** [d.toISOString()]: UTC fields; years outside 0..9999 take a sign and six
    digits. *)
Definition toISOString (d : Z) : string :=
  let y := YearFromTime d in
  let tod := TimeWithinDay d in
  (if (0 <=? y) && (y <=? 9999) then pad 4 y
   else (if y <? 0 then "-" else "+") ++ pad 6 (Z.abs y))
  ++ "-" ++ pad 2 (MonthFromTime d + 1)
  ++ "-" ++ pad 2 (DateFromTime d)
  ++ "T" ++ pad 2 (tod / 3600000)
  ++ ":" ++ pad 2 (tod / 60000 mod 60)
  ++ ":" ++ pad 2 (tod / 1000 mod 60)
  ++ "." ++ pad 3 (tod mod 1000)
  ++ "Z".

(** [s.slice(0, n)] *)
Definition slice0 (n : nat) (s : string) : string := substring 0 n s.

(** [s.replace(/-/g, "")] *)
Fixpoint remove_hyphens (s : string) : string :=
  match s with
  | EmptyString => EmptyString
  | String c rest =>
      if Ascii.eqb c "-" then remove_hyphens rest else String c (remove_hyphens rest)
  end.

(** The local [format] of [getMRR.run]:
    [d.toISOString().slice(0, 10).replace(/-/g, "")]. *)
Definition iso_format (d : Z) : string :=
  remove_hyphens (slice0 10 (toISOString d)).

(** date-fns [addLeadingZeros]. *)
Definition addLeadingZeros (n : Z) (targetLength : nat) : string :=
  (if n <? 0 then "-" else "") ++ padStart0 targetLength (Z_to_string (Z.abs n)).

Section DateFns.
Variable LocalTZA : Z -> bool -> Z.

(** date-fns [subDays(date, amount)] is [addDays(date, -amount)], which
    calls [setDate(getDate() + amount)] on a copy. *)
Definition subDays (d : Z) (amount : Z) : Z :=
  if amount =? 0 then d
  else setDate LocalTZA d (getDate LocalTZA d + - amount).

(** date-fns [format(d, "yyyyMMdd")]: local fields, the year as [y] for
    positive years and [1 - y] otherwise. *)
Definition format_yyyyMMdd (d : Z) : string :=
  let signedYear := getFullYear LocalTZA d in
  let year := if 0 <? signedYear then signedYear else 1 - signedYear in
  addLeadingZeros year 4
  ++ addLeadingZeros (getMonth LocalTZA d + 1) 2
  ++ addLeadingZeros (getDate LocalTZA d) 2.
End DateFns.

(** ** The process environment and the upstream service *)

(** What [fetch] resolves with: [status] is an unsigned short, [body] the
    text of the body. *)
Record response : Type := mkResponse {
  status : Z;
  statusText : string;
  body : string
}.

Inductive fetch_result : Type :=
| NetworkFailure (e : js_error)
| Responded (r : response).

Record env : Type := mkEnv {
  GROWPANEL_API_URL : option string;
  GROWPANEL_API_TOKEN : option string;
  (** what the first [new Date()] of a call reads, and what a second one
      reads right after it *)
  now : Z;
  now_again : Z;
  LocalTZA : Z -> bool -> Z;
  (** whether [new URL(url, base)] returns; it throws a [TypeError] when it
      cannot parse its arguments *)
  URL_canParse : string -> string -> bool;
  (** how [fetch] settles for a request: the answer of the upstream service,
      or a rejection *)
  upstream : http_request -> fetch_result
}.

(** [process.env.X || dflt] *)
Definition env_or (x : option string) (dflt : string) : string :=
  match x with
  | Some s => if String.eqb s "" then dflt else s
  | None => dflt
  end.

(** Truthiness and text of an environment variable, [None] being
    [undefined]. *)
Definition env_truthy (x : option string) : bool :=
  match x with
  | Some s => negb (String.eqb s "")
  | None => false
  end.

Definition env_text (x : option string) : string :=
  match x with
  | Some s => s
  | None => "undefined"
  end.

(** [s || dflt] on strings *)
Definition str_or (s dflt : string) : string :=
  if String.eqb s "" then dflt else s.

(** [fetch(url, init)]: the request is recorded in the log, and the host
    decides how the call settles. *)
Definition fetch (e : env) (rq : http_request) : M fetch_result :=
  fun log => (Return (upstream e rq), (log ++ [rq])%list).

Definition ok (r : response) : bool := (200 <=? status r) && (status r <=? 299).

(** The value of a string of decimal digits. *)
Fixpoint digits_value (acc : Z) (s : string) : Z :=
  match s with
  | EmptyString => acc
  | String c rest => digits_value (10 * acc + (Z.of_nat (nat_of_ascii c) - 48)) rest
  end.

(** An array index is the canonical decimal form of an integer below
    2^32 - 1: digits only, no leading zero. *)
Definition array_index (k : string) : option Z :=
  match k with
  | EmptyString => None
  | String c rest =>
      if all_digits k && (negb (Ascii.eqb c "0") || String.eqb rest "")
      then (if digits_value 0 k <? 4294967295 then Some (digits_value 0 k) else None)
      else None
  end.

Definition is_index (k : string) : bool :=
  match array_index k with
  | Some _ => true
  | None => false
  end.

Definition index_value (k : string) : Z :=
  match array_index k with
  | Some n => n
  | None => 0
  end.

Fixpoint insert_key (k : string) (sorted : list string) : list string :=
  match sorted with
  | [] => [k]
  | k' :: rest =>
      if index_value k <=? index_value k' then k :: sorted
      else k' :: insert_key k rest
  end.

Definition sort_keys (keys : list string) : list string :=
  fold_right insert_key [] keys.

(** [Object.keys(obj)]: the keys that are array indices in ascending numeric
    order, then the other keys in insertion order. *)
Definition Object_keys (fields : list (string * value)) : list string :=
  let keys := map fst fields in
  (sort_keys (filter is_index keys)
   ++ filter (fun k => negb (is_index k)) keys)%list.

(** The [forEach] of [callApi]: [append] converts each value to a string,
    which can throw. *)
Fixpoint append_each (keys : list string) (params : list (string * value))
  : outcome (list (string * string)) :=
  match keys with
  | [] => Return []
  | key :: rest =>
      let v := lookup key params in
      if negb (is_undefined v) && negb (is_null v) then
        match to_js_string v with
        | Throw err => Throw err
        | Return s =>
            match append_each rest params with
            | Throw err => Throw err
            | Return query => Return ((key, s) :: query)
            end
        end
      else append_each rest params
  end.

Definition search_params (params : list (string * value))
  : outcome (list (string * string)) :=
  append_each (Object_keys params) params.

(** [obj[k] = v]: an existing key keeps its place, a new key goes last. *)
Fixpoint set_field (k : string) (v : value) (fields : list (string * value))
  : list (string * value) :=
  match fields with
  | [] => [(k, v)]
  | (k', v') :: rest =>
      if String.eqb k k' then (k', v) :: rest else (k', v') :: set_field k v rest
  end.

Definition text_block (text : value) : value :=
  VObj [("type", VStr "text"); ("text", text)].

Section Server.
(** The built-ins the server calls: [JSON.parse], [JSON.stringify(v, null, 2)]
    (which yields [undefined] for [undefined]), and the text zod gives a
    [ZodError] as its [message]. *)
Variable JSON_parse : string -> outcome value.
Variable JSON_stringify : value -> value.
Variable zod_message : list issue -> string.
(** Lines 119-173 of [getMRR.ts]: the validation of the upstream payload
    against [getMRRApiResponse] and the rendering of the report, which the
    locale decides ([toLocaleString]); it returns an envelope or throws. *)
Variable mrr_report : value -> outcome value.

Definition error_message (e : js_error) : string :=
  match e with
  | Error m | TypeError m | SyntaxError m => m
  | ZodError issues => zod_message issues
  end.

(** *** utils/api.ts *)

Definition callApi (e : env) (endpoint : string) (params : list (string * value))
  : M value :=
  let baseUrl := env_or (GROWPANEL_API_URL e) "https://api.growpanel.io" in
  let apiKey := GROWPANEL_API_TOKEN e in
  if negb (env_truthy apiKey) then
    throw (Error "GROWPANEL_API_KEY environment variable is required")
  else if negb (URL_canParse e ("/reports/" ++ endpoint) baseUrl) then
    throw (TypeError "Invalid URL")
  else
    query <- lift (search_params params) ;;
    let url := mkRequest "GET" baseUrl ("/reports/" ++ endpoint) query
                 [("Authorization", "Bearer " ++ env_text apiKey);
                  ("Content-Type", "application/json")] in
    try_catch
      (r <- fetch e url ;;
       match r with
       | NetworkFailure err => throw err
       | Responded resp =>
           if negb (ok resp) then
             let errorText := body resp in
             throw (Error ("API call failed: " ++ Z_to_string (status resp) ++ " "
                           ++ statusText resp ++ " - " ++ errorText))
           else
             result <- lift (JSON_parse (body resp)) ;;
             ret result
       end)
      (fun error => throw error).

(** *** tools/getMRR.ts *)

(** [end] and [start] are two readings of the clock, one after the other. *)
Definition getMRR_default_date (e : env) : string :=
  let end_ := now e in
  let start := now_again e in
  let start := setDate (LocalTZA e) start (getDate (LocalTZA e) end_ - 365) in
  iso_format start ++ "-" ++ iso_format end_.

Definition getMRR_run (e : env) (params : value) : M value :=
  parsed <- lift (zod_parse getMRRInput params) ;;
  let filters := parsed in
  let filters :=
    if negb (truthy (lookup "date" filters))
    then set_field "date" (VStr (getMRR_default_date e)) filters
    else filters in
  apiResponse <- callApi e "mrr" filters ;;
  lift (mrr_report apiResponse).

(** *** tools/getLeads.ts and tools/getCohorts.ts *)

Definition datefns_default_date (e : env) : string :=
  let end_ := now e in
  let start := subDays (LocalTZA e) end_ 365 in
  format_yyyyMMdd (LocalTZA e) start ++ "-" ++ format_yyyyMMdd (LocalTZA e) end_.

Definition getLeads_run (e : env) (params : value) : M value :=
  parsed <- lift (zod_parse getLeadsInput params) ;;
  let filters := parsed in
  let filters :=
    if negb (truthy (lookup "date" filters))
    then set_field "date" (VStr (datefns_default_date e)) filters
    else filters in
  apiResponse <- callApi e "leads" filters ;;
  ret (VObj [("content", VArr [text_block (JSON_stringify apiResponse)])]).

Definition getCohorts_run (e : env) (params : value) : M value :=
  parsed <- lift (zod_parse getCohortsInput params) ;;
  let filters := parsed in
  let filters :=
    if negb (truthy (lookup "date" filters))
    then set_field "date" (VStr (datefns_default_date e)) filters
    else filters in
  apiResponse <- callApi e "cohort" filters ;;
  ret (VObj [("content", VArr [text_block (JSON_stringify apiResponse)])]).

Definition tool_run (t : tool) : env -> value -> M value :=
  match t with
  | GetMRR => getMRR_run
  | GetLeads => getLeads_run
  | GetCohorts => getCohorts_run
  end.

(** *** server.ts: wrapTool *)

Definition text_of (v : value) : value :=
  if is_string v then v else JSON_stringify v.

Definition wrap_result (result : value) : value :=
  if truthy result && truthy (get result "content") then result
  else
    match result with
    | VArr items => (* Array.isArray(result) *)
        VObj [("content", VArr (map (fun item => text_block (text_of item)) items))]
    | _ => VObj [("content", VArr [text_block (text_of result)])]
    end.

Definition wrapTool (toolFn : value -> M value) (params : value) : M value :=
  try_catch
    (result <- toolFn params ;;
     ret (wrap_result result))
    (fun error => throw error).

(** The block of one value, in the words of the contract: a string verbatim,
    anything else serialized. *)
Definition block_for (item : value) : value :=
  match item with
  | VStr s => VObj [("type", VStr "text"); ("text", VStr s)]
  | other => VObj [("type", VStr "text"); ("text", JSON_stringify other)]
  end.

(** *** server.ts: the streaming transport (SDK request handlers) *)

Record stream_entry : Type := mkStreamEntry {
  se_name : string;
  se_description : string;
  se_inputSchema : shape
}.

Definition stream_tools : list stream_entry :=
  [ mkStreamEntry (tool_name GetMRR)
      (str_or (tool_description GetMRR) "Get Monthly Recurring Revenue data")
      (tool_input GetMRR);
    mkStreamEntry (tool_name GetLeads)
      (str_or (tool_description GetLeads) "Get leads data")
      (tool_input GetLeads);
    mkStreamEntry (tool_name GetCohorts)
      (str_or (tool_description GetCohorts) "Get cohorts data")
      (tool_input GetCohorts) ].

Definition ListTools_handler : M (list stream_entry) := ret stream_tools.

(** The SDK hands the handler a request whose [params.name] is a string. *)
Definition CallTool_handler (e : env) (name : string) (args : value) : M value :=
  if String.eqb name (tool_name GetMRR) then wrapTool (getMRR_run e) args
  else if String.eqb name (tool_name GetLeads) then wrapTool (getLeads_run e) args
  else if String.eqb name (tool_name GetCohorts) then wrapTool (getCohorts_run e) args
  else throw (Error ("Unknown tool: " ++ name)).

(** *** server.ts: the request/response transport (POST /events) *)

Record rpc_error : Type := mkRpcError {
  code : Z;
  message : string;
  (** [None] when the literal has no [data] key *)
  data : option string
}.

Inductive rpc_payload : Type :=
| Result (result : value)
| Failure (error : rpc_error).

Record rpc_response : Type := mkRpc {
  jsonrpc : string;
  id : value;
  payload : rpc_payload
}.

(** The SDK's protocol layer, which is not part of this repository, answers
    a handler that returned with its result and a handler that threw with a
    JSON-RPC error whose code is the thrown value's own [code] when it has
    one and InternalError, -32603, otherwise. *)
Definition sdk_reply (o : outcome value) : rpc_payload :=
  match o with
  | Return result => Result result
  | Throw err =>
      Failure (mkRpcError (match error_code err with Some c => c | None => -32603 end)
                 (error_message err) None)
  end.

Definition str_prop (description : string) : value :=
  VObj [("type", VStr "string"); ("description", VStr description)].

Definition interval_prop : value :=
  VObj [("type", VStr "string");
        ("enum", VArr [VStr "day"; VStr "week"; VStr "month"; VStr "quarter"; VStr "year"]);
        ("default", VStr "month");
        ("description", VStr "Time interval for data aggregation")].

Definition region_prop : value :=
  VObj [("type", VStr "string");
        ("enum", VArr [VStr "europe"; VStr "asia"; VStr "north_america"; VStr "emea"; VStr "apac"]);
        ("description", VStr "Regional filter")].

Definition billing_freq_prop : value :=
  VObj [("type", VStr "string");
        ("enum", VArr [VStr "week"; VStr "month"; VStr "quarter"; VStr "year"]);
        ("description", VStr "Billing frequency filter")].

(** The literal written out for getMRR and, again, for getCohorts. *)
Definition schema_with_billing_freq : value :=
  VObj [("type", VStr "object");
        ("properties",
         VObj [("date", str_prop "Date filter");
               ("interval", interval_prop);
               ("region", region_prop);
               ("currency", str_prop "Currency code");
               ("billing_freq", billing_freq_prop);
               ("payment_method", str_prop "Payment method filter");
               ("age", str_prop "Customer age filter")]);
        ("required", VArr [])].

(** The literal written out for getLeads. *)
Definition schema_without_billing_freq : value :=
  VObj [("type", VStr "object");
        ("properties",
         VObj [("date", str_prop "Date filter");
               ("interval", interval_prop);
               ("region", region_prop);
               ("currency", str_prop "Currency code");
               ("payment_method", str_prop "Payment method filter");
               ("age", str_prop "Customer age filter")]);
        ("required", VArr [])].

Definition post_entry (name description : string) (inputSchema : value) : value :=
  VObj [("name", VStr name); ("description", VStr description);
        ("inputSchema", inputSchema)].

Definition post_tools : value :=
  VArr [ post_entry (tool_name GetMRR)
           (str_or (tool_description GetMRR) "Get Monthly Recurring Revenue data")
           schema_with_billing_freq;
         post_entry (tool_name GetLeads)
           (str_or (tool_description GetLeads) "Get leads data")
           schema_without_billing_freq;
         post_entry (tool_name GetCohorts)
           (str_or (tool_description GetCohorts) "Get cohorts data")
           schema_with_billing_freq ].

(** The [tools/call] branch, inside its own [try]. *)
Definition post_tools_call (e : env) (message : value) : M rpc_response :=
  try_catch
    (let params := get message "params" in
     if is_nullish params then
       throw (TypeError "Cannot destructure property 'name' of 'message.params'")
     else
       let name := get params "name" in
       let args := get params "arguments" in
       (* the template literal of the log line converts [name] *)
       text <- lift (to_js_string name) ;;
       if is_str name (tool_name GetMRR) then
         result <- wrapTool (getMRR_run e) args ;;
         ret (mkRpc "2.0" (get message "id") (Result result))
       else if is_str name (tool_name GetLeads) then
         result <- wrapTool (getLeads_run e) args ;;
         ret (mkRpc "2.0" (get message "id") (Result result))
       else if is_str name (tool_name GetCohorts) then
         result <- wrapTool (getCohorts_run e) args ;;
         ret (mkRpc "2.0" (get message "id") (Result result))
       else
         ret (mkRpc "2.0" (get message "id")
                (Failure (mkRpcError (-32601) ("Unknown tool: " ++ text) None))))
    (fun toolError =>
       ret (mkRpc "2.0" (get message "id")
              (Failure (mkRpcError (-32603) "Internal error"
                          (Some (error_message toolError)))))).

Definition handle_message (e : env) (message : value) : M rpc_response :=
  if is_nullish message then
    throw (TypeError "Cannot read properties of null (reading 'method')")
  else if is_str (get message "method") "tools/list" then
    ret (mkRpc "2.0" (get message "id") (Result (VObj [("tools", post_tools)])))
  else if is_str (get message "method") "tools/call" then
    post_tools_call e message
  else
    ret (mkRpc "2.0" (get message "id")
           (Failure (mkRpcError (-32601) "Method not found" None))).

Record http_reply : Type := mkReply {
  http_status : Z;
  http_headers : list (string * string);
  http_body : rpc_response
}.

(** The [req.on('end', ...)] callback of [POST /events]. *)
Definition post_events (e : env) (body : string) : M http_reply :=
  try_catch
    (message <- lift (JSON_parse body) ;;
     response <- handle_message e message ;;
     ret (mkReply 200 [("Content-Type", "application/json")] response))
    (fun error =>
       let errorResponse :=
         mkRpc "2.0" VNull
           (Failure (mkRpcError (-32700) "Parse error" (Some (error_message error)))) in
       ret (mkReply 400 [("Content-Type", "application/json")] errorResponse)).

Inductive http_out : Type :=
| Json (r : http_reply)
| Empty (status : Z)
| EventStream (status : Z)
| Text (status : Z) (text : string).

(** [http.createServer(async (req, res) => ...)] *)
Definition httpServer (e : env) (method url body : string) : M http_out :=
  if String.eqb method "OPTIONS" then ret (Empty 200)
  else if String.eqb method "POST" && String.eqb url "/events" then
    r <- post_events e body ;; ret (Json r)
  else if String.eqb method "GET" && String.eqb url "/events" then
    ret (EventStream 200)
  else ret (Text 404 "Not Found").
End Server.

(** ** The date filter, in the words of the specification *)

(** [yyyyMMdd] of a day number: four digits of year, two of month, two of
    day. *)
Definition yyyymmdd (day : Z) : string :=
  let '(y, m, d) := civil_from_days day in pad 4 y ++ pad 2 m ++ pad 2 d.

Definition year_of_day (day : Z) : Z := fst (fst (civil_from_days day)).

Definition digits_of_width (width : nat) (s : string) : bool :=
  Nat.eqb (String.length s) width && all_digits s.

(** ** What a catalog entry declares

    The streaming transport reports the zod shape of a tool, the
    request/response transport a JSON-schema literal.  To compare them, both
    are read as a list of field declarations: name, optionality, enumeration,
    default and constraints (a pattern, an exact length). *)

Inductive constraint : Type :=
| Pattern (source : string)
| ExactLength (n : Z).

Record field_decl : Type := mkDecl {
  fd_name : string;
  fd_optional : bool;
  fd_enum : option (list string);
  fd_default : option string;
  fd_constraints : list constraint
}.

Definition atom_source (a : atom) : string :=
  match a with
  | Digit => "\d"
  | Lit c => String c ""
  end.

(** The source text of a [regex], as written between the slashes. *)
Definition regex_source (r : regex) : string :=
  "^" ++ concat ""
           (map (fun an => atom_source (fst an)
                           ++ (if Nat.eqb (snd an) 1 then ""
                               else "{" ++ Z_to_string (Z.of_nat (snd an)) ++ "}"))
                r)
      ++ "$".

Definition check_constraint (c : string_check) : constraint :=
  match c with
  | CheckRegex r _ => Pattern (regex_source r)
  | CheckLength n => ExactLength (Z.of_nat n)
  end.

Fixpoint zod_optional (t : zod_type) : bool :=
  match t with
  | ZOptional _ | ZDefault _ _ => true
  | ZDescribe inner _ => zod_optional inner
  | ZString _ | ZEnum _ => false
  end.

Fixpoint zod_enum (t : zod_type) : option (list string) :=
  match t with
  | ZEnum values => Some values
  | ZString _ => None
  | ZOptional inner | ZDefault inner _ | ZDescribe inner _ => zod_enum inner
  end.

Fixpoint zod_default (t : zod_type) : option string :=
  match t with
  | ZDefault _ dflt => Some dflt
  | ZOptional inner | ZDescribe inner _ => zod_default inner
  | ZString _ | ZEnum _ => None
  end.

Fixpoint zod_constraints (t : zod_type) : list constraint :=
  match t with
  | ZString checks => map check_constraint checks
  | ZEnum _ => []
  | ZOptional inner | ZDefault inner _ | ZDescribe inner _ => zod_constraints inner
  end.

Definition zod_decl (f : string * zod_type) : field_decl :=
  mkDecl (fst f) (zod_optional (snd f)) (zod_enum (snd f)) (zod_default (snd f))
         (zod_constraints (snd f)).

Definition strings_of (v : value) : option (list string) :=
  match v with
  | VArr items =>
      Some (flat_map (fun i => match i with VStr s => [s] | _ => [] end) items)
  | _ => None
  end.

(** The JSON-schema keywords that constrain a string. *)
Definition json_constraints (prop : value) : list constraint :=
  ((match get prop "pattern" with VStr p => [Pattern p] | _ => [] end)
   ++ (match get prop "minLength", get prop "maxLength" with
       | VNum lo, VNum hi => if lo =? hi then [ExactLength lo] else []
       | _, _ => []
       end))%list.

Definition json_decl (required : list string) (f : string * value) : field_decl :=
  mkDecl (fst f) (negb (mem (fst f) required))
         (strings_of (get (snd f) "enum"))
         (match get (snd f) "default" with VStr d => Some d | _ => None end)
         (json_constraints (snd f)).

Definition json_schema_decls (schema : value) : list field_decl :=
  match get schema "properties", strings_of (get schema "required") with
  | VObj props, Some required => map (json_decl required) props
  | _, _ => []
  end.

(** What the streaming catalog declares for a tool. *)
Definition stream_declared (t : tool) : list field_decl :=
  match find (fun en => String.eqb (se_name en) (tool_name t)) stream_tools with
  | Some en => map zod_decl (se_inputSchema en)
  | None => []
  end.

(** What the catalog of [POST /events] declares for a tool. *)
Definition post_declared (t : tool) : list field_decl :=
  match post_tools with
  | VArr entries =>
      match find (fun en => is_str (get en "name") (tool_name t)) entries with
      | Some en => json_schema_decls (get en "inputSchema")
      | None => []
      end
  | _ => []
  end.

Definition decl_of (name : string) (decls : list field_decl) : option field_decl :=
  find (fun d => String.eqb (fd_name d) name) decls.

(** The ways of failing a tool's input contract that the specification
    lists: a [date] off the pattern, a [currency] whose length is not 3, a
    [region], [interval] or [billing_freq] outside its set.  The contract of
    getLeads has no [billing_freq], so nothing is wrong with one there. *)
Definition schema_violation (t : tool) (args : value) : Prop :=
  exists fields,
    args = VObj fields
    /\ ((exists s, lookup "date" fields = VStr s /\ regex_test date_regex s = false)
        \/ (exists s, lookup "currency" fields = VStr s /\ String.length s <> 3%nat)
        \/ (exists s, lookup "region" fields = VStr s /\ mem s regions = false)
        \/ (exists s, lookup "interval" fields = VStr s /\ mem s intervals = false)
        \/ (t <> GetLeads
            /\ exists s, lookup "billing_freq" fields = VStr s /\ mem s billing_freqs = false)).

(** A well-formed [tools/call] request, as a client sends it. *)
Definition call_message (id name args : value) : value :=
  VObj [("jsonrpc", VStr "2.0"); ("id", id); ("method", VStr "tools/call");
        ("params", VObj [("name", name); ("arguments", args)])].

(** A well-formed [tools/list] request. *)
Definition list_message (id : value) : value :=
  VObj [("jsonrpc", VStr "2.0"); ("id", id); ("method", VStr "tools/list")].

(** The credential is configured: [!apiKey] is false. *)
Definition token_present (e : env) : Prop :=
  env_truthy (GROWPANEL_API_TOKEN e) = true.

(** [new URL(`/reports/${endpoint}`, baseUrl)] returns on this host. *)
Definition url_parses (e : env) (endpoint : string) : Prop :=
  URL_canParse e ("/reports/" ++ endpoint)
    (env_or (GROWPANEL_API_URL e) "https://api.growpanel.io") = true.

(** Every value of a filter object that is neither [undefined] nor [null]
    has a string form. *)
Definition stringifiable (params : list (string * value)) : Prop :=
  forall key,
    In key (map fst params) ->
    is_nullish (lookup key params) = false ->
    exists s, to_js_string (lookup key params) = Return s.

(** ** Sample hosts, for running the server on concrete inputs *)

(** A stand-in for [JSON.parse] on the bodies the examples post; the request
    bodies are named rather than spelled out, anything else is rejected. *)
Definition sample_parse (s : string) : outcome value :=
  if String.eqb s "{}" then Return (VObj [])
  else if String.eqb s "list" then Return (list_message (VNum 1))
  else if String.eqb s "list again" then Return (list_message (VNum 2))
  else if String.eqb s "call getLeads" then
    Return (call_message (VNum 3) (VStr "getLeads") (VObj []))
  else if String.eqb s "call getCohorts usdx" then
    Return (call_message (VNum 4) (VStr "getCohorts") (VObj [("currency", VStr "usdx")]))
  else Throw (SyntaxError "Unexpected token in JSON").

(** A [JSON.stringify] good enough for the samples. *)
Definition sample_stringify (v : value) : value :=
  match v with
  | VUndefined => VUndefined
  | VNull => VStr "null"
  | VNum n => VStr (Z_to_string n)
  | VArr [] => VStr "[]"
  | VObj [] => VStr "{}"
  | _ => VStr "<json>"
  end.

Definition sample_zod_message (issues : list issue) : string :=
  join "; " (map issue_message issues).

Definition sample_mrr_report (v : value) : outcome value :=
  Return (VObj [("content", VArr [text_block (VStr "# MRR Report")])]).

(** A stand-in for the URL parser: a base is accepted when it starts with
    the scheme of the web. *)
Definition sample_canParse (url base : string) : bool :=
  prefix "https://" base || prefix "http://" base.

(** A host in UTC whose upstream answers every request with [r]. *)
Definition host_answering (token : option string) (r : fetch_result) : env :=
  mkEnv None token 1762041600000 1762041600000 (fun _ _ => 0) sample_canParse
        (fun _ => r).

Definition rate_limited : response := mkResponse 500 "Internal Server Error" "rate limited".

(** A host whose upstream is healthy, and one whose upstream is failing. *)
Definition healthy : env :=
  host_answering (Some "sk_live_x") (Responded (mkResponse 200 "OK" "{}")).

Definition failing : env :=
  host_answering (Some "sk_live_x") (Responded rate_limited).

(** Central European time around the two spring transitions the example
    needs: UTC+2 from 2025-03-30T01:00Z to 2025-10-26T01:00Z and from
    2026-03-29T01:00Z to 2026-10-25T01:00Z, UTC+1 otherwise.  A local reading
    that a forward transition skips is read with the offset before it. *)
Definition cet_summer (t : Z) : bool :=
  ((1743296400000 <=? t) && (t <? 1761440400000))
  || ((1774746000000 <=? t) && (t <? 1792890000000)).

Definition cet_LocalTZA (t : Z) (isUTC : bool) : Z :=
  if isUTC then (if cet_summer t then 7200000 else 3600000)
  else (if cet_summer (t - 7200000) then 7200000 else 3600000).

(** 2026-03-29T23:30:00Z, which is 01:30 on 30 March in Berlin. *)
Definition berlin_night : env :=
  mkEnv None (Some "sk_live_x") 1774827000000 1774827000000 cet_LocalTZA
        sample_canParse (fun _ => Responded (mkResponse 200 "OK" "{}")).

(** ** Derived notions used to state further properties *)

(** Whether a string satisfies a field contract. *)
Fixpoint accepts (t : zod_type) (s : string) : bool :=
  match t with
  | ZString checks => forallb (check_ok s) checks
  | ZEnum values => mem s values
  | ZOptional inner | ZDefault inner _ | ZDescribe inner _ => accepts inner s
  end.

Fixpoint distinct (l : list string) : bool :=
  match l with
  | [] => true
  | k :: rest => negb (mem k rest) && distinct rest
  end.

(** The type a shape gives a key. *)
Fixpoint field_type (k : string) (sh : shape) : option zod_type :=
  match sh with
  | [] => None
  | (k1, t) :: rest => if String.eqb k k1 then Some t else field_type k rest
  end.

(** The date a tool synthesizes, and the filters its [run] hands to
    [callApi]. *)
Definition tool_default_date (t : tool) (e : env) : string :=
  match t with
  | GetMRR => getMRR_default_date e
  | GetLeads | GetCohorts => datefns_default_date e
  end.

Definition tool_filters (t : tool) (e : env) (parsed : list (string * value))
  : list (string * value) :=
  if negb (truthy (lookup "date" parsed))
  then set_field "date" (VStr (tool_default_date t e)) parsed
  else parsed.

(** The query of a filter object whose values have a string form. *)
Definition query_of (params : list (string * value)) : list (string * string) :=
  match search_params params with
  | Return query => query
  | Throw _ => []
  end.

(** The request [callApi] builds for an endpoint and such a filter object. *)
Definition api_request (e : env) (endpoint : string) (params : list (string * value))
  : http_request :=
  mkRequest "GET" (env_or (GROWPANEL_API_URL e) "https://api.growpanel.io")
    ("/reports/" ++ endpoint) (query_of params)
    [("Authorization", "Bearer " ++ env_text (GROWPANEL_API_TOKEN e));
     ("Content-Type", "application/json")].

(** The tool a [name] selects in [switch (name)], if any. *)
Definition tool_of_name (name : value) : option tool :=
  if is_str name (tool_name GetMRR) then Some GetMRR
  else if is_str name (tool_name GetLeads) then Some GetLeads
  else if is_str name (tool_name GetCohorts) then Some GetCohorts
  else None.

Section RunTail.
Variable JSON_stringify : value -> value.
Variable mrr_report : value -> outcome value.

(** What is left of a run after a successful parse. *)
Definition tool_finish (t : tool) (apiResponse : value) : M value :=
  match t with
  | GetMRR => lift (mrr_report apiResponse)
  | GetLeads | GetCohorts =>
      ret (VObj [("content", VArr [text_block (JSON_stringify apiResponse)])])
  end.
End RunTail.

(** ** The output contract of getMRR

    [getMRROutput] is an object of strings and numbers, some optional, some
    nullable; [getMRRApiResponse] wraps an array of them in [result]. *)

Inductive out_type : Type :=
| OString
| ONumber
| OOptional (inner : out_type)
| ONullable (inner : out_type).

Fixpoint out_parse_field (t : out_type) (path : string) (v : value)
  : value + list issue :=
  match t with
  | OString =>
      match v with
      | VStr _ => inl v
      | VUndefined => inr [mkIssue path "Required"]
      | _ => inr [mkIssue path "Expected string"]
      end
  | ONumber =>
      match v with
      | VNum _ => inl v
      | VUndefined => inr [mkIssue path "Required"]
      | _ => inr [mkIssue path "Expected number"]
      end
  | OOptional inner =>
      match v with
      | VUndefined => inl VUndefined
      | _ => out_parse_field inner path v
      end
  | ONullable inner =>
      match v with
      | VNull => inl VNull
      | _ => out_parse_field inner path v
      end
  end.

Definition out_shape : Type := list (string * out_type).

(** As for the input contracts: keys in declaration order, unknown keys
    stripped. *)
Fixpoint out_parse_fields (sh : out_shape) (input : list (string * value))
  : list (string * value) * list issue :=
  match sh with
  | [] => ([], [])
  | (k, t) :: sh' =>
      let (out, issues) := out_parse_fields sh' input in
      match out_parse_field t k (lookup k input) with
      | inl v =>
          if negb (is_undefined v) || has_key k input
          then ((k, v) :: out, issues) else (out, issues)
      | inr i => (out, (i ++ issues)%list)
      end
  end.

Definition out_parse_object (sh : out_shape) (v : value) : value + list issue :=
  match v with
  | VObj input =>
      match out_parse_fields sh input with
      | (out, []) => inl (VObj out)
      | (_, issues) => inr issues
      end
  | VUndefined => inr [mkIssue "" "Required"]
  | _ => inr [mkIssue "" "Expected object"]
  end.

(** [z.array(schema)] on the elements of an array. *)
Fixpoint out_parse_items (sh : out_shape) (items : list value)
  : list value * list issue :=
  match items with
  | [] => ([], [])
  | item :: rest =>
      let (vs, issues) := out_parse_items sh rest in
      match out_parse_object sh item with
      | inl v => (v :: vs, issues)
      | inr i => (vs, (i ++ issues)%list)
      end
  end.

Definition getMRROutput : out_shape :=
  [ ("date", OString);
    ("end_date", OString);
    ("new", ONumber);
    ("expansion", ONumber);
    ("contraction", ONumber);
    ("churn", ONumber);
    ("reactivation", ONumber);
    ("mrr_diff", ONumber);
    ("total_mrr", ONumber);
    ("total_arr", ONumber);
    ("total_customers", ONumber);
    ("arpa", OOptional ONumber);
    ("asp", OOptional ONumber);
    ("ltv", OOptional ONumber);
    ("customer_churn_rate", ONumber);
    ("mrr_churn_rate", ONumber);
    ("net_mrr_churn_rate", ONumber);
    ("fx_adjustment", ONumber);
    ("customers_diff", ONumber);
    ("new_customers", ONumber);
    ("expansion_customers", ONumber);
    ("contraction_customers", ONumber);
    ("churn_customers", ONumber);
    ("reactivation_customers", ONumber);
    ("segment_entry", ONumber);
    ("segment_entry_customers", ONumber);
    ("segment_exit", ONumber);
    ("segment_exit_customers", ONumber);
    ("update", ONullable ONumber);
    ("update_customers", ONullable ONumber);
    ("customer_change_pct", ONumber);
    ("mrr_change_pct", ONumber);
    ("customer_churn_avg", ONumber);
    ("net_mrr_diff", ONumber) ].

(** [getMRRApiResponse.parse(apiResponse).result]: the validated items. *)
Definition getMRRApiResponse_parse (apiResponse : value) : outcome (list value) :=
  match apiResponse with
  | VObj input =>
      match lookup "result" input with
      | VArr items =>
          match out_parse_items getMRROutput items with
          | (vs, []) => Return vs
          | (_, issues) => Throw (ZodError issues)
          end
      | VUndefined => Throw (ZodError [mkIssue "result" "Required"])
      | _ => Throw (ZodError [mkIssue "result" "Expected array"])
      end
  | VUndefined => Throw (ZodError [mkIssue "" "Required"])
  | _ => Throw (ZodError [mkIssue "" "Expected object"])
  end.

Definition nl : string := String "010"%char "".

Section MrrReport.
(** [JSON.stringify(v, null, 2)], and lines 124-165 of [getMRR.ts] for one
    item: the section of the report, which the locale decides. *)
Variable JSON_stringify : value -> value.
Variable item_section : value -> string.

(** Lines 119-173 of [getMRR.ts]. *)
Definition getMRR_report (apiResponse : value) : outcome value :=
  match getMRRApiResponse_parse apiResponse with
  | Throw err => Throw err
  | Return result =>
      match to_js_string (JSON_stringify (VArr result)) with
      | Throw err => Throw err
      | Return raw =>
          Return
            (VObj
               [("content",
                 VArr
                   [ text_block
                       (VStr ("# MRR Report" ++ nl ++ nl
                              ++ concat "" (map item_section result)));
                     text_block
                       (VStr ("Raw data:" ++ nl ++ "```json" ++ nl
                              ++ raw ++ nl ++ "```")) ])])
      end
  end.
End MrrReport.

(** What a validated item is, against the item it comes from. *)
Definition validated_item (item v : value) : Prop :=
  exists fields out,
    item = VObj fields /\ v = VObj out
    /\ NoDup (map fst out)
    /\ (forall k x, In (k, x) out -> In k (map fst getMRROutput) /\ x = lookup k fields)
    /\ (forall k, In (k, OString) getMRROutput ->
                  exists s, lookup k fields = VStr s /\ In (k, VStr s) out)
    /\ (forall k, In (k, ONumber) getMRROutput ->
                  exists n, lookup k fields = VNum n /\ In (k, VNum n) out).

(** ** More sample hosts *)

(** An item as the upstream sends it: every metric of the contract but the
    optional [asp] and [ltv], and a field the contract does not know. *)
Definition sample_item : value :=
  VObj [("plan", VStr "pro"); ("date", VStr "2025-10-01");
        ("end_date", VStr "2025-10-31"); ("new", VNum 107);
        ("expansion", VNum 114); ("contraction", VNum 121);
        ("churn", VNum 128); ("reactivation", VNum 135);
        ("mrr_diff", VNum 142); ("total_mrr", VNum 149);
        ("total_arr", VNum 156); ("total_customers", VNum 163);
        ("arpa", VNum 4200); ("customer_churn_rate", VNum 170);
        ("mrr_churn_rate", VNum 177); ("net_mrr_churn_rate", VNum 184);
        ("fx_adjustment", VNum 191); ("customers_diff", VNum 198);
        ("new_customers", VNum 205); ("expansion_customers", VNum 212);
        ("contraction_customers", VNum 219); ("churn_customers", VNum 226);
        ("reactivation_customers", VNum 233); ("segment_entry", VNum 240);
        ("segment_entry_customers", VNum 247); ("segment_exit", VNum 254);
        ("segment_exit_customers", VNum 261); ("update", VNull);
        ("update_customers", VNum 3); ("customer_change_pct", VNum 268);
        ("mrr_change_pct", VNum 275); ("customer_churn_avg", VNum 282);
        ("net_mrr_diff", VNum 289)].

(** The same item as the contract keeps it. *)
Definition sample_item_validated : value :=
  VObj [("date", VStr "2025-10-01"); ("end_date", VStr "2025-10-31");
        ("new", VNum 107); ("expansion", VNum 114);
        ("contraction", VNum 121); ("churn", VNum 128);
        ("reactivation", VNum 135); ("mrr_diff", VNum 142);
        ("total_mrr", VNum 149); ("total_arr", VNum 156);
        ("total_customers", VNum 163); ("arpa", VNum 4200);
        ("customer_churn_rate", VNum 170); ("mrr_churn_rate", VNum 177);
        ("net_mrr_churn_rate", VNum 184); ("fx_adjustment", VNum 191);
        ("customers_diff", VNum 198); ("new_customers", VNum 205);
        ("expansion_customers", VNum 212);
        ("contraction_customers", VNum 219); ("churn_customers", VNum 226);
        ("reactivation_customers", VNum 233); ("segment_entry", VNum 240);
        ("segment_entry_customers", VNum 247); ("segment_exit", VNum 254);
        ("segment_exit_customers", VNum 261); ("update", VNull);
        ("update_customers", VNum 3); ("customer_change_pct", VNum 268);
        ("mrr_change_pct", VNum 275); ("customer_churn_avg", VNum 282);
        ("net_mrr_diff", VNum 289)].

(** An item without [churn]. *)
Definition short_item : value :=
  VObj [("plan", VStr "pro"); ("date", VStr "2025-10-01");
        ("end_date", VStr "2025-10-31"); ("new", VNum 107);
        ("expansion", VNum 114); ("contraction", VNum 121);
        ("reactivation", VNum 128); ("mrr_diff", VNum 135);
        ("total_mrr", VNum 142); ("total_arr", VNum 149);
        ("total_customers", VNum 156); ("arpa", VNum 4200);
        ("customer_churn_rate", VNum 163); ("mrr_churn_rate", VNum 170);
        ("net_mrr_churn_rate", VNum 177); ("fx_adjustment", VNum 184);
        ("customers_diff", VNum 191); ("new_customers", VNum 198);
        ("expansion_customers", VNum 205);
        ("contraction_customers", VNum 212); ("churn_customers", VNum 219);
        ("reactivation_customers", VNum 226); ("segment_entry", VNum 233);
        ("segment_entry_customers", VNum 240); ("segment_exit", VNum 247);
        ("segment_exit_customers", VNum 254); ("update", VNull);
        ("update_customers", VNum 3); ("customer_change_pct", VNum 261);
        ("mrr_change_pct", VNum 268); ("customer_churn_avg", VNum 275);
        ("net_mrr_diff", VNum 282)].

Definition sample_payload : value := VObj [("result", VArr [sample_item])].
Definition short_payload : value := VObj [("result", VArr [sample_item; short_item])].

(** A stand-in for [JSON.parse] that also knows the upstream bodies of the
    examples, a call without [params] and calls whose name is a number or an
    object. *)
Definition sample_parse2 (s : string) : outcome value :=
  if String.eqb s "mrr payload" then Return sample_payload
  else if String.eqb s "short payload" then Return short_payload
  else if String.eqb s "call without params" then
    Return (VObj [("jsonrpc", VStr "2.0"); ("id", VNum 5); ("method", VStr "tools/call")])
  else if String.eqb s "call getMRR" then
    Return (call_message (VNum 6) (VStr "getMRR") (VObj []))
  else if String.eqb s "call 42" then
    Return (call_message (VNum 7) (VNum 42) (VObj []))
  else if String.eqb s "call 1e21" then
    Return (call_message (VNum 8) (VNum (10 ^ 21)) (VObj []))
  else if String.eqb s "call object" then
    Return (call_message (VNum 9) (VObj [("toString", VNum 1)]) (VObj []))
  else sample_parse s.

Definition sample_section (item : value) : string :=
  "## " ++ (match get item "date" with VStr s => s | _ => "" end) ++ nl.

Definition mrr_host : env :=
  host_answering (Some "sk_live_x") (Responded (mkResponse 200 "OK" "mrr payload")).

Definition short_host : env :=
  host_answering (Some "sk_live_x") (Responded (mkResponse 200 "OK" "short payload")).

Definition offline : env :=
  host_answering (Some "sk_live_x") (NetworkFailure (TypeError "fetch failed")).


(** A host whose [GROWPANEL_API_URL] lacks the scheme. *)
Definition misconfigured : env :=
  mkEnv (Some "api.growpanel.io") (Some "sk_live_x") 1762041600000 1762041600000
        (fun _ _ => 0) sample_canParse
        (fun _ => Responded (mkResponse 200 "OK" "{}")).

(** A host one hour east of UTC whose two readings of the clock fall on
    either side of local midnight, in the middle of January 2026. *)
Definition around_local_midnight : env :=
  mkEnv None (Some "sk_live_x") 1768517999999 1768518000000 (fun _ _ => 3600000)
        sample_canParse (fun _ => Responded (mkResponse 200 "OK" "{}")).

(** A UTC host whose two readings of the clock fall on either side of
    midnight at the end of January 2026. *)
Definition around_midnight : env :=
  mkEnv None (Some "sk_live_x") 1769903999999 1769904000000 (fun _ _ => 0)
        sample_canParse (fun _ => Responded (mkResponse 200 "OK" "{}")).

(** The request getLeads sends for a currency, on the healthy host. *)
Definition usd_request : http_request :=
  api_request healthy "leads"
    [("interval", VStr "month"); ("currency", VStr "usd"); ("date", VStr "20241102-20251102")].

(** The request getCohorts sends for a supplied date. *)
Definition dated_request : http_request :=
  api_request healthy "cohort"
    [("date", VStr "20240101-20240201"); ("interval", VStr "month")].

(** ** Properties *)

(** *** The computation monad *)

Lemma bind_Return {A B} (m : M A) (k : A -> M B) log a log' :
  m log = (Return a, log') -> bind m k log = k a log'.
Proof. intros H. unfold bind. now rewrite H. Qed.

Lemma bind_Throw {A B} (m : M A) (k : A -> M B) log e log' :
  m log = (Throw e, log') -> bind m k log = (Throw e, log').
Proof. intros H. unfold bind. now rewrite H. Qed.

Lemma try_rethrow {A} (m : M A) log :
  try_catch m (fun error => throw error) log = m log.
Proof. unfold try_catch, throw. destruct (m log) as [[a | e] log']; reflexivity. Qed.

Lemma contains_intro (pre sub post : string) : contains (pre ++ sub ++ post) sub.
Proof. exists pre, post. reflexivity. Qed.

Lemma append_assoc (a b c : string) : (a ++ b) ++ c = a ++ b ++ c.
Proof. induction a as [| ch a IH]; simpl; [reflexivity | now rewrite IH]. Qed.

Lemma append_nil_r (a : string) : a ++ "" = a.
Proof. induction a as [| ch a IH]; simpl; [reflexivity | now rewrite IH]. Qed.

(** *** Object.keys and the query *)

Lemma in_insert_key x k l : In x (insert_key k l) <-> x = k \/ In x l.
Proof.
  induction l as [| k1 rest IH]; simpl.
  - split; [intros [H | []]; auto | intros [H | []]; auto].
  - destruct (index_value k <=? index_value k1); simpl.
    + split; [intros [H | H]; auto | intros [H | H]; auto].
    + rewrite IH. split.
      * intros [H | [H | H]]; auto.
      * intros [H | [H | H]]; auto.
Qed.

Lemma in_sort_keys x l : In x (sort_keys l) <-> In x l.
Proof.
  induction l as [| k rest IH]; simpl; [tauto |].
  rewrite in_insert_key, IH. split; intros [H | H]; auto.
Qed.

Lemma nodup_insert_key k l : ~ In k l -> NoDup l -> NoDup (insert_key k l).
Proof.
  induction l as [| k1 rest IH]; simpl; intros Hk Hnd.
  - constructor; [tauto | constructor].
  - destruct (index_value k <=? index_value k1).
    + constructor; [simpl; tauto | exact Hnd].
    + inversion Hnd as [| ? ? Hk1 Hrest]; subst. constructor.
      * rewrite in_insert_key. intros [H | H]; [apply Hk; left; now symmetry | auto].
      * apply IH; tauto.
Qed.

Lemma nodup_sort_keys l : NoDup l -> NoDup (sort_keys l).
Proof.
  induction 1 as [| k rest Hk Hnd IH]; simpl; [constructor |].
  apply nodup_insert_key; [now rewrite in_sort_keys | exact IH].
Qed.

Lemma in_Object_keys k fields : In k (Object_keys fields) <-> In k (map fst fields).
Proof.
  unfold Object_keys. rewrite in_app_iff, in_sort_keys, !filter_In.
  destruct (is_index k); simpl; split.
  - intros [[H _] | [_ H]]; [exact H | discriminate H].
  - intros H. left. auto.
  - intros [[_ H] | [H _]]; [discriminate H | exact H].
  - intros H. right. auto.
Qed.

Lemma nodup_Object_keys fields : NoDup (map fst fields) -> NoDup (Object_keys fields).
Proof.
  intros H. unfold Object_keys. apply NoDup_app.
  - apply nodup_sort_keys, NoDup_filter, H.
  - apply NoDup_filter, H.
  - intros x Hx Hy. apply in_sort_keys, filter_In in Hx. apply filter_In in Hy.
    destruct Hx as [_ Hx]. destruct Hy as [_ Hy]. rewrite Hx in Hy. discriminate Hy.
Qed.

(** Without array indices among the keys, the order is the insertion order. *)
Lemma Object_keys_plain fields :
  forallb (fun k => negb (is_index k)) (map fst fields) = true ->
  Object_keys fields = map fst fields.
Proof.
  unfold Object_keys. generalize (map fst fields). intros l H.
  assert (G : filter is_index l = [] /\ filter (fun k => negb (is_index k)) l = l).
  { induction l as [| k rest IH]; simpl in *; [auto |].
    apply andb_true_iff in H. destruct H as [Hk Hr].
    destruct (IH Hr) as [H1 H2]. rewrite Hk.
    apply negb_true_iff in Hk. rewrite Hk, H1, H2. auto. }
  destruct G as [-> ->]. reflexivity.
Qed.

Lemma not_nullish v : negb (is_undefined v) && negb (is_null v) = negb (is_nullish v).
Proof. destruct v; reflexivity. Qed.

Lemma in_append_each keys params query key s :
  append_each keys params = Return query ->
  In (key, s) query <->
  In key keys
  /\ is_undefined (lookup key params) = false
  /\ is_null (lookup key params) = false
  /\ to_js_string (lookup key params) = Return s.
Proof.
  revert query. induction keys as [| k rest IH]; simpl; intros query H.
  - injection H as <-. simpl. tauto.
  - destruct (negb (is_undefined (lookup k params)) && negb (is_null (lookup k params))) eqn:E.
    + destruct (to_js_string (lookup k params)) as [s0 | err0] eqn:Es; [| discriminate H].
      destruct (append_each rest params) as [q | err1]; [| discriminate H].
      injection H as <-. simpl. rewrite (IH q eq_refl).
      apply andb_true_iff in E. destruct E as [Eu En].
      apply negb_true_iff in Eu. apply negb_true_iff in En.
      split.
      * intros [Heq | (Hin & H1 & H2 & H3)]; [| auto].
        inversion Heq; subst. auto.
      * intros ([Heq | Hin] & H1 & H2 & H3); [| right; auto].
        subst k. rewrite Es in H3. injection H3 as ->. now left.
    + rewrite (IH query H). split.
      * intros (Hin & H1 & H2 & H3). auto.
      * intros ([Heq | Hin] & H1 & H2 & H3); [| auto].
        subst k. rewrite H1, H2 in E. discriminate E.
Qed.

Lemma append_each_keys keys params query :
  append_each keys params = Return query ->
  map fst query = filter (fun key => negb (is_nullish (lookup key params))) keys.
Proof.
  revert query. induction keys as [| k rest IH]; simpl; intros query H.
  - injection H as <-. reflexivity.
  - rewrite not_nullish in H.
    destruct (negb (is_nullish (lookup k params))).
    + destruct (to_js_string (lookup k params)) as [s0 | err0]; [| discriminate H].
      destruct (append_each rest params) as [q | err1]; [| discriminate H].
      injection H as <-. simpl. now rewrite (IH q eq_refl).
    + now apply IH.
Qed.

Lemma append_each_returns keys params :
  (forall key, In key keys -> is_nullish (lookup key params) = false ->
               exists s, to_js_string (lookup key params) = Return s) ->
  exists query, append_each keys params = Return query.
Proof.
  induction keys as [| k rest IH]; simpl; intros H; [eauto |].
  destruct IH as (q & Hq); [intros key Hin; apply H; now right |].
  rewrite not_nullish, Hq.
  destruct (is_nullish (lookup k params)) eqn:En; simpl; [eauto |].
  destruct (H k (or_introl eq_refl) En) as (s & ->). eauto.
Qed.

Lemma append_each_defined keys params query :
  append_each keys params = Return query ->
  forall key, In key keys -> is_nullish (lookup key params) = false ->
              exists s, to_js_string (lookup key params) = Return s.
Proof.
  revert query. induction keys as [| k rest IH]; simpl; intros query H key Hin Hn;
    [destruct Hin |].
  rewrite not_nullish in H.
  destruct (is_nullish (lookup k params)) eqn:En; simpl in H.
  - destruct Hin as [<- | Hin]; [congruence | now apply (IH query H)].
  - destruct (to_js_string (lookup k params)) as [s0 | err0] eqn:Es; [| discriminate H].
    destruct (append_each rest params) as [q | err1]; [| discriminate H].
    destruct Hin as [<- | Hin]; [eauto | now apply (IH q eq_refl)].
Qed.

Lemma append_each_throws keys params err :
  append_each keys params = Throw err ->
  exists key, In key keys /\ is_nullish (lookup key params) = false
              /\ to_js_string (lookup key params) = Throw err.
Proof.
  induction keys as [| k rest IH]; simpl; intros H; [discriminate H |].
  rewrite not_nullish in H.
  destruct (is_nullish (lookup k params)) eqn:En; simpl in H.
  - destruct (IH H) as (key & Hin & Hk). exists key. auto.
  - destruct (to_js_string (lookup k params)) as [s0 | err0] eqn:Es.
    + destruct (append_each rest params) as [q | err1]; [discriminate H |].
      destruct (IH H) as (key & Hin & Hk). exists key. auto.
    + injection H as <-. exists k. auto.
Qed.

Lemma value_ind_items (P : value -> Prop) :
  P VUndefined -> P VNull -> (forall b, P (VBool b)) -> (forall n, P (VNum n)) ->
  (forall s, P (VStr s)) ->
  (forall items, Forall P items -> P (VArr items)) ->
  (forall fields, P (VObj fields)) ->
  forall v, P v.
Proof.
  intros H1 H2 H3 H4 H5 H6 H7.
  exact (fix go (v : value) : P v :=
           match v with
           | VUndefined => H1
           | VNull => H2
           | VBool b => H3 b
           | VNum n => H4 n
           | VStr s => H5 s
           | VArr items =>
               H6 items
                  ((fix all (l : list value) : Forall P l :=
                      match l with
                      | [] => Forall_nil P
                      | i :: rest => Forall_cons i (go i) (all rest)
                      end) items)
           | VObj fields => H7 fields
           end).
Qed.

(** What a conversion to string throws is a [TypeError]. *)
Lemma to_js_string_throws v err :
  to_js_string v = Throw err -> exists m, err = TypeError m.
Proof.
  revert err. induction v as [ | | b | n | s | items IH | fields ] using value_ind_items;
    intros err H; cbn [to_js_string] in H; try discriminate H.
  - destruct b; discriminate H.
  - destruct (element_strings to_js_string items) as [parts | err0] eqn:E;
      [discriminate H |].
    injection H as ->. revert E.
    induction IH as [| i rest Hi Hrest IHrest]; simpl; intros E; [discriminate E |].
    destruct (is_nullish i).
    + destruct (element_strings to_js_string rest) as [ss | err1];
        [discriminate E |].
      injection E as ->. now apply IHrest.
    + destruct (to_js_string i) as [s0 | err1] eqn:Ei.
      * destruct (element_strings to_js_string rest) as [ss | err2];
          [discriminate E |].
        injection E as ->. now apply IHrest.
      * injection E as ->. now apply Hi.
  - destruct (has_key "toString" fields); [| discriminate H].
    injection H as <-. eauto.
Qed.

Lemma query_of_stringifiable params :
  stringifiable params -> search_params params = Return (query_of params).
Proof.
  intros H. unfold query_of.
  destruct (append_each_returns (Object_keys params) params) as (q & Hq).
  - intros key Hin. apply H. now apply in_Object_keys.
  - unfold search_params. now rewrite Hq.
Qed.

Lemma search_params_stringifiable params query :
  search_params params = Return query -> stringifiable params.
Proof.
  intros H key Hin. apply (append_each_defined _ _ _ H). now apply in_Object_keys.
Qed.

Section ServerProperties.
Variable JSON_parse : string -> outcome value.
Variable JSON_stringify : value -> value.
Variable zod_message : list issue -> string.
Variable mrr_report : value -> outcome value.

Local Abbreviation callApi_def := callApi.
Local Abbreviation wrapTool_def := wrapTool.
Local Abbreviation CallTool_handler_def := CallTool_handler.
Local Abbreviation post_tools_call_def := post_tools_call.
Local Abbreviation handle_message_def := handle_message.
Local Abbreviation post_events_def := post_events.
Local Abbreviation httpServer_def := httpServer.
Local Abbreviation callApi := (callApi JSON_parse).
Local Abbreviation wrapTool := (wrapTool JSON_stringify).
Local Abbreviation tool_run := (tool_run JSON_parse JSON_stringify mrr_report).
Local Abbreviation CallTool_handler := (CallTool_handler JSON_parse JSON_stringify mrr_report).
Local Abbreviation post_tools_call :=
  (post_tools_call JSON_parse JSON_stringify zod_message mrr_report).
Local Abbreviation handle_message :=
  (handle_message JSON_parse JSON_stringify zod_message mrr_report).
Local Abbreviation post_events :=
  (post_events JSON_parse JSON_stringify zod_message mrr_report).
Local Abbreviation httpServer :=
  (httpServer JSON_parse JSON_stringify zod_message mrr_report).
Local Abbreviation error_message := (error_message zod_message).
Local Abbreviation block_for := (block_for JSON_stringify).

(** *** wrapTool *)

Lemma wrapTool_returns toolFn params result log log' :
  toolFn params log = (Return result, log') ->
  wrapTool toolFn params log = (Return (wrap_result JSON_stringify result), log').
Proof.
  intros H. unfold wrapTool_def. rewrite try_rethrow.
  now rewrite (bind_Return _ _ _ _ _ H).
Qed.

Lemma wrapTool_throws toolFn params err log log' :
  toolFn params log = (Throw err, log') ->
  wrapTool toolFn params log = (Throw err, log').
Proof.
  intros H. unfold wrapTool_def. rewrite try_rethrow.
  now rewrite (bind_Throw _ _ _ _ _ H).
Qed.

Lemma text_block_block_for item :
  text_block (text_of JSON_stringify item) = block_for item.
Proof. destruct item; reflexivity. Qed.

(** C10. Whatever a run function returns, [wrapTool] hands it on unchanged
    when it is truthy and has a truthy [content] property, whatever that
    property holds; otherwise an array becomes an envelope with one text
    block per element and any other value an envelope with one text block,
    strings verbatim and other values JSON-serialized.  In particular an
    object whose [content] is truthy passes through as it is. *)
Theorem wrapTool_envelope toolFn params result log log' :
  toolFn params log = (Return result, log') ->
  (truthy result = true -> truthy (get result "content") = true ->
   wrapTool toolFn params log = (Return result, log'))
  /\ (forall items,
        result = VArr items ->
        wrapTool toolFn params log
        = (Return (VObj [("content", VArr (map block_for items))]), log'))
  /\ (truthy result && truthy (get result "content") = false ->
      Array_isArray result = false ->
      wrapTool toolFn params log
      = (Return (VObj [("content", VArr [block_for result])]), log'))
  /\ (forall fields,
        result = VObj fields ->
        truthy (lookup "content" fields) = true ->
        wrapTool toolFn params log = (Return (VObj fields), log')).
Proof.
  intros H. rewrite (wrapTool_returns _ _ _ _ _ H). unfold wrap_result.
  repeat split.
  - intros Ht Hc. now rewrite Ht, Hc.
  - intros items ->. simpl. do 6 f_equal.
    apply map_ext. intros item. apply text_block_block_for.
  - intros Hf Ha. rewrite Hf.
    destruct result; try discriminate Ha; now rewrite text_block_block_for.
  - intros fields -> Hc. simpl. now rewrite Hc.
Qed.
(** *** callApi *)

(** C6. Without [GROWPANEL_API_TOKEN], [callApi] throws its configuration
    error for every endpoint and every filter set and leaves the log of
    upstream requests as it found it: nothing was sent. *)
Theorem callApi_requires_token e endpoint params log :
  GROWPANEL_API_TOKEN e = None ->
  callApi e endpoint params log
  = (Throw (Error "GROWPANEL_API_KEY environment variable is required"), log).
Proof.
  intros H. unfold callApi_def. rewrite H. reflexivity.
Qed.

Lemma callApi_outcome e endpoint params log :
  token_present e ->
  url_parses e endpoint ->
  stringifiable params ->
  callApi e endpoint params log
  = (match upstream e (api_request e endpoint params) with
     | NetworkFailure err => Throw err
     | Responded resp =>
         if negb (ok resp) then
           Throw (Error ("API call failed: " ++ Z_to_string (status resp) ++ " "
                         ++ statusText resp ++ " - " ++ body resp))
         else JSON_parse (body resp)
     end, (log ++ [api_request e endpoint params])%list).
Proof.
  intros Ht Hu Hs. unfold callApi_def, api_request.
  unfold token_present in Ht. unfold url_parses in Hu. rewrite Ht, Hu. cbn [negb].
  unfold bind at 1. unfold lift at 1.
  rewrite (query_of_stringifiable params Hs).
  rewrite try_rethrow. unfold bind, fetch.
  destruct (upstream e _) as [err | resp]; [reflexivity |].
  destruct (negb (ok resp)); [reflexivity |].
  unfold lift, ret. destruct (JSON_parse (body resp)); reflexivity.
Qed.

(** What is wrong with the base URL or with a filter value is found before
    [fetch] is reached. *)
Lemma callApi_throws_before_fetch e endpoint params log :
  token_present e ->
  (URL_canParse e ("/reports/" ++ endpoint)
     (env_or (GROWPANEL_API_URL e) "https://api.growpanel.io") = false ->
   callApi e endpoint params log = (Throw (TypeError "Invalid URL"), log))
  /\ (forall err,
        url_parses e endpoint ->
        search_params params = Throw err ->
        callApi e endpoint params log = (Throw err, log)).
Proof.
  intros Ht. unfold token_present in Ht. split.
  - intros Hu. unfold callApi_def. now rewrite Ht, Hu.
  - intros err Hu Hs. unfold url_parses in Hu. unfold callApi_def.
    rewrite Ht, Hu. cbn [negb]. unfold bind, lift. now rewrite Hs.
Qed.

Lemma callApi_log e endpoint params log :
  snd (callApi e endpoint params log)
  = if env_truthy (GROWPANEL_API_TOKEN e)
       && URL_canParse e ("/reports/" ++ endpoint)
            (env_or (GROWPANEL_API_URL e) "https://api.growpanel.io")
    then match search_params params with
         | Return _ => (log ++ [api_request e endpoint params])%list
         | Throw _ => log
         end
    else log.
Proof.
  destruct (env_truthy (GROWPANEL_API_TOKEN e)) eqn:Et;
    [| unfold callApi_def; rewrite Et; reflexivity].
  destruct (URL_canParse e _ _) eqn:Eu; cbn [andb].
  - destruct (search_params params) as [query | err] eqn:Es.
    + rewrite callApi_outcome; [reflexivity | exact Et | exact Eu |].
      apply search_params_stringifiable with query. exact Es.
    + now rewrite (proj2 (callApi_throws_before_fetch e endpoint params log Et) err Eu Es).
  - now rewrite (proj1 (callApi_throws_before_fetch e endpoint params log Et) Eu).
Qed.


(** *** The reply of [POST /events] *)

Lemma post_tools_call_registered t e id args log :
  post_tools_call e (call_message id (VStr (tool_name t)) args) log
  = match wrapTool (tool_run t e) args log with
    | (Return result, log') => (Return (mkRpc "2.0" id (Result result)), log')
    | (Throw err, log') =>
        (Return (mkRpc "2.0" id
                   (Failure (mkRpcError (-32603) "Internal error"
                               (Some (error_message err))))), log')
    end.
Proof.
  unfold post_tools_call_def, try_catch, bind, ret.
  destruct t; simpl;
    match goal with
    | |- context [wrapTool_def ?s ?f ?a ?l] =>
        destruct (wrapTool_def s f a l) as [[r | er] lg]; reflexivity
    end.
Qed.

Lemma handle_call_message e id name args log :
  handle_message e (call_message id name args) log
  = post_tools_call e (call_message id name args) log.
Proof. reflexivity. Qed.

Lemma post_events_parsed e text message log :
  JSON_parse text = Return message ->
  post_events e text log
  = match handle_message e message log with
    | (Return r, log') =>
        (Return (mkReply 200 [("Content-Type", "application/json")] r), log')
    | (Throw err, log') =>
        (Return (mkReply 400 [("Content-Type", "application/json")]
                   (mkRpc "2.0" VNull
                      (Failure (mkRpcError (-32700) "Parse error"
                                  (Some (error_message err)))))), log')
    end.
Proof.
  intros H. unfold post_events_def, try_catch, bind, lift, ret. rewrite H.
  destruct (handle_message e message log) as [[r | err] log']; reflexivity.
Qed.

(** *** Unparseable bodies *)

(** C8. A body that [JSON.parse] rejects gets status 400 and a JSON-RPC
    error with code -32700, message "Parse error" and [id] null; nothing is
    sent upstream. *)
Theorem post_unparseable_body e text err log :
  JSON_parse text = Throw err ->
  httpServer e "POST" "/events" text log
  = (Return (Json (mkReply 400 [("Content-Type", "application/json")]
                     (mkRpc "2.0" VNull
                        (Failure (mkRpcError (-32700) "Parse error"
                                    (Some (error_message err))))))), log).
Proof.
  intros H. unfold httpServer_def. simpl.
  unfold bind, post_events_def, try_catch, lift. rewrite H. reflexivity.
Qed.

(** *** The catalog *)

(** C9. The answer to [tools/list] is one constant on each transport: on
    [POST /events] the result is [{tools}] with the same [tools] whatever the
    environment, the requests sent so far and the rest of the message; the
    streaming handler takes no input at all.  Neither touches the upstream. *)
Theorem tools_list_constant e1 e2 message1 message2 log1 log2 :
  is_nullish message1 = false -> get message1 "method" = VStr "tools/list" ->
  is_nullish message2 = false -> get message2 "method" = VStr "tools/list" ->
  handle_message e1 message1 log1
  = (Return (mkRpc "2.0" (get message1 "id") (Result (VObj [("tools", post_tools)]))), log1)
  /\ handle_message e2 message2 log2
     = (Return (mkRpc "2.0" (get message2 "id") (Result (VObj [("tools", post_tools)]))), log2)
  /\ ListTools_handler log1 = (Return stream_tools, log1)
  /\ ListTools_handler log2 = (Return stream_tools, log2).
Proof.
  intros N1 M1 N2 M2. unfold handle_message_def.
  rewrite N1, M1, N2, M2. simpl. repeat split.
Qed.

(** *** Unknown tools *)

Lemma CallTool_unknown e name args log :
  registered name = false ->
  CallTool_handler e name args log = (Throw (Error ("Unknown tool: " ++ name)), log).
Proof.
  unfold registered, CallTool_handler_def. intros H.
  apply orb_false_iff in H. destruct H as [H H3].
  apply orb_false_iff in H. destruct H as [H1 H2].
  now rewrite H1, H2, H3.
Qed.

(** On [POST /events] an unknown name that has a string form is answered
    with -32601, and the log of upstream requests stays as it was: no run
    function was entered. *)
Lemma post_unknown_tool e id name text args log :
  is_str name (tool_name GetMRR) = false ->
  is_str name (tool_name GetLeads) = false ->
  is_str name (tool_name GetCohorts) = false ->
  to_js_string name = Return text ->
  post_tools_call e (call_message id name args) log
  = (Return (mkRpc "2.0" id
               (Failure (mkRpcError (-32601) ("Unknown tool: " ++ text) None))),
     log).
Proof.
  intros H1 H2 H3 H4. unfold post_tools_call_def, try_catch, bind, lift.
  cbn [call_message get lookup String.eqb Ascii.eqb Bool.eqb is_nullish].
  now rewrite H4, H1, H2, H3.
Qed.

(** C2, on the streaming transport. For the unregistered name getForecast the
    [tools/call] handler enters no run function and throws a plain [Error]
    with no code of its own, the same kind of value a failed tool throws; the
    SDK turns it into a JSON-RPC error with code -32603, not -32601. *)
Theorem stream_unknown_tool_internal_error e args log :
  CallTool_handler e "getForecast" args log
  = (Throw (Error "Unknown tool: getForecast"), log)
  /\ error_code (Error "Unknown tool: getForecast") = None
  /\ sdk_reply zod_message (fst (CallTool_handler e "getForecast" args log))
     = Failure (mkRpcError (-32603) "Unknown tool: getForecast" None).
Proof.
  rewrite CallTool_unknown by reflexivity. repeat split.
Qed.

(** *** Invalid arguments *)

Lemma zod_parse_fields_issue sh input k t i rest :
  In (k, t) sh ->
  zod_parse_field t k (lookup k input) = inr (i :: rest) ->
  snd (zod_parse_fields sh input) <> [].
Proof.
  induction sh as [| [k' t'] sh IH]; intros Hin Hf; [destruct Hin |].
  simpl. destruct (zod_parse_fields sh input) as [out issues] eqn:E.
  destruct Hin as [Heq | Hin].
  - inversion Heq; subst. rewrite Hf. simpl. discriminate.
  - specialize (IH Hin Hf). simpl in IH.
    destruct (zod_parse_field t' k' (lookup k' input)) as [v | i'].
    + destruct (negb (is_undefined v) || has_key k' input); exact IH.
    + simpl. intros Habs. apply app_eq_nil in Habs. destruct Habs as [_ Habs]. auto.
Qed.

Lemma zod_parse_issue sh input k t i rest :
  In (k, t) sh ->
  zod_parse_field t k (lookup k input) = inr (i :: rest) ->
  exists issues, zod_parse sh (VObj input) = Throw (ZodError issues).
Proof.
  intros Hin Hf. pose proof (zod_parse_fields_issue sh input k t i rest Hin Hf) as H.
  unfold zod_parse. destruct (zod_parse_fields sh input) as [out [| i0 issues]].
  - now elim H.
  - eauto.
Qed.

Lemma schema_violation_throws t args :
  schema_violation t args ->
  exists issues, zod_parse (tool_input t) args = Throw (ZodError issues).
Proof.
  intros (fields & -> & [(s & Hl & Hbad) | [(s & Hl & Hbad) | [(s & Hl & Hbad)
                        | [(s & Hl & Hbad) | (Ht & s & Hl & Hbad)]]]]).
  - assert (exists d, In ("date", date_field d) (tool_input t)) as (d & Hin)
      by (destruct t; eexists; simpl; left; reflexivity).
    eapply zod_parse_issue; [exact Hin |].
    rewrite Hl. unfold date_field.
    cbn [zod_parse_field flat_map]. unfold check_issue, check_ok.
    rewrite Hbad. reflexivity.
  - assert (exists d, In ("currency", currency_field d) (tool_input t)) as (d & Hin)
      by (destruct t; eexists; simpl; do 3 right; left; reflexivity).
    eapply zod_parse_issue; [exact Hin |].
    rewrite Hl. unfold currency_field.
    cbn [zod_parse_field flat_map]. unfold check_issue, check_ok.
    apply Nat.eqb_neq in Hbad. rewrite Hbad. reflexivity.
  - assert (In ("region", region_field) (tool_input t)) as Hin
      by (destruct t; simpl; do 2 right; left; reflexivity).
    eapply zod_parse_issue; [exact Hin |].
    rewrite Hl. cbn [zod_parse_field region_field interval_field billing_freq_field].
    rewrite Hbad. reflexivity.
  - assert (In ("interval", interval_field) (tool_input t)) as Hin
      by (destruct t; simpl; right; left; reflexivity).
    eapply zod_parse_issue; [exact Hin |].
    rewrite Hl. cbn [zod_parse_field region_field interval_field billing_freq_field].
    rewrite Hbad. reflexivity.
  - assert (exists d, In ("billing_freq", billing_freq_field d) (tool_input t)) as (d & Hin)
      by (destruct t; [| now elim Ht |]; eexists; simpl; do 4 right; left; reflexivity).
    eapply zod_parse_issue; [exact Hin |].
    rewrite Hl. cbn [zod_parse_field region_field interval_field billing_freq_field].
    rewrite Hbad. reflexivity.
Qed.

Lemma tool_run_parse_throws t e args err log :
  zod_parse (tool_input t) args = Throw err ->
  tool_run t e args log = (Throw err, log).
Proof.
  intros H. destruct t; simpl in *;
    unfold getMRR_run, getLeads_run, getCohorts_run, bind, lift; now rewrite H.
Qed.

Lemma CallTool_registered t e args log :
  CallTool_handler e (tool_name t) args log = wrapTool (tool_run t e) args log.
Proof. destruct t; reflexivity. Qed.

(** C3. Arguments that break the tool's input contract in one of the listed
    ways make [run] throw the validation error with the log of upstream
    requests untouched, so nothing was sent; the streaming handler throws the
    same error instead of returning a result, which the SDK reports as a
    JSON-RPC error, and [POST /events] answers with the JSON-RPC error -32603
    carrying the validation message. *)
Theorem invalid_arguments_rejected t e id args text log :
  schema_violation t args ->
  JSON_parse text = Return (call_message id (VStr (tool_name t)) args) ->
  exists issues,
    tool_run t e args log = (Throw (ZodError issues), log)
    /\ CallTool_handler e (tool_name t) args log = (Throw (ZodError issues), log)
    /\ sdk_reply zod_message (fst (CallTool_handler e (tool_name t) args log))
       = Failure (mkRpcError (-32603) (zod_message issues) None)
    /\ post_events e text log
       = (Return (mkReply 200 [("Content-Type", "application/json")]
                    (mkRpc "2.0" id
                       (Failure (mkRpcError (-32603) "Internal error"
                                   (Some (zod_message issues)))))), log).
Proof.
  intros Hv Hj. destruct (schema_violation_throws t args Hv) as (issues & Hp).
  exists issues. pose proof (tool_run_parse_throws t e args _ log Hp) as Hrun.
  assert (Hs : CallTool_handler e (tool_name t) args log = (Throw (ZodError issues), log))
    by (rewrite CallTool_registered; now apply wrapTool_throws).
  split; [exact Hrun |]. split; [exact Hs |]. split.
  - rewrite Hs. reflexivity.
  - rewrite (post_events_parsed _ _ _ _ Hj), handle_call_message.
    rewrite post_tools_call_registered, (wrapTool_throws _ _ _ _ _ Hrun).
    reflexivity.
Qed.
End ServerProperties.

(** *** The two catalogs *)

Lemma catalogs_agree_on_names_and_common_enums t :
  map fd_name (stream_declared t) = map fd_name (post_declared t)
  /\ map fd_optional (stream_declared t) = map fd_optional (post_declared t)
  /\ decl_of "interval" (stream_declared t) = decl_of "interval" (post_declared t)
  /\ decl_of "region" (stream_declared t) = decl_of "region" (post_declared t)
  /\ decl_of "payment_method" (stream_declared t) = decl_of "payment_method" (post_declared t)
  /\ decl_of "age" (stream_declared t) = decl_of "age" (post_declared t).
Proof. destruct t; repeat split. Qed.

(** C1, evaluated. For each of the three tools the two catalogs declare the
    same field names but not the same shape: the zod shape of the streaming
    catalog constrains [date] by the pattern and [currency] to length 3,
    the literal of [POST /events] declares neither constraint; and where
    [billing_freq] exists its enumeration is listed in another order. *)
Theorem catalogs_declare_different_shapes t :
  stream_declared t <> post_declared t
  /\ option_map fd_constraints (decl_of "date" (stream_declared t))
     = Some [Pattern "^\d{8}-\d{8}$"]
  /\ option_map fd_constraints (decl_of "date" (post_declared t)) = Some []
  /\ option_map fd_constraints (decl_of "currency" (stream_declared t))
     = Some [ExactLength 3]
  /\ option_map fd_constraints (decl_of "currency" (post_declared t)) = Some []
  /\ match t with
     | GetLeads =>
         decl_of "billing_freq" (stream_declared t) = None
         /\ decl_of "billing_freq" (post_declared t) = None
     | _ =>
         option_map fd_enum (decl_of "billing_freq" (stream_declared t))
         = Some (Some ["month"; "quarter"; "year"; "week"])
         /\ option_map fd_enum (decl_of "billing_freq" (post_declared t))
            = Some (Some ["week"; "month"; "quarter"; "year"])
     end.
Proof.
  destruct t; (split; [discriminate |]); repeat split.
Qed.

(** *** Dates *)

Lemma below_forallb (P : Z -> bool) (N : Z) :
  forallb (fun n => P (Z.of_nat n)) (seq 0 (Z.to_nat N)) = true ->
  forall z, 0 <= z < N -> P z = true.
Proof.
  intros H z Hz. rewrite forallb_forall in H.
  specialize (H (Z.to_nat z)). rewrite Z2Nat.id in H by lia.
  apply H. apply in_seq. lia.
Qed.

Lemma pad4_digits y : 0 <= y <= 9999 -> digits_of_width 4 (pad 4 y) = true.
Proof.
  intros H. apply (below_forallb (fun y => digits_of_width 4 (pad 4 y)) 10000); [| lia].
  vm_compute. reflexivity.
Qed.

Lemma pad2_digits n : 0 <= n <= 99 -> digits_of_width 2 (pad 2 n) = true.
Proof.
  intros H. apply (below_forallb (fun y => digits_of_width 2 (pad 2 y)) 100); [| lia].
  vm_compute. reflexivity.
Qed.

Lemma digit_not_hyphen c : is_digit c = true -> Ascii.eqb c "-" = false.
Proof.
  destruct c as [[] [] [] [] [] [] [] []]; vm_compute; congruence.
Qed.

Lemma all_digits_app a b : all_digits (a ++ b) = all_digits a && all_digits b.
Proof. induction a as [| c a IH]; simpl; [reflexivity |]. now rewrite IH, andb_assoc. Qed.

Lemma string_length_app (a b : string) : String.length (a ++ b) = (String.length a + String.length b)%nat.
Proof. induction a as [| c a IH]; simpl; [reflexivity | now rewrite IH]. Qed.

Lemma digits_of_width_app n m a b :
  digits_of_width n a = true -> digits_of_width m b = true ->
  digits_of_width (n + m) (a ++ b) = true.
Proof.
  unfold digits_of_width. intros Ha Hb.
  apply andb_true_iff in Ha. destruct Ha as [Ha1 Ha2].
  apply andb_true_iff in Hb. destruct Hb as [Hb1 Hb2].
  apply Nat.eqb_eq in Ha1, Hb1.
  rewrite string_length_app, all_digits_app, Ha1, Hb1, Ha2, Hb2, Nat.eqb_refl. reflexivity.
Qed.

Lemma civil_fields z :
  let '(y, m, d) := civil_from_days z in
  1 <= m <= 12 /\ 1 <= d <= 31 /\ days_from_civil y m 1 = z - d + 1.
Proof.
  unfold civil_from_days, days_from_civil.
  set (z' := z + 719468).
  set (era := z' / 146097).
  set (doe := z' - era * 146097).
  assert (Hdoe : 0 <= doe < 146097) by (subst doe era; Z.div_mod_to_equations; lia).
  set (yoe := (doe - doe / 1460 + doe / 36524 - doe / 146096) / 365).
  set (doy := doe - (365 * yoe + yoe / 4 - yoe / 100)).
  assert (Hy : 0 <= yoe <= 399 /\ 0 <= doy <= 365)
    by (subst doy yoe; Z.div_mod_to_equations; lia).
  set (mp := (5 * doy + 2) / 153).
  assert (Hmp : 0 <= mp <= 11) by (subst mp; Z.div_mod_to_equations; lia).
  assert (Hera : (yoe + era * 400) / 400 = era) by (Z.div_mod_to_equations; lia).
  destruct (mp <? 10) eqn:E10; [apply Z.ltb_lt in E10 | apply Z.ltb_ge in E10].
  - replace (mp + 3 <=? 2) with false by (symmetry; apply Z.leb_gt; lia).
    replace (2 <? mp + 3) with true by (symmetry; apply Z.ltb_lt; lia).
    rewrite !Z.add_0_r, !Z.sub_0_r, Hera.
    replace (mp + 3 - 3) with mp by lia.
    split; [lia |]. split; [subst mp; Z.div_mod_to_equations; lia |].
    replace (yoe + era * 400 - era * 400) with yoe by lia.
    subst doy doe z'. lia.
  - replace (mp - 9 <=? 2) with true by (symmetry; apply Z.leb_le; lia).
    replace (2 <? mp - 9) with false by (symmetry; apply Z.ltb_ge; lia).
    replace (yoe + era * 400 + 1 - 1) with (yoe + era * 400) by lia.
    rewrite Hera.
    replace (mp - 9 + 9) with mp by lia.
    split; [lia |]. split; [subst mp; Z.div_mod_to_equations; lia |].
    replace (yoe + era * 400 - era * 400) with yoe by lia.
    subst doy doe z'. lia.
Qed.

Lemma yyyymmdd_digits day :
  0 <= year_of_day day <= 9999 ->
  digits_of_width 8 (yyyymmdd day) = true.
Proof.
  unfold yyyymmdd, year_of_day. pose proof (civil_fields day) as H.
  destruct (civil_from_days day) as [[y m] d]. simpl. intros Hy.
  apply (digits_of_width_app 4 4); [now apply pad4_digits |].
  apply (digits_of_width_app 2 2); apply pad2_digits; lia.
Qed.

Lemma match_repeat_digits n a rest :
  digits_of_width n a = true -> match_repeat Digit n (a ++ rest) = Some rest.
Proof.
  revert a. induction n as [| n IH]; intros a H; unfold digits_of_width in H;
    apply andb_true_iff in H; destruct H as [Hl Hd]; apply Nat.eqb_eq in Hl.
  - destruct a; [reflexivity | discriminate].
  - destruct a as [| c a]; [discriminate |]. simpl in *.
    apply andb_true_iff in Hd. destruct Hd as [Hc Hd]. rewrite Hc.
    apply IH. unfold digits_of_width. rewrite Hd. injection Hl as ->.
    now rewrite Nat.eqb_refl.
Qed.

Lemma match_repeat_lit c rest :
  match_repeat (Lit c) 1 (String c rest) = Some rest.
Proof. simpl. now rewrite Ascii.eqb_refl. Qed.

Lemma date_regex_accepts a b :
  digits_of_width 8 a = true -> digits_of_width 8 b = true ->
  regex_test date_regex (a ++ "-" ++ b) = true.
Proof.
  intros Ha Hb. unfold date_regex. cbn [regex_test].
  rewrite (match_repeat_digits 8 a _ Ha).
  change ("-" ++ b) with (String "-"%char b). rewrite match_repeat_lit.
  pose proof (match_repeat_digits 8 b "" Hb) as Hb'. rewrite append_nil_r in Hb'.
  rewrite Hb'. reflexivity.
Qed.

Lemma match_repeat_split a n s rest :
  match_repeat a n s = Some rest ->
  exists pre, s = pre ++ rest /\ String.length pre = n
              /\ (a = Digit -> all_digits pre = true).
Proof.
  revert s. induction n as [| n IH]; intros s H; simpl in H.
  - injection H as ->. exists "". repeat split.
  - destruct s as [| c s]; [discriminate |].
    destruct (atom_match a c) eqn:E; [| discriminate].
    destruct (IH _ H) as (pre & -> & Hl & Hd).
    exists (String c pre). simpl. repeat split; [now rewrite Hl |].
    intros ->. simpl in E. rewrite E. now apply Hd.
Qed.

Lemma date_regex_sound s :
  regex_test date_regex s = true ->
  exists a b, s = a ++ "-" ++ b /\ digits_of_width 8 a = true /\ digits_of_width 8 b = true.
Proof.
  unfold date_regex. cbn [regex_test]. intros H.
  destruct (match_repeat Digit 8 s) as [r1 |] eqn:E1; [| discriminate].
  destruct (match_repeat (Lit "-") 1 r1) as [r2 |] eqn:E2; [| discriminate].
  destruct (match_repeat Digit 8 r2) as [r3 |] eqn:E3; [| discriminate].
  apply String.eqb_eq in H. subst r3.
  apply match_repeat_split in E1. destruct E1 as (a & -> & La & Da).
  apply match_repeat_split in E3. destruct E3 as (b & -> & Lb & Db).
  simpl in E2. destruct r1 as [| c r1]; [discriminate |].
  destruct (Ascii.eqb c "-") eqn:Ec; [| discriminate]. injection E2 as E2. subst r1.
  apply Ascii.eqb_eq in Ec. subst c.
  exists a, b. rewrite append_nil_r. split; [reflexivity |].
  unfold digits_of_width. rewrite La, Lb, (Da eq_refl), (Db eq_refl).
  split; reflexivity.
Qed.

Lemma digits2_inv s :
  digits_of_width 2 s = true ->
  exists a b, s = String a (String b "") /\ is_digit a = true /\ is_digit b = true.
Proof.
  unfold digits_of_width. destruct s as [| a [| b [| c s]]]; try discriminate.
  simpl. rewrite andb_true_r. intros H. apply andb_true_iff in H. eauto.
Qed.

Lemma digits4_inv s :
  digits_of_width 4 s = true ->
  exists a b c d, s = String a (String b (String c (String d "")))
                  /\ is_digit a = true /\ is_digit b = true
                  /\ is_digit c = true /\ is_digit d = true.
Proof.
  unfold digits_of_width.
  destruct s as [| a [| b [| c [| d [| x s]]]]]; try discriminate.
  simpl. rewrite andb_true_r. intros H.
  apply andb_true_iff in H. destruct H as [Ha H].
  apply andb_true_iff in H. destruct H as [Hb H].
  apply andb_true_iff in H. destruct H as [Hc Hd].
  exists a, b, c, d. auto.
Qed.

Lemma Day_TimeWithinDay t : Day t * msPerDay + TimeWithinDay t = t.
Proof. unfold Day, TimeWithinDay, msPerDay. Z.div_mod_to_equations. lia. Qed.

Lemma Day_shift t k : Day (t + k * msPerDay) = Day t + k.
Proof. unfold Day, msPerDay. now rewrite Z.div_add. Qed.

Lemma MakeDay_same_month t date :
  MakeDay (YearFromTime t) (MonthFromTime t) date = Day t - DateFromTime t + date.
Proof.
  unfold MakeDay, YearFromTime, MonthFromTime, DateFromTime.
  pose proof (civil_fields (Day t)) as H.
  destruct (civil_from_days (Day t)) as [[y m] d]. simpl.
  destruct H as (Hm & Hd & Hc).
  replace ((m - 1) / 12) with 0 by (Z.div_mod_to_equations; lia).
  replace ((m - 1) mod 12 + 1) with m by (Z.div_mod_to_equations; lia).
  rewrite Z.add_0_r, Hc. lia.
Qed.

Lemma iso_format_yyyymmdd t :
  0 <= YearFromTime t <= 9999 -> iso_format t = yyyymmdd (Day t).
Proof.
  unfold iso_format, toISOString, yyyymmdd, YearFromTime, MonthFromTime, DateFromTime.
  pose proof (civil_fields (Day t)) as H.
  destruct (civil_from_days (Day t)) as [[y m] d]. simpl fst. simpl snd.
  destruct H as (Hm & Hd & _). intros Hy.
  replace ((0 <=? y) && (y <=? 9999)) with true
    by (symmetry; apply andb_true_iff; split; apply Z.leb_le; lia).
  replace (m - 1 + 1) with m by lia.
  destruct (digits4_inv _ (pad4_digits y Hy)) as (a & b & c & d0 & -> & Ha & Hb & Hc & Hd0).
  destruct (digits2_inv (pad 2 m)) as (m1 & m2 & -> & Hm1 & Hm2); [apply pad2_digits; lia |].
  destruct (digits2_inv (pad 2 d)) as (d1 & d2 & -> & Hd1 & Hd2); [apply pad2_digits; lia |].
  cbn [append slice0 substring remove_hyphens].
  rewrite Ascii.eqb_refl.
  rewrite (digit_not_hyphen a), (digit_not_hyphen b), (digit_not_hyphen c),
    (digit_not_hyphen d0), (digit_not_hyphen m1), (digit_not_hyphen m2),
    (digit_not_hyphen d1), (digit_not_hyphen d2) by assumption.
  reflexivity.
Qed.

Section FixedOffset.
Variable off : Z.
Local Abbreviation tz := (fun (_ : Z) (_ : bool) => off).

Lemma setDate_fixed d date :
  setDate tz d date = d + (date - getDate tz d) * msPerDay.
Proof.
  unfold setDate, getDate, LocalTime, UTC, MakeDate.
  rewrite MakeDay_same_month.
  pose proof (Day_TimeWithinDay (d + off)). lia.
Qed.

Lemma format_yyyymmdd_fixed t :
  1 <= YearFromTime (t + off) <= 9999 ->
  format_yyyyMMdd tz t = yyyymmdd (Day (t + off)).
Proof.
  unfold format_yyyyMMdd, getFullYear, getMonth, getDate, LocalTime, yyyymmdd,
    YearFromTime, MonthFromTime, DateFromTime.
  pose proof (civil_fields (Day (t + off))) as H.
  destruct (civil_from_days (Day (t + off))) as [[y m] d]. simpl fst. simpl snd.
  destruct H as (Hm & Hd & _). intros Hy.
  replace (0 <? y) with true by (symmetry; apply Z.ltb_lt; lia).
  replace (m - 1 + 1) with m by lia.
  unfold addLeadingZeros, pad.
  replace (y <? 0) with false by (symmetry; apply Z.ltb_ge; lia).
  replace (m <? 0) with false by (symmetry; apply Z.ltb_ge; lia).
  replace (d <? 0) with false by (symmetry; apply Z.ltb_ge; lia).
  rewrite !Z.abs_eq by lia. reflexivity.
Qed.
End FixedOffset.

Lemma YearFromTime_year t : YearFromTime t = year_of_day (Day t).
Proof. reflexivity. Qed.

Lemma Day_back_365 t : Day (t + -365 * msPerDay) = Day t - 365.
Proof. rewrite Day_shift. lia. Qed.

(** With a fixed offset [setDate] moves the second reading by whole days:
    365 back, and further by the days of the month between the readings. *)
Lemma getMRR_default_date_two_readings (e : env) (off : Z) :
  LocalTZA e = (fun _ _ => off) ->
  getMRR_default_date e
  = iso_format (now_again e
                + (DateFromTime (now e + off) - 365 - DateFromTime (now_again e + off))
                  * msPerDay)
    ++ "-" ++ iso_format (now e).
Proof.
  intros Htz. unfold getMRR_default_date. rewrite Htz, setDate_fixed. reflexivity.
Qed.

Lemma getMRR_default_date_fixed (e : env) (off : Z) :
  LocalTZA e = (fun _ _ => off) ->
  Day (now_again e + off) = Day (now e + off) ->
  getMRR_default_date e
  = iso_format (now_again e + -365 * msPerDay) ++ "-" ++ iso_format (now e).
Proof.
  intros Htz Hday. rewrite (getMRR_default_date_two_readings e off Htz).
  unfold DateFromTime. rewrite Hday. do 3 f_equal. lia.
Qed.

Lemma datefns_default_date_fixed (e : env) (off : Z) :
  LocalTZA e = (fun _ _ => off) ->
  datefns_default_date e
  = format_yyyyMMdd (fun _ _ => off) (now e + -365 * msPerDay)
    ++ "-" ++ format_yyyyMMdd (fun _ _ => off) (now e).
Proof.
  intros Htz. unfold datefns_default_date, subDays. rewrite Htz.
  change (365 =? 0) with false. cbv iota. rewrite setDate_fixed.
  do 3 f_equal. lia.
Qed.

(** In a zone with one fixed offset the three tools synthesize what the
    specification asks for: getMRR the UTC date of the call and the UTC date
    365 days before, provided its two readings of the clock fall on the same
    day, locally and in UTC; getLeads and getCohorts the local date of the
    call and the local date 365 days before; each as eight digits, for years
    of four digits. *)
Lemma default_date_fixed_offset (e : env) (off : Z) :
  LocalTZA e = (fun _ _ => off) ->
  (Day (now_again e + off) = Day (now e + off) ->
   Day (now_again e) = Day (now e) ->
   0 <= year_of_day (Day (now e) - 365) <= 9999 ->
   0 <= year_of_day (Day (now e)) <= 9999 ->
   getMRR_default_date e
   = yyyymmdd (Day (now e) - 365) ++ "-" ++ yyyymmdd (Day (now e))
   /\ regex_test date_regex (getMRR_default_date e) = true)
  /\ (1 <= year_of_day (Day (now e + off) - 365) <= 9999 ->
      1 <= year_of_day (Day (now e + off)) <= 9999 ->
      datefns_default_date e
      = yyyymmdd (Day (now e + off) - 365) ++ "-" ++ yyyymmdd (Day (now e + off))
      /\ regex_test date_regex (datefns_default_date e) = true).
Proof.
  intros Htz. split; [intros Hlocal Hutc Hs He | intros Hs He].
  - rewrite (getMRR_default_date_fixed e off Htz Hlocal).
    rewrite (iso_format_yyyymmdd (now_again e + -365 * msPerDay)),
      (iso_format_yyyymmdd (now e)).
    + rewrite Day_back_365, Hutc. split; [reflexivity |].
      apply date_regex_accepts; apply yyyymmdd_digits; assumption.
    + rewrite YearFromTime_year. exact He.
    + rewrite YearFromTime_year, Day_back_365, Hutc. exact Hs.
  - rewrite (datefns_default_date_fixed e off Htz).
    assert (Hsh : now e + -365 * msPerDay + off = now e + off + -365 * msPerDay) by lia.
    rewrite (format_yyyymmdd_fixed off (now e + -365 * msPerDay)),
      (format_yyyymmdd_fixed off (now e)).
    + rewrite Hsh, Day_back_365. split; [reflexivity |].
      apply date_regex_accepts; apply yyyymmdd_digits; lia.
    + rewrite YearFromTime_year. exact He.
    + rewrite YearFromTime_year, Hsh, Day_back_365. exact Hs.
Qed.

(** C4, evaluated. In Berlin at 01:30 on 30 March 2026, which is
    2026-03-29T23:30Z, getMRR called without [date] sends
    [date=20250330-20260329]: it steps back 365 days on the local calendar
    and prints both ends in UTC, so the end is the day before the local
    today that getLeads and getCohorts send at the same instant, and the
    range spans 364 days because the two ends lie on either side of a
    daylight-saving change. *)
Theorem getMRR_default_date_mixes_local_and_utc :
  getMRR_default_date berlin_night = "20250330-20260329"
  /\ datefns_default_date berlin_night = "20250330-20260330"
  /\ yyyymmdd (Day (LocalTime cet_LocalTZA (now berlin_night))) = "20260330"
  /\ days_from_civil 2026 3 29 - days_from_civil 2025 3 30 = 364
  /\ forall JSON_parse mrr_report,
       snd (getMRR_run JSON_parse mrr_report berlin_night (VObj []) [])
       = [mkRequest "GET" "https://api.growpanel.io" "/reports/mrr"
            [("interval", "month"); ("date", "20250330-20260329")]
            [("Authorization", "Bearer sk_live_x");
             ("Content-Type", "application/json")]].
Proof.
  split; [vm_compute; reflexivity |].
  split; [vm_compute; reflexivity |].
  split; [vm_compute; reflexivity |].
  split; [vm_compute; reflexivity |].
  intros JSON_parse mrr_report.
  unfold getMRR_run, bind, lift.
  change (zod_parse getMRRInput (VObj [])) with (Return [("interval", VStr "month")]).
  cbv iota beta.
  change (lookup "date" [("interval", VStr "month")]) with VUndefined.
  cbn [truthy negb set_field String.eqb Ascii.eqb Bool.eqb].
  replace (getMRR_default_date berlin_night) with "20250330-20260329"
    by (vm_compute; reflexivity).
  assert (Hs : stringifiable
                 [("interval", VStr "month"); ("date", VStr "20250330-20260329")]).
  { intros key Hin _. simpl in Hin.
    destruct Hin as [<- | [<- | []]]; eexists; reflexivity. }
  rewrite (callApi_outcome JSON_parse berlin_night "mrr" _ [] eq_refl eq_refl Hs).
  replace (api_request berlin_night "mrr"
             [("interval", VStr "month"); ("date", VStr "20250330-20260329")])
    with (mkRequest "GET" "https://api.growpanel.io" "/reports/mrr"
            [("interval", "month"); ("date", "20250330-20260329")]
            [("Authorization", "Bearer sk_live_x");
             ("Content-Type", "application/json")])
    by (vm_compute; reflexivity).
  destruct (upstream berlin_night _) as [err | resp]; [reflexivity |].
  destruct (negb (ok resp)); [reflexivity |].
  destruct (JSON_parse (body resp)) as [v | err]; [| reflexivity].
  unfold lift. destruct (mrr_report v); reflexivity.
Qed.

(** ** The scenarios of the specification, run on the sample hosts *)


Lemma failing_token : token_present failing.
Proof. reflexivity. Qed.

(** Scenario A: getMRR with an interval and no date. *)
Example scenario_A :
  snd (getMRR_run sample_parse sample_mrr_report healthy
         (VObj [("interval", VStr "month")]) [])
  = [mkRequest "GET" "https://api.growpanel.io" "/reports/mrr"
       [("interval", "month"); ("date", "20241102-20251102")]
       [("Authorization", "Bearer sk_live_x"); ("Content-Type", "application/json")]].
Proof. vm_compute. reflexivity. Qed.

(** Scenario B: getLeads with a date and a region. *)
Example scenario_B :
  snd (getLeads_run sample_parse sample_stringify healthy
         (VObj [("date", VStr "20240101-20240201"); ("region", VStr "europe")]) [])
  = [mkRequest "GET" "https://api.growpanel.io" "/reports/leads"
       [("date", "20240101-20240201"); ("interval", "month"); ("region", "europe")]
       [("Authorization", "Bearer sk_live_x"); ("Content-Type", "application/json")]].
Proof. vm_compute. reflexivity. Qed.

(** Scenario D on [POST /events]: an unregistered name. *)
Example scenario_D_post :
  post_tools_call sample_parse sample_stringify sample_zod_message sample_mrr_report
    healthy (call_message (VNum 7) (VStr "getForecast") (VObj [])) []
  = (Return (mkRpc "2.0" (VNum 7)
               (Failure (mkRpcError (-32601) "Unknown tool: getForecast" None))), []).
Proof. reflexivity. Qed.

(** *** Instances of the theorems *)

Lemma wrapTool_envelope_witness :
  truthy (lookup "content" [("content", VNum 1)]) = true
  /\ wrapTool sample_stringify (fun _ => ret (VObj [("content", VNum 1)])) VUndefined []
     = (Return (VObj [("content", VNum 1)]), []).
Proof.
  split; [reflexivity |].
  destruct (wrapTool_envelope sample_stringify
              (fun _ => ret (VObj [("content", VNum 1)])) VUndefined
              (VObj [("content", VNum 1)]) [] [] eq_refl) as (_ & _ & _ & H).
  exact (H [("content", VNum 1)] eq_refl eq_refl).
Defined.

Lemma callApi_requires_token_witness :
  GROWPANEL_API_TOKEN (host_answering None (Responded rate_limited)) = None
  /\ callApi sample_parse (host_answering None (Responded rate_limited)) "mrr"
       [("interval", VStr "month")] []
     = (Throw (Error "GROWPANEL_API_KEY environment variable is required"), []).
Proof.
  split; [reflexivity |].
  apply (callApi_requires_token sample_parse). reflexivity.
Defined.




Lemma post_unparseable_body_witness :
  sample_parse "{oops" = Throw (SyntaxError "Unexpected token in JSON")
  /\ httpServer sample_parse sample_stringify sample_zod_message sample_mrr_report
       healthy "POST" "/events" "{oops" []
     = (Return (Json (mkReply 400 [("Content-Type", "application/json")]
                        (mkRpc "2.0" VNull
                           (Failure (mkRpcError (-32700) "Parse error"
                                       (Some "Unexpected token in JSON")))))), []).
Proof.
  split; [reflexivity |].
  apply (post_unparseable_body sample_parse sample_stringify sample_zod_message
           sample_mrr_report healthy "{oops" (SyntaxError "Unexpected token in JSON") []).
  reflexivity.
Defined.

Lemma tools_list_constant_witness :
  handle_message sample_parse sample_stringify sample_zod_message sample_mrr_report
    healthy (list_message (VNum 1)) []
  = (Return (mkRpc "2.0" (VNum 1) (Result (VObj [("tools", post_tools)]))), [])
  /\ handle_message sample_parse sample_stringify sample_zod_message sample_mrr_report
       failing (list_message (VNum 2)) []
     = (Return (mkRpc "2.0" (VNum 2) (Result (VObj [("tools", post_tools)]))), []).
Proof.
  destruct (tools_list_constant sample_parse sample_stringify sample_zod_message
              sample_mrr_report healthy failing (list_message (VNum 1))
              (list_message (VNum 2)) [] [] eq_refl eq_refl eq_refl eq_refl)
    as (H1 & H2 & _).
  split; [exact H1 | exact H2].
Defined.

Lemma usdx_violates_getCohorts :
  schema_violation GetCohorts (VObj [("currency", VStr "usdx")]).
Proof.
  exists [("currency", VStr "usdx")]. split; [reflexivity |].
  right. left. exists "usdx". split; [reflexivity | discriminate].
Qed.

(** Scenario C: getCohorts with a currency of four characters. *)
Lemma invalid_arguments_rejected_witness :
  schema_violation GetCohorts (VObj [("currency", VStr "usdx")])
  /\ exists issues,
       tool_run sample_parse sample_stringify sample_mrr_report GetCohorts healthy
         (VObj [("currency", VStr "usdx")]) []
       = (Throw (ZodError issues), [])
       /\ post_events sample_parse sample_stringify sample_zod_message sample_mrr_report
            healthy "call getCohorts usdx" []
          = (Return (mkReply 200 [("Content-Type", "application/json")]
                       (mkRpc "2.0" (VNum 4)
                          (Failure (mkRpcError (-32603) "Internal error"
                                      (Some (sample_zod_message issues)))))), []).
Proof.
  split; [exact usdx_violates_getCohorts |].
  destruct (invalid_arguments_rejected sample_parse sample_stringify sample_zod_message
              sample_mrr_report GetCohorts healthy (VNum 4)
              (VObj [("currency", VStr "usdx")]) "call getCohorts usdx" []
              usdx_violates_getCohorts eq_refl)
    as (issues & Hrun & _ & _ & Hpost).
  exists issues. split; [exact Hrun | exact Hpost].
Defined.

(** ** Further properties of the code *)

(** *** Validation of the arguments *)

Lemma flat_map_check_nil path s checks :
  flat_map (check_issue path s) checks = [] -> forallb (check_ok s) checks = true.
Proof.
  induction checks as [| c checks IH]; simpl; [reflexivity |].
  intros H. apply app_eq_nil in H. destruct H as [Hc Hr].
  rewrite (IH Hr), andb_true_r. unfold check_issue in Hc.
  destruct (check_ok s c); [reflexivity |]. destruct c; discriminate.
Qed.

Lemma flat_map_check_ok path s checks :
  forallb (check_ok s) checks = true -> flat_map (check_issue path s) checks = [].
Proof.
  induction checks as [| c checks IH]; simpl; [reflexivity |].
  intros H. apply andb_true_iff in H. destruct H as [Hc Hr].
  rewrite (IH Hr). unfold check_issue. now rewrite Hc.
Qed.

(** A field parser yields [undefined] or a string its contract accepts. *)
Lemma zod_parse_field_inl t path v v' :
  zod_parse_field t path v = inl v' ->
  v' = VUndefined \/ exists s, v' = VStr s /\ accepts t s = true.
Proof.
  revert v. induction t as [checks | values | t IH | t IH d | t IH d]; intros v H; simpl in *.
  - destruct v; try discriminate.
    destruct (flat_map (check_issue path s) checks) eqn:E; [| discriminate].
    injection H as <-. right. exists s. split; [reflexivity |].
    now apply flat_map_check_nil with path.
  - destruct v; try discriminate.
    destruct (mem s values) eqn:E; [| discriminate].
    injection H as <-. right. eauto.
  - destruct v; try (apply IH in H; exact H). injection H as <-. now left.
  - destruct v; apply IH in H; exact H.
  - apply IH in H. exact H.
Qed.

(** A string the contract accepts parses to itself. *)
Lemma zod_parse_field_accepts t path s :
  accepts t s = true -> zod_parse_field t path (VStr s) = inl (VStr s).
Proof.
  induction t as [checks | values | t IH | t IH d | t IH d]; intros H; simpl in *; auto.
  - now rewrite (flat_map_check_ok path s checks H).
  - now rewrite H.
Qed.

Lemma zod_parse_fields_out sh input k v :
  In (k, v) (fst (zod_parse_fields sh input)) ->
  exists t, In (k, t) sh /\ zod_parse_field t k (lookup k input) = inl v.
Proof.
  induction sh as [| [k' t'] sh IH]; simpl; [intros [] |].
  destruct (zod_parse_fields sh input) as [out issues]. simpl in IH.
  destruct (zod_parse_field t' k' (lookup k' input)) as [v' | i] eqn:E.
  - destruct (negb (is_undefined v') || has_key k' input); simpl.
    + intros [Heq | Hin].
      * inversion Heq; subst. exists t'. auto.
      * destruct (IH Hin) as (t & Ht & Hp). exists t. auto.
    + intros Hin. destruct (IH Hin) as (t & Ht & Hp). exists t. auto.
  - simpl. intros Hin. destruct (IH Hin) as (t & Ht & Hp). exists t. auto.
Qed.

Lemma zod_parse_fields_keys_in sh input k :
  In k (map fst (fst (zod_parse_fields sh input))) -> In k (map fst sh).
Proof.
  intros H. apply in_map_iff in H. destruct H as ([k' v] & <- & Hin).
  destruct (zod_parse_fields_out _ _ _ _ Hin) as (t & Ht & _).
  apply in_map_iff. exists (k', t). auto.
Qed.

Lemma zod_parse_fields_nodup sh input :
  NoDup (map fst sh) -> NoDup (map fst (fst (zod_parse_fields sh input))).
Proof.
  induction sh as [| [k t] sh IH]; simpl; intros Hnd; [constructor |].
  inversion Hnd as [| ? ? Hk Hnd']; subst. specialize (IH Hnd').
  pose proof (zod_parse_fields_keys_in sh input k) as Hin.
  destruct (zod_parse_fields sh input) as [out issues]. simpl in *.
  destruct (zod_parse_field t k (lookup k input)) as [v | i]; simpl; [| exact IH].
  destruct (negb (is_undefined v) || has_key k input); simpl; [| exact IH].
  constructor; [| exact IH]. intros H. apply Hk, Hin, H.
Qed.

Lemma zod_parse_fields_kept sh input k t v :
  NoDup (map fst sh) ->
  In (k, t) sh ->
  zod_parse_field t k (lookup k input) = inl v ->
  is_undefined v = false ->
  In (k, v) (fst (zod_parse_fields sh input)).
Proof.
  induction sh as [| [k1 t1] sh IH]; simpl; intros Hnd Hin Hp Hu; [destruct Hin |].
  inversion Hnd as [| ? ? Hk Hnd1]; subst.
  destruct (zod_parse_fields sh input) as [out issues] eqn:E. simpl in IH.
  destruct Hin as [Heq | Hin].
  - inversion Heq; subst. rewrite Hp, Hu. simpl. now left.
  - specialize (IH Hnd1 Hin Hp Hu).
    destruct (zod_parse_field t1 k1 (lookup k1 input)) as [v1 | i]; simpl; [| exact IH].
    destruct (negb (is_undefined v1) || has_key k1 input); simpl; auto.
Qed.

Lemma lookup_in_keys k fields :
  In k (map fst fields) -> In (k, lookup k fields) fields.
Proof.
  induction fields as [| [k1 v1] rest IH]; simpl; [intros [] |].
  destruct (String.eqb k k1) eqn:E.
  - apply String.eqb_eq in E. subst. now left.
  - intros [Heq | Hin]; [subst; now rewrite String.eqb_refl in E | right; auto].
Qed.

Lemma lookup_of_in k v fields :
  NoDup (map fst fields) -> In (k, v) fields -> lookup k fields = v.
Proof.
  induction fields as [| [k1 v1] rest IH]; simpl; intros Hnd Hin; [destruct Hin |].
  inversion Hnd as [| ? ? Hk Hnd1]; subst.
  destruct Hin as [Heq | Hin].
  - inversion Heq; subst. now rewrite String.eqb_refl.
  - destruct (String.eqb k k1) eqn:E; [| auto].
    apply String.eqb_eq in E. subst. elim Hk. apply in_map_iff. exists (k1, v). auto.
Qed.

Lemma lookup_set_field_same k v fields : lookup k (set_field k v fields) = v.
Proof.
  induction fields as [| [k1 v1] rest IH]; simpl.
  - now rewrite String.eqb_refl.
  - destruct (String.eqb k k1) eqn:E; simpl; rewrite E; auto.
Qed.

Lemma lookup_set_field_other k k1 v fields :
  k1 <> k -> lookup k1 (set_field k v fields) = lookup k1 fields.
Proof.
  intros Hne. induction fields as [| [k0 v0] rest IH]; simpl.
  - destruct (String.eqb k1 k) eqn:E; [apply String.eqb_eq in E; contradiction | reflexivity].
  - destruct (String.eqb k k0) eqn:E; simpl.
    + apply String.eqb_eq in E. subst k0.
      destruct (String.eqb k1 k) eqn:E1; [apply String.eqb_eq in E1; contradiction | reflexivity].
    + now rewrite IH.
Qed.

Lemma keys_set_field k v fields :
  map fst (set_field k v fields)
  = if has_key k fields then map fst fields else (map fst fields ++ [k])%list.
Proof.
  induction fields as [| [k1 v1] rest IH]; simpl; [reflexivity |].
  destruct (String.eqb k k1) eqn:E; simpl; [reflexivity |].
  rewrite IH. destruct (has_key k rest); reflexivity.
Qed.

Lemma has_key_in k fields : has_key k fields = true <-> In k (map fst fields).
Proof.
  induction fields as [| [k1 v1] rest IH]; simpl; [split; [discriminate | tauto] |].
  rewrite orb_true_iff, IH, String.eqb_eq. split; intros [H | H]; auto.
Qed.

Lemma nodup_set_field k v fields :
  NoDup (map fst fields) -> NoDup (map fst (set_field k v fields)).
Proof.
  intros Hnd. rewrite keys_set_field. destruct (has_key k fields) eqn:E; [exact Hnd |].
  apply NoDup_app; [exact Hnd | repeat constructor; simpl; tauto |].
  intros x Hx [<- | []]. apply has_key_in in Hx. congruence.
Qed.

Lemma mem_In k l : mem k l = true <-> In k l.
Proof.
  unfold mem. rewrite existsb_exists. split.
  - intros (x & Hx & E). apply String.eqb_eq in E. now subst.
  - intros H. exists k. split; [exact H | apply String.eqb_refl].
Qed.

Lemma distinct_NoDup l : distinct l = true -> NoDup l.
Proof.
  induction l as [| k rest IH]; simpl; intros H; constructor;
    apply andb_true_iff in H; destruct H as [Hk Hr].
  - intros Hin. apply mem_In in Hin. rewrite Hin in Hk. discriminate.
  - auto.
Qed.

Lemma tool_input_nodup t : NoDup (map fst (tool_input t)).
Proof. apply distinct_NoDup. destruct t; reflexivity. Qed.

Lemma zod_parse_Return sh args parsed :
  zod_parse sh args = Return parsed ->
  exists input, args = VObj input /\ zod_parse_fields sh input = (parsed, []).
Proof.
  unfold zod_parse. destruct args; try discriminate.
  destruct (zod_parse_fields sh fields) as [out [| i issues]] eqn:E; [| discriminate].
  intros H. injection H as <-. eauto.
Qed.

Lemma parsed_nodup t args parsed :
  zod_parse (tool_input t) args = Return parsed -> NoDup (map fst parsed).
Proof.
  intros H. destruct (zod_parse_Return _ _ _ H) as (input & -> & E).
  pose proof (zod_parse_fields_nodup (tool_input t) input (tool_input_nodup t)) as Hn.
  now rewrite E in Hn.
Qed.

Lemma tool_filters_nodup t e parsed :
  NoDup (map fst parsed) -> NoDup (map fst (tool_filters t e parsed)).
Proof.
  intros H. unfold tool_filters. destruct (negb (truthy (lookup "date" parsed))); [| exact H].
  now apply nodup_set_field.
Qed.

Lemma zod_parse_field_inr t path v l :
  zod_parse_field t path v = inr l -> l <> [].
Proof.
  revert v. induction t as [checks | values | t IH | t IH d | t IH d]; intros v H; simpl in *.
  - destruct v; try (injection H as <-; discriminate).
    destruct (flat_map (check_issue path s) checks); [discriminate |].
    injection H as <-. discriminate.
  - destruct v; try (injection H as <-; discriminate).
    destruct (mem s values); [discriminate |]. injection H as <-. discriminate.
  - destruct v; try (apply IH in H; exact H). discriminate.
  - destruct v; apply IH in H; exact H.
  - apply IH in H. exact H.
Qed.

Lemma zod_parse_fields_all_ok sh input out k t :
  zod_parse_fields sh input = (out, []) ->
  In (k, t) sh ->
  exists v, zod_parse_field t k (lookup k input) = inl v.
Proof.
  intros E Hin. destruct (zod_parse_field t k (lookup k input)) as [v | l] eqn:Ef; [eauto |].
  destruct l as [| i rest]; [now apply zod_parse_field_inr in Ef |].
  pose proof (zod_parse_fields_issue sh input k t i rest Hin Ef) as H.
  rewrite E in H. now elim H.
Qed.

Lemma zod_parse_field_string t path s v :
  zod_parse_field t path (VStr s) = inl v -> v = VStr s.
Proof.
  induction t as [checks | values | t IH | t IH d | t IH d]; simpl; intros H; auto.
  - destruct (flat_map (check_issue path s) checks); [| discriminate]. now injection H.
  - destruct (mem s values); [| discriminate]. now injection H.
Qed.

Lemma lookup_defined_key k fields :
  is_undefined (lookup k fields) = false -> In k (map fst fields).
Proof.
  induction fields as [| [k1 v1] rest IH]; simpl; [discriminate |].
  destruct (String.eqb k k1) eqn:E; [apply String.eqb_eq in E; auto | auto].
Qed.

Lemma field_type_of_in k t sh :
  NoDup (map fst sh) -> In (k, t) sh -> field_type k sh = Some t.
Proof.
  induction sh as [| [k1 t1] rest IH]; simpl; intros Hnd Hin; [destruct Hin |].
  inversion Hnd as [| ? ? Hk Hnd1]; subst.
  destruct Hin as [Heq | Hin].
  - inversion Heq; subst. now rewrite String.eqb_refl.
  - destruct (String.eqb k k1) eqn:E; [| auto].
    apply String.eqb_eq in E. subst. elim Hk. apply in_map_iff. exists (k1, t). auto.
Qed.

Lemma tool_of_name_Some name t : tool_of_name name = Some t <-> name = VStr (tool_name t).
Proof.
  unfold tool_of_name. split.
  - destruct name; try discriminate. simpl.
    destruct (String.eqb s "getMRR") eqn:E1;
      [apply String.eqb_eq in E1; intros H; injection H as <-; now subst |].
    destruct (String.eqb s "getLeads") eqn:E2;
      [apply String.eqb_eq in E2; intros H; injection H as <-; now subst |].
    destruct (String.eqb s "getCohorts") eqn:E3;
      [apply String.eqb_eq in E3; intros H; injection H as <-; now subst |].
    discriminate.
  - intros ->. destruct t; reflexivity.
Qed.

Section MoreServerProperties.
Variable JSON_parse : string -> outcome value.
Variable JSON_stringify : value -> value.
Variable zod_message : list issue -> string.
Variable mrr_report : value -> outcome value.

Local Abbreviation callApi_def := callApi.
Local Abbreviation tool_run_def := tool_run.
Local Abbreviation tool_finish := (tool_finish JSON_stringify mrr_report).
Local Abbreviation wrapTool_def := wrapTool.
Local Abbreviation CallTool_handler_def := CallTool_handler.
Local Abbreviation post_tools_call_def := post_tools_call.
Local Abbreviation handle_message_def := handle_message.
Local Abbreviation post_events_def := post_events.
Local Abbreviation httpServer_def := httpServer.
Local Abbreviation callApi := (callApi JSON_parse).
Local Abbreviation wrapTool := (wrapTool JSON_stringify).
Local Abbreviation tool_run := (tool_run JSON_parse JSON_stringify mrr_report).
Local Abbreviation CallTool_handler := (CallTool_handler JSON_parse JSON_stringify mrr_report).
Local Abbreviation post_tools_call :=
  (post_tools_call JSON_parse JSON_stringify zod_message mrr_report).
Local Abbreviation handle_message :=
  (handle_message JSON_parse JSON_stringify zod_message mrr_report).
Local Abbreviation post_events :=
  (post_events JSON_parse JSON_stringify zod_message mrr_report).
Local Abbreviation httpServer :=
  (httpServer JSON_parse JSON_stringify zod_message mrr_report).
Local Abbreviation error_message := (error_message zod_message).

Lemma tool_run_parsed t e args parsed log :
  zod_parse (tool_input t) args = Return parsed ->
  tool_run t e args log
  = bind (callApi e (tool_endpoint t) (tool_filters t e parsed)) (tool_finish t) log.
Proof.
  intros H.
  destruct t; cbn [tool_run_def tool_input tool_endpoint tool_finish] in *;
    unfold getMRR_run, getLeads_run, getCohorts_run, tool_filters, tool_default_date;
    unfold bind at 1; unfold lift at 1; rewrite H; reflexivity.
Qed.

Lemma tool_finish_log t v log : snd (tool_finish t v log) = log.
Proof. destruct t; reflexivity. Qed.

Lemma bind_finish_log {A B} (m : M A) (k : A -> M B) log :
  (forall a l, snd (k a l) = l) -> snd (bind m k log) = snd (m log).
Proof.
  intros Hk. unfold bind. destruct (m log) as [[a | err] l]; [apply Hk | reflexivity].
Qed.

(** The filters a run hands to [callApi] hold strings only. *)
Lemma parsed_value t args parsed k :
  zod_parse (tool_input t) args = Return parsed ->
  lookup k parsed = VUndefined \/ exists s, lookup k parsed = VStr s.
Proof.
  intros H. destruct (zod_parse_Return _ _ _ H) as (input & -> & E).
  destruct (is_undefined (lookup k parsed)) eqn:Eu.
  - left. destruct (lookup k parsed); try discriminate Eu; reflexivity.
  - right. pose proof (lookup_in_keys k parsed (lookup_defined_key _ _ Eu)) as Hin.
    assert (Hv : In (k, lookup k parsed) (fst (zod_parse_fields (tool_input t) input)))
      by (rewrite E; exact Hin).
    destruct (zod_parse_fields_out _ _ _ _ Hv) as (ty & _ & Hpf).
    destruct (zod_parse_field_inl _ _ _ _ Hpf) as [Hun | (s & Hs & _)];
      [rewrite Hun in Eu; discriminate Eu | eauto].
Qed.

Lemma tool_filters_value t e args parsed k :
  zod_parse (tool_input t) args = Return parsed ->
  lookup k (tool_filters t e parsed) = VUndefined
  \/ exists s, lookup k (tool_filters t e parsed) = VStr s.
Proof.
  intros H. unfold tool_filters.
  destruct (negb (truthy (lookup "date" parsed))); [| now apply parsed_value with t args].
  destruct (String.eqb k "date") eqn:E.
  - apply String.eqb_eq in E. subst. rewrite lookup_set_field_same. eauto.
  - rewrite lookup_set_field_other; [now apply parsed_value with t args |].
    intros ->. now rewrite String.eqb_refl in E.
Qed.

Lemma tool_filters_stringifiable t e args parsed :
  zod_parse (tool_input t) args = Return parsed ->
  stringifiable (tool_filters t e parsed).
Proof.
  intros H key _ Hn. destruct (tool_filters_value t e args parsed key H) as [Hu | (s & Hs)].
  - rewrite Hu in Hn. discriminate Hn.
  - rewrite Hs. eexists. reflexivity.
Qed.

Lemma in_query_of params key s :
  stringifiable params ->
  In (key, s) (query_of params) <->
  In key (map fst params)
  /\ is_undefined (lookup key params) = false
  /\ is_null (lookup key params) = false
  /\ to_js_string (lookup key params) = Return s.
Proof.
  intros H.
  rewrite (in_append_each _ _ _ key s (query_of_stringifiable params H)), in_Object_keys.
  reflexivity.
Qed.

Lemma query_keys_nodup params :
  stringifiable params -> NoDup (map fst params) -> NoDup (map fst (query_of params)).
Proof.
  intros H Hnd. rewrite (append_each_keys _ _ _ (query_of_stringifiable params H)).
  apply NoDup_filter. now apply nodup_Object_keys.
Qed.

(** The upstream traffic of a run, exactly. *)
Lemma tool_run_log t e args log :
  snd (tool_run t e args log)
  = match zod_parse (tool_input t) args with
    | Return parsed =>
        if env_truthy (GROWPANEL_API_TOKEN e)
           && URL_canParse e ("/reports/" ++ tool_endpoint t)
                (env_or (GROWPANEL_API_URL e) "https://api.growpanel.io")
        then (log ++ [api_request e (tool_endpoint t) (tool_filters t e parsed)])%list
        else log
    | Throw _ => log
    end.
Proof.
  destruct (zod_parse (tool_input t) args) as [parsed | err] eqn:E.
  - rewrite (tool_run_parsed _ _ _ _ _ E).
    rewrite bind_finish_log by apply tool_finish_log.
    rewrite (callApi_log JSON_parse).
    now rewrite (query_of_stringifiable _ (tool_filters_stringifiable t e args parsed E)).
  - now rewrite (tool_run_parse_throws JSON_parse JSON_stringify mrr_report t e args err log E).
Qed.

(** X2. A run hands at most one request to [fetch], exactly when the
    arguments are valid, the credential is configured and the base URL is
    one [new URL] parses: a GET for the report of the tool at the configured
    base, carrying the bearer credential. *)
Theorem tool_run_sends_at_most_one_request t e args log :
  exists sent,
    snd (tool_run t e args log) = (log ++ sent)%list
    /\ (List.length sent <= 1)%nat
    /\ (sent <> []
        <-> (exists parsed, zod_parse (tool_input t) args = Return parsed)
            /\ token_present e
            /\ url_parses e (tool_endpoint t))
    /\ forall rq,
         In rq sent ->
         rq_method rq = "GET"
         /\ rq_base rq = env_or (GROWPANEL_API_URL e) "https://api.growpanel.io"
         /\ rq_path rq = "/reports/" ++ tool_endpoint t
         /\ rq_headers rq
            = [("Authorization", "Bearer " ++ env_text (GROWPANEL_API_TOKEN e));
               ("Content-Type", "application/json")].
Proof.
  rewrite tool_run_log. unfold token_present, url_parses.
  destruct (zod_parse (tool_input t) args) as [parsed | err].
  - destruct (env_truthy (GROWPANEL_API_TOKEN e)); cbn [andb].
    + destruct (URL_canParse e _ _).
      * eexists. split; [reflexivity |]. split; [simpl; lia |]. split.
        -- split; [intros _; split; eauto | discriminate].
        -- intros rq [<- | []]. repeat split.
      * exists []. rewrite app_nil_r. split; [reflexivity |]. split; [simpl; lia |].
        split; [| intros rq []].
        split; [congruence | intros (_ & _ & H); discriminate H].
    + exists []. rewrite app_nil_r. split; [reflexivity |]. split; [simpl; lia |].
      split; [| intros rq []].
      split; [congruence | intros (_ & H & _); discriminate H].
  - exists []. rewrite app_nil_r. split; [reflexivity |]. split; [simpl; lia |].
    split; [| intros rq []].
    split; [congruence | intros [[p H] _]; discriminate H].
Qed.

(** The requests a run can have sent from an empty log. *)
Lemma tool_run_request t e args rq :
  In rq (snd (tool_run t e args [])) ->
  exists parsed,
    zod_parse (tool_input t) args = Return parsed
    /\ token_present e
    /\ url_parses e (tool_endpoint t)
    /\ rq = api_request e (tool_endpoint t) (tool_filters t e parsed).
Proof.
  rewrite tool_run_log. unfold token_present, url_parses.
  destruct (zod_parse (tool_input t) args) as [parsed | err]; [| intros []].
  destruct (env_truthy (GROWPANEL_API_TOKEN e)); [| intros []]. cbn [andb].
  destruct (URL_canParse e _ _); [| intros []].
  intros [<- | []]. eauto.
Qed.

Lemma tool_query_accepted t e args rq :
  In rq (snd (tool_run t e args [])) ->
  NoDup (map fst (rq_query rq))
  /\ forall k s,
       In (k, s) (rq_query rq) ->
       exists ty,
         In (k, ty) (tool_input t)
         /\ (accepts ty s = true \/ (k = "date" /\ s = tool_default_date t e)).
Proof.
  intros Hin. destruct (tool_run_request _ _ _ _ Hin) as (parsed & Hp & _ & _ & ->).
  pose proof (parsed_nodup _ _ _ Hp) as Hnd.
  pose proof (tool_filters_stringifiable t e args parsed Hp) as Hstr.
  cbn [api_request rq_query].
  split; [apply query_keys_nodup; [exact Hstr | now apply tool_filters_nodup] |].
  intros k s Hks. apply (in_query_of _ _ _ Hstr) in Hks.
  destruct Hks as (Hk & Hu & _ & Hs).
  destruct (zod_parse_Return _ _ _ Hp) as (input & -> & E).
  assert (Hparsed : forall v, In (k, v) parsed -> is_undefined v = false ->
            exists ty s1, In (k, ty) (tool_input t) /\ v = VStr s1
                          /\ accepts ty s1 = true).
  { intros v Hv Hvu.
    assert (Hv' : In (k, v) (fst (zod_parse_fields (tool_input t) input)))
      by now rewrite E.
    destruct (zod_parse_fields_out _ _ _ _ Hv') as (ty & Hty & Hpf).
    exists ty.
    destruct (zod_parse_field_inl _ _ _ _ Hpf) as [-> | (s1 & -> & Hs1)];
      [discriminate Hvu | eauto]. }
  unfold tool_filters in *.
  destruct (negb (truthy (lookup "date" parsed))) eqn:Ed.
  - destruct (String.eqb k "date") eqn:Ek.
    + apply String.eqb_eq in Ek. subst k. rewrite lookup_set_field_same in Hs.
      cbn [to_js_string] in Hs. injection Hs as <-.
      assert (exists d, In ("date", date_field d) (tool_input t)) as (d & Hd)
        by (destruct t; eexists; simpl; left; reflexivity).
      exists (date_field d). auto.
    + assert (Hne : k <> "date") by (intros ->; now rewrite String.eqb_refl in Ek).
      rewrite lookup_set_field_other in * by exact Hne.
      rewrite keys_set_field in Hk.
      assert (Hk' : In k (map fst parsed)).
      { destruct (has_key "date" parsed); [exact Hk |].
        apply in_app_or in Hk. destruct Hk as [Hk | [<- | []]]; [exact Hk | congruence]. }
      destruct (Hparsed _ (lookup_in_keys _ _ Hk') Hu) as (ty & s1 & Hty & Hv & Hacc).
      rewrite Hv in Hs. cbn [to_js_string] in Hs. injection Hs as <-.
      exists ty. auto.
  - destruct (Hparsed _ (lookup_in_keys _ _ Hk) Hu) as (ty & s1 & Hty & Hv & Hacc).
    rewrite Hv in Hs. cbn [to_js_string] in Hs. injection Hs as <-.
    exists ty. auto.
Qed.

Lemma tool_query_field t e args rq k s :
  In rq (snd (tool_run t e args [])) ->
  In (k, s) (rq_query rq) ->
  exists ty,
    field_type k (tool_input t) = Some ty
    /\ (accepts ty s = true \/ (k = "date" /\ s = tool_default_date t e)).
Proof.
  intros Hin Hks. destruct (tool_query_accepted _ _ _ _ Hin) as (_ & H).
  destruct (H k s Hks) as (ty & Hty & Hacc). exists ty. split; [| exact Hacc].
  apply field_type_of_in; [apply tool_input_nodup | exact Hty].
Qed.

(** X3. Every parameter a tool sends upstream is a field of its own input
    contract, sent once, and satisfies that contract: an interval, region or
    billing frequency of the enumerated sets, a currency of length 3, a date
    of the pattern unless it is the date the tool synthesized itself.
    getLeads never sends a billing frequency. *)
Theorem tool_query_within_contract t e args rq :
  In rq (snd (tool_run t e args [])) ->
  NoDup (map fst (rq_query rq))
  /\ (forall k, In k (map fst (rq_query rq)) -> In k (map fst (tool_input t)))
  /\ (forall s, In ("interval", s) (rq_query rq) -> mem s intervals = true)
  /\ (forall s, In ("region", s) (rq_query rq) -> mem s regions = true)
  /\ (forall s, In ("currency", s) (rq_query rq) -> String.length s = 3%nat)
  /\ (forall s, In ("billing_freq", s) (rq_query rq) ->
      mem s billing_freqs = true /\ t <> GetLeads)
  /\ (forall s, In ("date", s) (rq_query rq) ->
      regex_test date_regex s = true \/ s = tool_default_date t e).
Proof.
  intros Hin. split; [exact (proj1 (tool_query_accepted _ _ _ _ Hin)) |].
  split.
  { intros k Hk. apply in_map_iff in Hk. destruct Hk as ([k1 s] & <- & Hks).
    destruct (proj2 (tool_query_accepted _ _ _ _ Hin) k1 s Hks) as (ty & Hty & _).
    apply in_map_iff. exists (k1, ty). auto. }
  assert (Hf : forall k s, In (k, s) (rq_query rq) ->
            exists ty, field_type k (tool_input t) = Some ty
                       /\ (accepts ty s = true \/ (k = "date" /\ s = tool_default_date t e)))
    by (intros k s; now apply tool_query_field with args).
  split; [| split; [| split; [| split]]]; intros s Hs;
    destruct (Hf _ _ Hs) as (ty & Hty & Hacc);
    destruct t; vm_compute in Hty; try discriminate Hty;
    injection Hty as <-.
  all: try (destruct Hacc as [Hacc | [Hk _]]; [| discriminate Hk]).
  all: try exact Hacc.
  all: try (simpl in Hacc; rewrite andb_true_r in Hacc; now apply Nat.eqb_eq).
  all: try (split; [exact Hacc | discriminate]).
  all: destruct Hacc as [Hacc | [_ ->]]; [left | now right];
    simpl in Hacc; now rewrite andb_true_r in Hacc.
Qed.

Lemma interval_field_parsed path u v :
  zod_parse_field interval_field path u = inl v ->
  exists s, v = VStr s /\ mem s intervals = true /\ (u = VUndefined -> s = "month").
Proof.
  unfold interval_field. cbn [zod_parse_field].
  destruct u; try discriminate.
  - change (mem "month" intervals) with true. cbv iota.
    intros H. injection H as <-. exists "month". repeat split.
  - destruct (mem s intervals) eqn:E; [| discriminate].
    intros H. injection H as <-. exists s.
    split; [reflexivity | split; [exact E | intros Habs; discriminate Habs]].
Qed.

(** X4. Whatever the arguments, a request that leaves carries an interval of
    the enumerated set, "month" when the caller gave none, and a date. *)
Theorem tool_query_has_interval_and_date t e args rq :
  In rq (snd (tool_run t e args [])) ->
  (exists s, In ("interval", s) (rq_query rq) /\ mem s intervals = true
             /\ (get args "interval" = VUndefined -> s = "month"))
  /\ (exists s, In ("date", s) (rq_query rq)).
Proof.
  intros Hin. destruct (tool_run_request _ _ _ _ Hin) as (parsed & Hp & _ & _ & ->).
  pose proof (parsed_nodup _ _ _ Hp) as Hnd.
  pose proof (tool_filters_stringifiable t e args parsed Hp) as Hstr.
  pose proof (parsed_value t args parsed "date" Hp) as Hdate.
  destruct (zod_parse_Return _ _ _ Hp) as (input & -> & E).
  cbn [api_request rq_query].
  assert (Hi : In ("interval", interval_field) (tool_input t))
    by (destruct t; simpl; right; left; reflexivity).
  destruct (zod_parse_fields_all_ok _ _ _ _ _ E Hi) as (v & Hv).
  destruct (interval_field_parsed _ _ _ Hv) as (s & -> & Hs & Hm).
  assert (Hl : lookup "interval" parsed = VStr s).
  { apply lookup_of_in; [exact Hnd |].
    replace parsed with (fst (zod_parse_fields (tool_input t) input)) by now rewrite E.
    apply zod_parse_fields_kept with interval_field; auto. apply tool_input_nodup. }
  split.
  - exists s. split; [| split; assumption].
    apply (in_query_of _ _ _ Hstr). clear Hstr. unfold tool_filters.
    destruct (negb (truthy (lookup "date" parsed))).
    + rewrite lookup_set_field_other by discriminate. rewrite Hl.
      repeat split. rewrite keys_set_field.
      assert (In "interval" (map fst parsed))
        by (apply lookup_defined_key; now rewrite Hl).
      destruct (has_key "date" parsed); [| apply in_or_app]; auto.
    + rewrite Hl. repeat split. apply lookup_defined_key. now rewrite Hl.
  - unfold tool_filters in *. destruct (negb (truthy (lookup "date" parsed))) eqn:Ed.
    + exists (tool_default_date t e). apply (in_query_of _ _ _ Hstr).
      rewrite lookup_set_field_same. repeat split.
      rewrite keys_set_field.
      destruct (has_key "date" parsed) eqn:Eh; [now apply has_key_in |].
      apply in_or_app. right. now left.
    + apply negb_false_iff in Ed.
      destruct Hdate as [Hd | (d & Hd)]; [rewrite Hd in Ed; discriminate Ed |].
      exists d. apply (in_query_of _ _ _ Hstr). rewrite Hd. repeat split.
      apply lookup_defined_key. now rewrite Hd.
Qed.

Lemma date_regex_nonempty s : regex_test date_regex s = true -> s <> "".
Proof. intros H ->. discriminate H. Qed.

(** X5. A date the caller supplies is forwarded as it is, and then the request
    does not depend on the clock, the time zone or the upstream: hosts with
    the same base URL and credential, on which that base URL parses, send
    the same request. *)
Theorem supplied_date_forwarded t e args s rq :
  In rq (snd (tool_run t e args [])) ->
  get args "date" = VStr s ->
  In ("date", s) (rq_query rq)
  /\ forall e',
       GROWPANEL_API_URL e' = GROWPANEL_API_URL e ->
       GROWPANEL_API_TOKEN e' = GROWPANEL_API_TOKEN e ->
       url_parses e' (tool_endpoint t) ->
       snd (tool_run t e' args []) = [rq].
Proof.
  intros Hin Hd. destruct (tool_run_request _ _ _ _ Hin) as (parsed & Hp & Htok & _ & ->).
  pose proof (parsed_nodup _ _ _ Hp) as Hnd.
  pose proof (tool_filters_stringifiable t e args parsed Hp) as Hstr.
  destruct (zod_parse_Return _ _ _ Hp) as (input & -> & E). simpl in Hd.
  assert (exists d, In ("date", date_field d) (tool_input t)) as (d & Hi)
    by (destruct t; eexists; simpl; left; reflexivity).
  destruct (zod_parse_fields_all_ok _ _ _ _ _ E Hi) as (v & Hv).
  rewrite Hd in Hv. pose proof (zod_parse_field_string _ _ _ _ Hv) as ->.
  destruct (zod_parse_field_inl _ _ _ _ Hv) as [Habs | (s' & Hs' & Hacc)];
    [discriminate |]. injection Hs' as <-.
  assert (Hre : regex_test date_regex s = true)
    by (simpl in Hacc; now rewrite andb_true_r in Hacc).
  assert (Hl : lookup "date" parsed = VStr s).
  { apply lookup_of_in; [exact Hnd |].
    replace parsed with (fst (zod_parse_fields (tool_input t) input)) by now rewrite E.
    apply zod_parse_fields_kept with (date_field d); auto.
    - apply tool_input_nodup.
    - now rewrite Hd. }
  assert (Hf : forall e0, tool_filters t e0 parsed = parsed).
  { intros e0. unfold tool_filters. rewrite Hl. simpl.
    destruct (String.eqb s "") eqn:Es; [| reflexivity].
    apply String.eqb_eq in Es. now apply date_regex_nonempty in Hre. }
  split.
  - cbn [api_request rq_query]. apply (in_query_of _ _ _ Hstr).
    rewrite Hf, Hl. repeat split.
    apply lookup_defined_key. now rewrite Hl.
  - intros e' Hurl Htoken Hparse. rewrite tool_run_log, Hp.
    unfold token_present in Htok. unfold url_parses in Hparse.
    rewrite Htoken, Htok, Hparse. simpl.
    unfold api_request. now rewrite !Hf, Hurl, Htoken.
Qed.

(** *** Upstream failures *)

(** C7. When the upstream answers the request [callApi] sent with a status
    outside 200..299, [callApi] throws an error whose message holds the
    status code, the status text and the body text; and a [tools/call] of a
    registered tool with valid arguments, posted to [/events], whose request
    is answered so, gets status 200 and a JSON-RPC error of code -32603 whose
    [data] is that message, so it holds the body text. *)
Theorem upstream_failure_surfaces e resp :
  token_present e ->
  ok resp = false ->
  exists msg,
    contains msg (Z_to_string (status resp))
    /\ contains msg (statusText resp)
    /\ contains msg (body resp)
    /\ (forall endpoint params log,
          url_parses e endpoint ->
          stringifiable params ->
          upstream e (api_request e endpoint params) = Responded resp ->
          callApi e endpoint params log
          = (Throw (Error msg), (log ++ [api_request e endpoint params])%list))
    /\ (forall t id args parsed text log,
          url_parses e (tool_endpoint t) ->
          zod_parse (tool_input t) args = Return parsed ->
          upstream e (api_request e (tool_endpoint t) (tool_filters t e parsed))
          = Responded resp ->
          JSON_parse text = Return (call_message id (VStr (tool_name t)) args) ->
          post_events e text log
          = (Return (mkReply 200 [("Content-Type", "application/json")]
                       (mkRpc "2.0" id
                          (Failure (mkRpcError (-32603) "Internal error" (Some msg))))),
             (log ++ [api_request e (tool_endpoint t) (tool_filters t e parsed)])%list)).
Proof.
  intros Ht Hok.
  exists ("API call failed: " ++ Z_to_string (status resp) ++ " "
          ++ statusText resp ++ " - " ++ body resp).
  split; [apply (contains_intro "API call failed: ") |].
  split; [exists ("API call failed: " ++ Z_to_string (status resp) ++ " "),
                 (" - " ++ body resp);
          now rewrite !append_assoc |].
  split; [exists ("API call failed: " ++ Z_to_string (status resp) ++ " "
                  ++ statusText resp ++ " - "), "";
          now rewrite !append_assoc, append_nil_r |].
  assert (Hcall : forall endpoint params log,
            url_parses e endpoint ->
            stringifiable params ->
            upstream e (api_request e endpoint params) = Responded resp ->
            callApi e endpoint params log
            = (Throw (Error ("API call failed: " ++ Z_to_string (status resp) ++ " "
                             ++ statusText resp ++ " - " ++ body resp)),
               (log ++ [api_request e endpoint params])%list)).
  { intros endpoint params log Hu Hs Hup.
    rewrite (callApi_outcome JSON_parse e endpoint params log Ht Hu Hs), Hup, Hok.
    reflexivity. }
  split; [exact Hcall |].
  intros t id args parsed text log Hu Hp Hup Hj.
  assert (Hrun : tool_run t e args log
                 = (Throw (Error ("API call failed: " ++ Z_to_string (status resp) ++ " "
                                  ++ statusText resp ++ " - " ++ body resp)),
                    (log ++ [api_request e (tool_endpoint t) (tool_filters t e parsed)])%list)).
  { rewrite (tool_run_parsed _ _ _ _ _ Hp). unfold bind.
    now rewrite (Hcall _ _ log Hu (tool_filters_stringifiable t e args parsed Hp) Hup). }
  rewrite (post_events_parsed JSON_parse JSON_stringify zod_message mrr_report _ _ _ _ Hj).
  rewrite (handle_call_message JSON_parse JSON_stringify zod_message mrr_report).
  rewrite (post_tools_call_registered JSON_parse JSON_stringify zod_message mrr_report).
  rewrite (wrapTool_throws JSON_stringify _ _ _ _ _ Hrun).
  reflexivity.
Qed.

(** *** The two transports *)

Lemma transports_agree_on_registered_tools_aux t e id args log :
  post_tools_call e (call_message id (VStr (tool_name t)) args) log
  = match CallTool_handler e (tool_name t) args log with
    | (Return result, log') => (Return (mkRpc "2.0" id (Result result)), log')
    | (Throw err, log') =>
        (Return (mkRpc "2.0" id
                   (Failure (mkRpcError (-32603) "Internal error"
                               (Some (error_message err))))), log')
    end.
Proof.
  rewrite (post_tools_call_registered JSON_parse JSON_stringify zod_message mrr_report).
  now rewrite (CallTool_registered JSON_parse JSON_stringify mrr_report).
Qed.

(** X18. For a registered tool the two transports run the same computation:
    [POST /events] sends what the streaming handler sends, answers with the
    handler's result when it returns, and with error -32603 carrying the
    message of what it throws. *)
Theorem transports_agree_on_registered_tools t e id args log :
  post_tools_call e (call_message id (VStr (tool_name t)) args) log
  = match CallTool_handler e (tool_name t) args log with
    | (Return result, log') => (Return (mkRpc "2.0" id (Result result)), log')
    | (Throw err, log') =>
        (Return (mkRpc "2.0" id
                   (Failure (mkRpcError (-32603) "Internal error"
                               (Some (error_message err))))), log')
    end.
Proof. apply transports_agree_on_registered_tools_aux. Qed.

Lemma wrapTool_log f params log : snd (wrapTool f params log) = snd (f params log).
Proof.
  unfold wrapTool_def. rewrite try_rethrow. unfold bind.
  destruct (f params log) as [[r | err] l]; reflexivity.
Qed.

(** What the [tools/call] branch does for any message. *)
Lemma post_tools_call_cases e message log :
  post_tools_call e message log
  = let params := get message "params" in
    if is_nullish params then
      (Return (mkRpc "2.0" (get message "id")
                 (Failure (mkRpcError (-32603) "Internal error"
                             (Some "Cannot destructure property 'name' of 'message.params'")))),
       log)
    else
      match to_js_string (get params "name") with
      | Throw err =>
          (Return (mkRpc "2.0" (get message "id")
                     (Failure (mkRpcError (-32603) "Internal error"
                                 (Some (error_message err))))), log)
      | Return text =>
          match tool_of_name (get params "name") with
          | Some t =>
              match wrapTool (tool_run t e) (get params "arguments") log with
              | (Return result, log') =>
                  (Return (mkRpc "2.0" (get message "id") (Result result)), log')
              | (Throw err, log') =>
                  (Return (mkRpc "2.0" (get message "id")
                             (Failure (mkRpcError (-32603) "Internal error"
                                         (Some (error_message err))))), log')
              end
          | None =>
              (Return (mkRpc "2.0" (get message "id")
                         (Failure (mkRpcError (-32601) ("Unknown tool: " ++ text) None))),
               log)
          end
      end.
Proof.
  unfold post_tools_call_def, try_catch, tool_of_name. cbv zeta.
  destruct (is_nullish (get message "params")); [reflexivity |].
  unfold bind at 1. unfold lift at 1.
  destruct (to_js_string (get (get message "params") "name")) as [text | terr];
    [| reflexivity].
  destruct (is_str (get (get message "params") "name") (tool_name GetMRR)).
  { unfold bind. cbn [tool_run_def].
    destruct (wrapTool (getMRR_run JSON_parse mrr_report e) _ log) as [[r | err] l];
      reflexivity. }
  destruct (is_str (get (get message "params") "name") (tool_name GetLeads)).
  { unfold bind. cbn [tool_run_def].
    destruct (wrapTool (getLeads_run JSON_parse JSON_stringify e) _ log) as [[r | err] l];
      reflexivity. }
  destruct (is_str (get (get message "params") "name") (tool_name GetCohorts)).
  { unfold bind. cbn [tool_run_def].
    destruct (wrapTool (getCohorts_run JSON_parse JSON_stringify e) _ log) as [[r | err] l];
      reflexivity. }
  reflexivity.
Qed.
Lemma post_tools_call_reply e message log :
  exists r log',
    post_tools_call e message log = (Return r, log')
    /\ jsonrpc r = "2.0" /\ id r = get message "id".
Proof.
  rewrite post_tools_call_cases. cbv zeta.
  destruct (is_nullish (get message "params")); [eauto |].
  destruct (to_js_string (get (get message "params") "name")); [| eauto].
  destruct (tool_of_name (get (get message "params") "name")) as [t |]; [| eauto].
  destruct (wrapTool (tool_run t e) _ log) as [[r | err] l]; eauto.
Qed.

Lemma handle_message_reply e message log :
  is_nullish message = false ->
  exists r log',
    handle_message e message log = (Return r, log')
    /\ jsonrpc r = "2.0" /\ id r = get message "id".
Proof.
  intros Hn. unfold handle_message_def. rewrite Hn.
  destruct (is_str (get message "method") "tools/list"); [unfold ret; eauto |].
  destruct (is_str (get message "method") "tools/call"); [| unfold ret; eauto].
  apply post_tools_call_reply.
Qed.

(** X22. The handler of [POST /events] never lets a throw escape: every body
    gets a JSON-RPC 2.0 reply, with status 200 and the [id] of the message
    when the body parses to something other than [null], and with status 400,
    [id] null and error -32700, nothing having been sent upstream, when the
    body does not parse or parses to [null]. *)
Theorem post_events_always_replies e text log :
  exists reply log',
    post_events e text log = (Return reply, log')
    /\ jsonrpc (http_body reply) = "2.0"
    /\ ((http_status reply = 200
         /\ exists message,
              JSON_parse text = Return message /\ is_nullish message = false
              /\ id (http_body reply) = get message "id")
        \/ (http_status reply = 400
            /\ log' = log
            /\ id (http_body reply) = VNull
            /\ (exists d, payload (http_body reply)
                          = Failure (mkRpcError (-32700) "Parse error" (Some d)))
            /\ ((exists err, JSON_parse text = Throw err)
                \/ exists message,
                     JSON_parse text = Return message /\ is_nullish message = true))).
Proof.
  unfold post_events_def, try_catch, bind, lift, ret.
  destruct (JSON_parse text) as [message | err] eqn:Ej.
  - destruct (is_nullish message) eqn:En.
    + unfold handle_message_def. rewrite En. unfold throw.
      do 2 eexists. split; [reflexivity |]. split; [reflexivity |]. right.
      split; [reflexivity |]. split; [reflexivity |]. split; [reflexivity |].
      split; [eexists; reflexivity |]. right. exists message. auto.
    + destruct (handle_message_reply e message log En) as (r & log' & -> & Hv & Hi).
      do 2 eexists. split; [reflexivity |]. split; [exact Hv |]. left.
      split; [reflexivity |]. exists message. auto.
  - do 2 eexists. split; [reflexivity |]. split; [reflexivity |]. right.
    split; [reflexivity |]. split; [reflexivity |]. split; [reflexivity |].
    split; [eexists; reflexivity |]. left. exists err. reflexivity.
Qed.

Lemma post_tools_call_log e message log :
  snd (post_tools_call e message log)
  = if is_nullish (get message "params") then log
    else match tool_of_name (get (get message "params") "name") with
         | Some t => snd (tool_run t e (get (get message "params") "arguments") log)
         | None => log
         end.
Proof.
  rewrite post_tools_call_cases. cbv zeta.
  destruct (is_nullish (get message "params")); [reflexivity |].
  destruct (tool_of_name (get (get message "params") "name")) as [t |] eqn:Et.
  - apply tool_of_name_Some in Et. rewrite Et. cbn [to_js_string].
    rewrite <- wrapTool_log.
    destruct (wrapTool (tool_run t e) _ log) as [[r | err] l]; reflexivity.
  - destruct (to_js_string (get (get message "params") "name")); reflexivity.
Qed.

(** X23. The only HTTP request that reaches the upstream is a [POST /events]
    whose body is a [tools/call] naming a registered tool with arguments its
    contract accepts, on a host with the credential configured and a base
    URL that parses; it sends exactly one request, to the report of that
    tool.  [OPTIONS], [GET], other paths, [tools/list], unknown methods and
    unknown tools send nothing. *)
Theorem upstream_only_for_valid_tool_calls e method url text log :
  snd (httpServer e method url text log) <> log ->
  method = "POST" /\ url = "/events"
  /\ exists message t parsed,
       JSON_parse text = Return message
       /\ get message "method" = VStr "tools/call"
       /\ get (get message "params") "name" = VStr (tool_name t)
       /\ zod_parse (tool_input t) (get (get message "params") "arguments") = Return parsed
       /\ token_present e
       /\ url_parses e (tool_endpoint t)
       /\ snd (httpServer e method url text log)
          = (log ++ [api_request e (tool_endpoint t) (tool_filters t e parsed)])%list.
Proof.
  unfold httpServer_def.
  destruct (String.eqb method "OPTIONS"); [intros H; now elim H |].
  destruct (String.eqb method "POST") eqn:Em; cbn [andb].
  2: { destruct (String.eqb method "GET" && String.eqb url "/events");
       intros H; now elim H. }
  destruct (String.eqb url "/events") eqn:Eu; cbn [andb].
  2: { destruct (String.eqb method "GET"); intros H; now elim H. }
  apply String.eqb_eq in Em, Eu.
  rewrite bind_finish_log by reflexivity.
  unfold post_events_def, try_catch, bind, lift, ret.
  destruct (JSON_parse text) as [message | err]; [| intros H; now elim H].
  unfold handle_message_def.
  destruct (is_nullish message); [intros H; now elim H |].
  destruct (is_str (get message "method") "tools/list"); [intros H; now elim H |].
  destruct (is_str (get message "method") "tools/call") eqn:Ec;
    [| intros H; now elim H].
  pose proof (post_tools_call_log e message log) as Hlog.
  destruct (post_tools_call_reply e message log) as (r & l & Hr & _).
  rewrite Hr in *. cbn [snd] in *. subst l.
  destruct (is_nullish (get message "params")); [intros H; now elim H |].
  destruct (tool_of_name (get (get message "params") "name")) as [t |] eqn:Et;
    [| intros H; now elim H].
  apply tool_of_name_Some in Et. rewrite tool_run_log. unfold token_present, url_parses.
  destruct (zod_parse (tool_input t) _) as [parsed | perr] eqn:Ep;
    [| intros H; now elim H].
  destruct (env_truthy (GROWPANEL_API_TOKEN e)) eqn:Etok; [| intros H; now elim H].
  cbn [andb].
  destruct (URL_canParse e _ _) eqn:Eparse; [| intros H; now elim H].
  intros _. split; [exact Em |]. split; [exact Eu |].
  exists message, t, parsed. repeat split; auto.
  destruct (get message "method"); try discriminate Ec.
  simpl in Ec. apply String.eqb_eq in Ec. now subst.
Qed.
(** *** Malformed calls *)

(** X21. A [tools/call] without [params] (or with [params] null) is answered
    with error -32603, not with -32601 or a validation error, and nothing is
    sent upstream. *)
Theorem tools_call_without_params e text message log :
  JSON_parse text = Return message ->
  is_nullish message = false ->
  get message "method" = VStr "tools/call" ->
  is_nullish (get message "params") = true ->
  exists d,
    post_events e text log
    = (Return (mkReply 200 [("Content-Type", "application/json")]
                 (mkRpc "2.0" (get message "id")
                    (Failure (mkRpcError (-32603) "Internal error" (Some d))))), log).
Proof.
  intros Hj Hn Hm Hp. eexists.
  rewrite (post_events_parsed JSON_parse JSON_stringify zod_message mrr_report _ _ _ _ Hj).
  unfold handle_message_def. rewrite Hn, Hm. cbn [is_str String.eqb Ascii.eqb Bool.eqb].
  change (handle_message_def JSON_parse JSON_stringify zod_message mrr_report) with handle_message.
  rewrite post_tools_call_cases. cbv zeta. rewrite Hp. reflexivity.
Qed.

(** X20. On [POST /events] a [tools/call] whose name is none of the three
    registered names, a string or not, is answered with status 200; no tool
    runs and nothing is sent upstream.  The error is -32601 with the string
    form of the name in the message; when the name has no string form, as
    an object with a [toString] property of its own, the conversion throws
    inside the [try] and the error is -32603. *)
Theorem unknown_tool_refused_on_post e text message log :
  JSON_parse text = Return message ->
  is_nullish message = false ->
  get message "method" = VStr "tools/call" ->
  is_nullish (get message "params") = false ->
  tool_of_name (get (get message "params") "name") = None ->
  post_events e text log
  = (Return (mkReply 200 [("Content-Type", "application/json")]
               (mkRpc "2.0" (get message "id")
                  (Failure
                     match to_js_string (get (get message "params") "name") with
                     | Return name => mkRpcError (-32601) ("Unknown tool: " ++ name) None
                     | Throw err =>
                         mkRpcError (-32603) "Internal error" (Some (error_message err))
                     end))), log).
Proof.
  intros Hj Hn Hm Hp Ht.
  rewrite (post_events_parsed JSON_parse JSON_stringify zod_message mrr_report _ _ _ _ Hj).
  unfold handle_message_def. rewrite Hn, Hm. cbn [is_str String.eqb Ascii.eqb Bool.eqb].
  change (handle_message_def JSON_parse JSON_stringify zod_message mrr_report) with handle_message.
  rewrite post_tools_call_cases. cbv zeta. rewrite Hp, Ht.
  destruct (to_js_string (get (get message "params") "name")); reflexivity.
Qed.

Lemma zod_parse_field_rejects_non_string ty path v :
  is_string v = false -> is_undefined v = false ->
  exists i rest, zod_parse_field ty path v = inr (i :: rest).
Proof.
  intros Hs Hu.
  induction ty as [checks | values | ty IH | ty IH d | ty IH d]; simpl.
  - destruct v; try discriminate; eauto.
  - destruct v; try discriminate; eauto.
  - destruct v; try discriminate; exact IH.
  - destruct v; try discriminate; exact IH.
  - exact IH.
Qed.

(** X8. The contracts take strings only. A field of the contract that is
    present with any other value, [null] included, makes [run] throw the
    validation error before anything is sent. *)
Theorem non_string_field_rejected t e fields k log :
  In k (map fst (tool_input t)) ->
  is_string (lookup k fields) = false ->
  is_undefined (lookup k fields) = false ->
  exists issues, tool_run t e (VObj fields) log = (Throw (ZodError issues), log).
Proof.
  intros Hk Hs Hu. apply in_map_iff in Hk. destruct Hk as ([k1 ty] & <- & Hin).
  destruct (zod_parse_field_rejects_non_string ty k1 _ Hs Hu) as (i & rest & Hf).
  destruct (zod_parse_issue _ _ _ _ _ _ Hin Hf) as (issues & Hp).
  exists issues.
  now apply (tool_run_parse_throws JSON_parse JSON_stringify mrr_report).
Qed.

(** X9. [arguments] must be an object. When a call leaves it out, or passes
    anything else, every tool throws the validation error with nothing sent,
    although each field of the contract is optional; the streaming handler
    throws it on, [POST /events] answers -32603. *)
Theorem arguments_must_be_an_object t e id args log :
  (forall fields, args <> VObj fields) ->
  exists issues,
    tool_run t e args log = (Throw (ZodError issues), log)
    /\ CallTool_handler e (tool_name t) args log = (Throw (ZodError issues), log)
    /\ post_tools_call e (call_message id (VStr (tool_name t)) args) log
       = (Return (mkRpc "2.0" id
                    (Failure (mkRpcError (-32603) "Internal error"
                                (Some (zod_message issues))))), log)
    /\ (args = VUndefined ->
        post_tools_call e
          (VObj [("jsonrpc", VStr "2.0"); ("id", id); ("method", VStr "tools/call");
                 ("params", VObj [("name", VStr (tool_name t))])]) log
        = (Return (mkRpc "2.0" id
                     (Failure (mkRpcError (-32603) "Internal error"
                                 (Some (zod_message issues))))), log)).
Proof.
  intros Hno.
  assert (exists issues, zod_parse (tool_input t) args = Throw (ZodError issues))
    as (issues & Hp).
  { destruct args; simpl; eauto. now elim (Hno fields). }
  exists issues.
  pose proof (tool_run_parse_throws JSON_parse JSON_stringify mrr_report t e args _ log Hp)
    as Hrun.
  assert (Hs : CallTool_handler e (tool_name t) args log = (Throw (ZodError issues), log)).
  { rewrite (CallTool_registered JSON_parse JSON_stringify mrr_report).
    now apply wrapTool_throws. }
  split; [exact Hrun |]. split; [exact Hs |]. split.
  - rewrite transports_agree_on_registered_tools_aux, Hs. reflexivity.
  - intros ->. rewrite post_tools_call_cases. cbv zeta.
    replace (tool_of_name _) with (Some t) by (destruct t; reflexivity).
    cbn [get lookup String.eqb Ascii.eqb Bool.eqb is_nullish].
    replace (lookup "arguments" [("name", VStr (tool_name t))]) with VUndefined
      by reflexivity.
    rewrite (wrapTool_throws JSON_stringify _ _ _ _ _ Hrun). reflexivity.
Qed.
(** *** Outcomes of a run *)

Lemma tool_callApi_outcome t e args parsed log :
  zod_parse (tool_input t) args = Return parsed ->
  token_present e ->
  url_parses e (tool_endpoint t) ->
  callApi e (tool_endpoint t) (tool_filters t e parsed) log
  = (match upstream e (api_request e (tool_endpoint t) (tool_filters t e parsed)) with
     | NetworkFailure err => Throw err
     | Responded resp =>
         if negb (ok resp) then
           Throw (Error ("API call failed: " ++ Z_to_string (status resp) ++ " "
                         ++ statusText resp ++ " - " ++ body resp))
         else JSON_parse (body resp)
     end, (log ++ [api_request e (tool_endpoint t) (tool_filters t e parsed)])%list).
Proof.
  intros Hp Ht Hu. apply (callApi_outcome JSON_parse); [exact Ht | exact Hu |].
  now apply tool_filters_stringifiable with args.
Qed.

(** X12. getLeads and getCohorts hand the upstream payload on unvalidated:
    when the request is sent and gets a 2xx answer whose body parses,
    whatever it parses to, the result is one text block holding its
    serialization; [wrapTool] leaves it as it is and [POST /events] returns
    it as the result. *)
Theorem passthrough_tools_return_payload t e id args parsed resp v log :
  t <> GetMRR ->
  zod_parse (tool_input t) args = Return parsed ->
  token_present e ->
  url_parses e (tool_endpoint t) ->
  upstream e (api_request e (tool_endpoint t) (tool_filters t e parsed)) = Responded resp ->
  ok resp = true ->
  JSON_parse (body resp) = Return v ->
  let envelope := VObj [("content", VArr [text_block (JSON_stringify v)])] in
  let log' := (log ++ [api_request e (tool_endpoint t) (tool_filters t e parsed)])%list in
  tool_run t e args log = (Return envelope, log')
  /\ wrapTool (tool_run t e) args log = (Return envelope, log')
  /\ post_tools_call e (call_message id (VStr (tool_name t)) args) log
     = (Return (mkRpc "2.0" id (Result envelope)), log').
Proof.
  intros Ht Hp Htok Hurl Hup Hok Hj envelope log'.
  assert (Hrun : tool_run t e args log = (Return envelope, log')).
  { rewrite (tool_run_parsed _ _ _ _ _ Hp). unfold bind.
    rewrite (tool_callApi_outcome _ _ _ _ _ Hp Htok Hurl), Hup, Hok, Hj. cbn [negb].
    destruct t; [now elim Ht | reflexivity | reflexivity]. }
  assert (Hw : wrapTool (tool_run t e) args log = (Return envelope, log')).
  { rewrite (wrapTool_returns JSON_stringify _ _ _ _ _ Hrun). reflexivity. }
  split; [exact Hrun |]. split; [exact Hw |].
  rewrite (post_tools_call_registered JSON_parse JSON_stringify zod_message mrr_report).
  now rewrite Hw.
Qed.

(** X13. What goes wrong after the request has left reaches the caller as it
    is: a failure of the network, or a 2xx body that is not JSON, makes [run]
    throw that very error, one request having been sent; the streaming
    handler throws it on and [POST /events] answers -32603 with its message. *)
Theorem failures_after_sending_propagate t e id args parsed err log :
  zod_parse (tool_input t) args = Return parsed ->
  token_present e ->
  url_parses e (tool_endpoint t) ->
  (upstream e (api_request e (tool_endpoint t) (tool_filters t e parsed))
   = NetworkFailure err
   \/ exists resp,
        upstream e (api_request e (tool_endpoint t) (tool_filters t e parsed))
        = Responded resp
        /\ ok resp = true /\ JSON_parse (body resp) = Throw err) ->
  let log' := (log ++ [api_request e (tool_endpoint t) (tool_filters t e parsed)])%list in
  tool_run t e args log = (Throw err, log')
  /\ CallTool_handler e (tool_name t) args log = (Throw err, log')
  /\ post_tools_call e (call_message id (VStr (tool_name t)) args) log
     = (Return (mkRpc "2.0" id
                  (Failure (mkRpcError (-32603) "Internal error"
                              (Some (error_message err))))), log').
Proof.
  intros Hp Htok Hurl Hup log'.
  assert (Hrun : tool_run t e args log = (Throw err, log')).
  { rewrite (tool_run_parsed _ _ _ _ _ Hp). unfold bind.
    rewrite (tool_callApi_outcome _ _ _ _ _ Hp Htok Hurl).
    destruct Hup as [-> | (resp & -> & Hok & Hj)]; [reflexivity |].
    now rewrite Hok, Hj. }
  assert (Hs : CallTool_handler e (tool_name t) args log = (Throw err, log')).
  { rewrite (CallTool_registered JSON_parse JSON_stringify mrr_report).
    now apply wrapTool_throws. }
  split; [exact Hrun |]. split; [exact Hs |].
  now rewrite transports_agree_on_registered_tools_aux, Hs.
Qed.

(** X1. [callApi] treats an empty [GROWPANEL_API_TOKEN] like a missing one,
    and throws its configuration error with nothing sent in exactly those
    two cases. *)
Theorem callApi_configuration_error_iff e endpoint params log :
  callApi e endpoint params log
  = (Throw (Error "GROWPANEL_API_KEY environment variable is required"), log)
  <-> GROWPANEL_API_TOKEN e = None \/ GROWPANEL_API_TOKEN e = Some "".
Proof.
  split.
  - intros H.
    destruct (GROWPANEL_API_TOKEN e) as [token |] eqn:Et; [| now left].
    destruct (String.eqb token "") eqn:E;
      [apply String.eqb_eq in E; subst; now right |].
    exfalso.
    assert (Htok : token_present e) by (unfold token_present; rewrite Et; simpl; now rewrite E).
    destruct (URL_canParse e ("/reports/" ++ endpoint)
                (env_or (GROWPANEL_API_URL e) "https://api.growpanel.io")) eqn:Eu.
    + destruct (search_params params) as [query | err] eqn:Es.
      * pose proof (callApi_log JSON_parse e endpoint params log) as Hl.
        rewrite H in Hl. unfold token_present in Htok.
        rewrite Htok, Eu, Es in Hl. cbn [snd andb] in Hl.
        apply (f_equal (@List.length _)) in Hl.
        rewrite length_app in Hl. simpl in Hl. lia.
      * rewrite (proj2 (callApi_throws_before_fetch JSON_parse e endpoint params log Htok)
                   err Eu Es) in H.
        injection H as H. subst err.
        destruct (append_each_throws _ _ _ Es) as (key & _ & _ & Hkey).
        apply to_js_string_throws in Hkey. destruct Hkey as (m & Hm). discriminate Hm.
    + rewrite (proj1 (callApi_throws_before_fetch JSON_parse e endpoint params log Htok) Eu)
        in H.
      discriminate H.
  - intros [H | H]; unfold callApi_def; rewrite H; reflexivity.
Qed.

(** *** wrapTool *)

Lemma wrap_result_content r : truthy (get (wrap_result JSON_stringify r) "content") = true.
Proof.
  unfold wrap_result.
  destruct (truthy r && truthy (get r "content")) eqn:E.
  - apply andb_true_iff in E. exact (proj2 E).
  - destruct r; reflexivity.
Qed.

Lemma wrap_result_truthy r : truthy (wrap_result JSON_stringify r) = true.
Proof.
  unfold wrap_result.
  destruct (truthy r && truthy (get r "content")) eqn:E.
  - apply andb_true_iff in E. exact (proj1 E).
  - destruct r; reflexivity.
Qed.

(** X17. Whatever [wrapTool] returns has a truthy [content], so wrapping is
    idempotent: a wrapped tool wrapped again behaves as the wrapped tool. *)
Theorem wrapTool_idempotent toolFn params log :
  wrapTool (wrapTool toolFn) params log = wrapTool toolFn params log
  /\ forall result log',
       wrapTool toolFn params log = (Return result, log') ->
       truthy (get result "content") = true.
Proof.
  destruct (toolFn params log) as [[r | err] l] eqn:E.
  - rewrite (wrapTool_returns JSON_stringify _ _ _ _ _ E). split.
    + rewrite (wrapTool_returns JSON_stringify _ _ _ _ _
                 (wrapTool_returns JSON_stringify _ _ _ _ _ E)).
      unfold wrap_result at 1.
      now rewrite wrap_result_truthy, wrap_result_content.
    + intros result log' H. injection H as <- _. apply wrap_result_content.
  - rewrite (wrapTool_throws JSON_stringify _ _ _ _ _ E). split.
    + now rewrite (wrapTool_throws JSON_stringify _ _ _ _ _
                     (wrapTool_throws JSON_stringify _ _ _ _ _ E)).
    + discriminate.
Qed.

(** *** The catalog and the dispatch *)

(** X19. The names [tools/list] advertises are the names [tools/call]
    dispatches: the streaming handler runs the tool of an advertised name and
    refuses every other name without running anything, and the catalog of
    [POST /events] lists the same names with the same descriptions. *)
Theorem advertised_tools_are_the_callable_ones name e args log :
  (In name (map se_name stream_tools) ->
   exists t, name = tool_name t
             /\ CallTool_handler e name args log = wrapTool (tool_run t e) args log)
  /\ (~ In name (map se_name stream_tools) ->
      CallTool_handler e name args log = (Throw (Error ("Unknown tool: " ++ name)), log))
  /\ match post_tools with
     | VArr entries => map (fun en => (get en "name", get en "description")) entries
     | _ => []
     end
     = map (fun en => (VStr (se_name en), VStr (se_description en))) stream_tools.
Proof.
  split; [| split].
  - intros [<- | [<- | [<- | []]]];
      [exists GetMRR | exists GetLeads | exists GetCohorts]; split; reflexivity.
  - intros Hn. apply (CallTool_unknown JSON_parse JSON_stringify mrr_report).
    unfold registered.
    destruct (String.eqb name (tool_name GetMRR)) eqn:E1;
      [apply String.eqb_eq in E1; elim Hn; subst; simpl; auto |].
    destruct (String.eqb name (tool_name GetLeads)) eqn:E2;
      [apply String.eqb_eq in E2; elim Hn; subst; simpl; auto |].
    destruct (String.eqb name (tool_name GetCohorts)) eqn:E3;
      [apply String.eqb_eq in E3; elim Hn; subst; simpl; auto |].
    reflexivity.
  - reflexivity.
Qed.
End MoreServerProperties.

(** *** The input contracts *)

(** X7. The date pattern is lexical only: a date passes exactly when it is
    eight digits, a hyphen and eight digits; nothing checks that the two
    parts are dates of the calendar or that the first precedes the second. *)
Theorem date_pattern_is_lexical s :
  regex_test date_regex s = true
  <-> exists a b,
        s = a ++ "-" ++ b
        /\ digits_of_width 8 a = true /\ digits_of_width 8 b = true.
Proof.
  split.
  - apply date_regex_sound.
  - intros (a & b & -> & Ha & Hb). now apply date_regex_accepts.
Qed.

Lemma zod_parse_fields_ext sh i1 i2 :
  (forall k, In k (map fst sh) ->
             lookup k i1 = lookup k i2 /\ has_key k i1 = has_key k i2) ->
  zod_parse_fields sh i1 = zod_parse_fields sh i2.
Proof.
  induction sh as [| [k t] sh IH]; simpl; intros H; [reflexivity |].
  rewrite IH by (intros k1 Hk1; apply H; now right).
  destruct (H k (or_introl eq_refl)) as [-> ->]. reflexivity.
Qed.

(** X10. Validation looks at the fields of the contract only: two argument
    objects that agree on those fields validate alike, so keys the contract
    does not know are dropped without an error and the order of the keys
    does not matter. *)
Theorem unknown_arguments_are_ignored t i1 i2 :
  (forall k, In k (map fst (tool_input t)) ->
             lookup k i1 = lookup k i2 /\ has_key k i1 = has_key k i2) ->
  zod_parse (tool_input t) (VObj i1) = zod_parse (tool_input t) (VObj i2).
Proof.
  intros H. unfold zod_parse. now rewrite (zod_parse_fields_ext _ i1 i2 H).
Qed.

Lemma zod_parse_fields_out_kept sh input k v :
  In (k, v) (fst (zod_parse_fields sh input)) ->
  exists t, In (k, t) sh /\ zod_parse_field t k (lookup k input) = inl v
            /\ negb (is_undefined v) || has_key k input = true.
Proof.
  induction sh as [| [k1 t1] sh IH]; simpl; [intros [] |].
  destruct (zod_parse_fields sh input) as [out issues]. simpl in IH.
  destruct (zod_parse_field t1 k1 (lookup k1 input)) as [v1 | i] eqn:E.
  - destruct (negb (is_undefined v1) || has_key k1 input) eqn:Ek; simpl.
    + intros [Heq | Hin].
      * inversion Heq; subst. exists t1. auto.
      * destruct (IH Hin) as (t & Ht & Hp). exists t. tauto.
    + intros Hin. destruct (IH Hin) as (t & Ht & Hp). exists t. tauto.
  - simpl. intros Hin. destruct (IH Hin) as (t & Ht & Hp). exists t. tauto.
Qed.

Lemma zod_parse_field_undefined_result t path u :
  zod_parse_field t path u = inl VUndefined -> u = VUndefined.
Proof.
  revert u. induction t as [checks | values | t IH | t IH d | t IH d]; intros u H; simpl in H.
  - destruct u; try discriminate.
    destruct (flat_map (check_issue path s) checks); discriminate.
  - destruct u; try discriminate. destruct (mem s values); discriminate.
  - destruct u; try reflexivity; apply IH in H; exact H.
  - destruct u; try reflexivity; apply IH in H; exact H.
  - apply IH in H. exact H.
Qed.

(** Parsing what a field parser returned returns it again, unless the value
    came from a default. *)
Lemma zod_parse_field_again t path u v :
  zod_parse_field t path u = inl v ->
  is_undefined v = false ->
  zod_parse_field t path v = inl v.
Proof.
  intros H Hu. destruct (zod_parse_field_inl _ _ _ _ H) as [-> | (s & -> & Hs)];
    [discriminate | now apply zod_parse_field_accepts].
Qed.

Lemma zod_parse_fields_kept_key sh input k t v :
  NoDup (map fst sh) ->
  In (k, t) sh ->
  zod_parse_field t k (lookup k input) = inl v ->
  negb (is_undefined v) || has_key k input = true ->
  In (k, v) (fst (zod_parse_fields sh input)).
Proof.
  induction sh as [| [k1 t1] sh IH]; simpl; intros Hnd Hin Hp Hc; [destruct Hin |].
  inversion Hnd as [| ? ? Hk Hnd1]; subst.
  destruct (zod_parse_fields sh input) as [out issues] eqn:E. simpl in IH.
  destruct Hin as [Heq | Hin].
  - inversion Heq; subst. rewrite Hp, Hc. simpl. now left.
  - specialize (IH Hnd1 Hin Hp Hc).
    destruct (zod_parse_field t1 k1 (lookup k1 input)) as [v1 | i]; simpl; [| exact IH].
    destruct (negb (is_undefined v1) || has_key k1 input); simpl; auto.
Qed.

Lemma lookup_absent k fields :
  ~ In k (map fst fields) -> lookup k fields = VUndefined /\ has_key k fields = false.
Proof.
  induction fields as [| [k1 v1] rest IH]; simpl; intros H; [auto |].
  destruct (String.eqb k k1) eqn:E.
  - apply String.eqb_eq in E. subst. elim H. now left.
  - simpl. apply IH. tauto.
Qed.

Lemma zod_parse_fields_again sh input parsed :
  NoDup (map fst sh) ->
  zod_parse_fields sh input = (parsed, []) ->
  forall sub,
    incl sub sh ->
    zod_parse_fields sub parsed = zod_parse_fields sub input.
Proof.
  intros Hnd E. induction sub as [| [k t] sub IH]; intros Hsub; [reflexivity |].
  simpl. rewrite IH by (intros x Hx; apply Hsub; now right).
  assert (Hin : In (k, t) sh) by (apply Hsub; now left).
  destruct (zod_parse_fields_all_ok _ _ _ _ _ E Hin) as (v & Hv). rewrite Hv.
  pose proof (zod_parse_fields_nodup sh input Hnd) as Hnp. rewrite E in Hnp. simpl in Hnp.
  assert (Hfst : fst (zod_parse_fields sh input) = parsed) by now rewrite E.
  destruct (negb (is_undefined v) || has_key k input) eqn:Ec.
  - pose proof (zod_parse_fields_kept_key sh input k t v Hnd Hin Hv Ec) as Hp.
    rewrite Hfst in Hp.
    rewrite (lookup_of_in _ _ _ Hnp Hp).
    assert (Hk : has_key k parsed = true)
      by (apply has_key_in, in_map_iff; exists (k, v); auto).
    assert (Hagain : zod_parse_field t k v = inl v).
    { destruct (is_undefined v) eqn:Eu.
      - destruct v; try discriminate Eu.
        pose proof (zod_parse_field_undefined_result _ _ _ Hv) as Hlu.
        now rewrite Hlu in Hv.
      - now apply zod_parse_field_again with (lookup k input). }
    now rewrite Hagain, Hk, orb_true_r.
  - apply orb_false_iff in Ec. destruct Ec as [Eu Ek]. apply negb_false_iff in Eu.
    destruct v; try discriminate Eu.
    pose proof (zod_parse_field_undefined_result _ _ _ Hv) as Hlu.
    assert (Hno : ~ In k (map fst parsed)).
    { intros Hk. apply in_map_iff in Hk. destruct Hk as ([k1 v1] & Hk1 & Hkv).
      simpl in Hk1. subst k1. rewrite <- Hfst in Hkv.
      destruct (zod_parse_fields_out_kept _ _ _ _ Hkv) as (t1 & Ht1 & Hp1 & Hc1).
      pose proof (field_type_of_in _ _ _ Hnd Ht1) as F1.
      pose proof (field_type_of_in _ _ _ Hnd Hin) as F2.
      rewrite F1 in F2. injection F2 as ->.
      rewrite Hv in Hp1. injection Hp1 as <-.
      simpl in Hc1. rewrite Ek in Hc1. discriminate. }
    destruct (lookup_absent _ _ Hno) as [-> ->].
    rewrite Hlu in Hv. now rewrite Hv.
Qed.

(** X11. Validation is idempotent: the filters a contract returns validate
    again, to themselves, so a default is applied once and a validated
    object can be passed on to code that validates again. *)
Theorem validated_filters_validate_again t args parsed :
  zod_parse (tool_input t) args = Return parsed ->
  zod_parse (tool_input t) (VObj parsed) = Return parsed.
Proof.
  intros H. destruct (zod_parse_Return _ _ _ H) as (input & -> & E).
  unfold zod_parse.
  rewrite (zod_parse_fields_again _ _ _ (tool_input_nodup t) E (tool_input t)
             (incl_refl _)).
  now rewrite E.
Qed.

(** *** The synthesized date *)

(** X6. On a host whose time zone has one fixed offset, a tool called without
    a date synthesizes two dates of eight digits exactly 365 days apart,
    ending today: getLeads and getCohorts count today in local time; getMRR
    counts it in UTC, and reads the clock twice, so for getMRR this holds
    when both readings fall on the same day, in local time and in UTC; all
    this for years of four digits. *)
Theorem default_date_on_fixed_offset_host (e : env) (off : Z) :
  LocalTZA e = (fun _ _ => off) ->
  (Day (now_again e + off) = Day (now e + off) ->
   Day (now_again e) = Day (now e) ->
   0 <= year_of_day (Day (now e) - 365) <= 9999 ->
   0 <= year_of_day (Day (now e)) <= 9999 ->
   getMRR_default_date e
   = yyyymmdd (Day (now e) - 365) ++ "-" ++ yyyymmdd (Day (now e))
   /\ regex_test date_regex (getMRR_default_date e) = true)
  /\ (1 <= year_of_day (Day (now e + off) - 365) <= 9999 ->
      1 <= year_of_day (Day (now e + off)) <= 9999 ->
      datefns_default_date e
      = yyyymmdd (Day (now e + off) - 365) ++ "-" ++ yyyymmdd (Day (now e + off))
      /\ regex_test date_regex (datefns_default_date e) = true).
Proof. apply default_date_fixed_offset. Qed.

(** *** The output contract of getMRR *)

Lemma out_parse_field_same t path v x :
  out_parse_field t path v = inl x -> x = v.
Proof.
  revert v. induction t as [| | t IH | t IH]; intros v H; simpl in H.
  - destruct v; try discriminate; now injection H.
  - destruct v; try discriminate; now injection H.
  - destruct v; try (now injection H); apply IH in H; exact H.
  - destruct v; try (now injection H); apply IH in H; exact H.
Qed.

Lemma out_parse_field_inr t path v l :
  out_parse_field t path v = inr l -> l <> [].
Proof.
  revert v. induction t as [| | t IH | t IH]; intros v H; simpl in H.
  - destruct v; try discriminate; injection H as <-; discriminate.
  - destruct v; try discriminate; injection H as <-; discriminate.
  - destruct v; try discriminate; apply IH in H; exact H.
  - destruct v; try discriminate; apply IH in H; exact H.
Qed.

Lemma out_parse_fields_out sh input k x :
  In (k, x) (fst (out_parse_fields sh input)) ->
  In k (map fst sh) /\ x = lookup k input.
Proof.
  induction sh as [| [k1 t1] sh IH]; simpl; [intros [] |].
  destruct (out_parse_fields sh input) as [out issues]. simpl in IH.
  destruct (out_parse_field t1 k1 (lookup k1 input)) as [v1 | i] eqn:E.
  - apply out_parse_field_same in E. subst v1.
    destruct (negb (is_undefined (lookup k1 input)) || has_key k1 input); simpl.
    + intros [Heq | Hin]; [inversion Heq; subst; auto | destruct (IH Hin); auto].
    + intros Hin. destruct (IH Hin); auto.
  - simpl. intros Hin. destruct (IH Hin); auto.
Qed.

Lemma out_parse_fields_nodup sh input :
  NoDup (map fst sh) -> NoDup (map fst (fst (out_parse_fields sh input))).
Proof.
  induction sh as [| [k t] sh IH]; simpl; intros Hnd; [constructor |].
  inversion Hnd as [| ? ? Hk Hnd1]; subst. specialize (IH Hnd1).
  pose proof (fun x => out_parse_fields_out sh input k x) as Hin.
  destruct (out_parse_fields sh input) as [out issues]. simpl in *.
  destruct (out_parse_field t k (lookup k input)) as [v | i]; simpl; [| exact IH].
  destruct (negb (is_undefined v) || has_key k input); simpl; [| exact IH].
  constructor; [| exact IH]. intros H. apply in_map_iff in H.
  destruct H as ([k1 x] & Hk1 & Hx). simpl in Hk1. subst k1.
  apply Hk. now apply (Hin x).
Qed.

(** When no issue is raised, every field parsed, and every field whose value
    is defined is in the output. *)
Lemma out_parse_fields_ok sh input out k t :
  out_parse_fields sh input = (out, []) ->
  In (k, t) sh ->
  out_parse_field t k (lookup k input) = inl (lookup k input)
  /\ (is_undefined (lookup k input) = false -> In (k, lookup k input) out).
Proof.
  revert out. induction sh as [| [k1 t1] sh IH]; simpl; intros out E Hin; [destruct Hin |].
  destruct (out_parse_fields sh input) as [out1 issues1].
  destruct (out_parse_field t1 k1 (lookup k1 input)) as [v1 | i] eqn:Ef.
  - pose proof (out_parse_field_same _ _ _ _ Ef) as ->.
    destruct (negb (is_undefined (lookup k1 input)) || has_key k1 input) eqn:Ec;
      injection E as <- ->.
    + destruct Hin as [Heq | Hin].
      * inversion Heq; subst. split; [exact Ef | intros _; now left].
      * destruct (IH _ eq_refl Hin) as [H1 H2]. split; [exact H1 | intros Hu; right; auto].
    + destruct Hin as [Heq | Hin].
      * inversion Heq; subst. split; [exact Ef |].
        intros Hu. rewrite Hu in Ec. discriminate.
      * now apply IH.
  - injection E as _ E. apply app_eq_nil in E. destruct E as [-> _].
    now apply out_parse_field_inr in Ef.
Qed.

Lemma getMRROutput_nodup : NoDup (map fst getMRROutput).
Proof.
  assert (H : forall l, (fix distinct l :=
                           match l with
                           | [] => true
                           | k :: rest => negb (existsb (String.eqb k) rest) && distinct rest
                           end) l = true -> NoDup l).
  { induction l as [| k rest IH]; simpl; intros H; constructor;
      apply andb_true_iff in H; destruct H as [Hk Hr].
    - intros Hin. apply negb_true_iff in Hk.
      assert (existsb (String.eqb k) rest = true)
        by (apply existsb_exists; exists k; split; [exact Hin | apply String.eqb_refl]).
      congruence.
    - auto. }
  apply H. vm_compute. reflexivity.
Qed.

Lemma out_parse_object_validated item v :
  out_parse_object getMRROutput item = inl v -> validated_item item v.
Proof.
  unfold out_parse_object. destruct item; try discriminate.
  destruct (out_parse_fields getMRROutput fields) as [out issues] eqn:E.
  destruct issues; [| discriminate]. intros H. injection H as <-.
  exists fields, out. split; [reflexivity |]. split; [reflexivity |].
  split.
  { pose proof (out_parse_fields_nodup getMRROutput fields getMRROutput_nodup) as Hn.
    now rewrite E in Hn. }
  split.
  { intros k x Hin. apply (out_parse_fields_out getMRROutput fields). now rewrite E. }
  split.
  - intros k Hk. destruct (out_parse_fields_ok _ _ _ _ _ E Hk) as [Hf Hin].
    simpl in Hf. destruct (lookup k fields) eqn:El; try discriminate.
    exists s. split; [reflexivity |]. now apply Hin.
  - intros k Hk. destruct (out_parse_fields_ok _ _ _ _ _ E Hk) as [Hf Hin].
    simpl in Hf. destruct (lookup k fields) eqn:El; try discriminate.
    exists n. split; [reflexivity |]. now apply Hin.
Qed.

Lemma out_parse_items_validated items vs :
  out_parse_items getMRROutput items = (vs, []) -> Forall2 validated_item items vs.
Proof.
  revert vs. induction items as [| item rest IH]; simpl; intros vs E.
  - injection E as <-. constructor.
  - destruct (out_parse_items getMRROutput rest) as [vs1 issues1].
    destruct (out_parse_object getMRROutput item) as [v | i] eqn:Eo.
    + injection E as <- ->. constructor; [now apply out_parse_object_validated | now apply IH].
    + injection E as _ E. apply app_eq_nil in E. destruct E as [-> ->].
      exfalso. unfold out_parse_object in Eo. destruct item; try discriminate.
      destruct (out_parse_fields getMRROutput fields) as [o [| i0 rest0]]; discriminate.
Qed.

Lemma getMRRApiResponse_parse_items apiResponse result :
  getMRRApiResponse_parse apiResponse = Return result ->
  exists items,
    get apiResponse "result" = VArr items
    /\ Forall2 validated_item items result.
Proof.
  unfold getMRRApiResponse_parse. destruct apiResponse; try discriminate.
  simpl. destruct (lookup "result" fields) as [| | | | | items |]; try discriminate.
  destruct (out_parse_items getMRROutput items) as [vs issues] eqn:E.
  destruct issues; [| discriminate]. intros H. injection H as <-.
  exists items. split; [reflexivity | now apply out_parse_items_validated].
Qed.

(** X14. getMRR accepts an upstream payload only as an object whose [result]
    is an array of objects that each hold the two dates as strings and every
    required metric as a number; what it keeps of an item is the item cut
    down to the fields of the contract. *)
Theorem mrr_payload_validated apiResponse result :
  getMRRApiResponse_parse apiResponse = Return result ->
  exists items,
    get apiResponse "result" = VArr items
    /\ Forall2 validated_item items result.
Proof. apply getMRRApiResponse_parse_items. Qed.

Lemma getMRRApiResponse_parse_throws apiResponse err :
  getMRRApiResponse_parse apiResponse = Throw err -> exists issues, err = ZodError issues.
Proof.
  unfold getMRRApiResponse_parse. destruct apiResponse; try (intros H; injection H as <-; eauto).
  destruct (lookup "result" fields); try (intros H; injection H as <-; eauto).
  destruct (out_parse_items getMRROutput items) as [vs [| i rest]]; [discriminate |].
  intros H; injection H as <-; eauto.
Qed.

Lemma Forall2_in_left {A B} (R : A -> B -> Prop) l l' x :
  Forall2 R l l' -> In x l -> exists y, In y l' /\ R x y.
Proof.
  induction 1 as [| a b l l' Hab Hl IH]; simpl; [intros [] |].
  intros [<- | Hin]; [eauto |]. destruct (IH Hin) as (y & Hy & Hr). eauto.
Qed.

Lemma validated_item_number item v k :
  validated_item item v -> In (k, ONumber) getMRROutput -> exists n, get item k = VNum n.
Proof.
  intros (fields & out & -> & _ & _ & _ & _ & Hn) Hk.
  destruct (Hn k Hk) as (n & Hl & _). exists n. exact Hl.
Qed.

Section MrrProperties.
Variable JSON_parse : string -> outcome value.
Variable JSON_stringify : value -> value.
Variable zod_message : list issue -> string.
Variable item_section : value -> string.

Local Abbreviation report := (getMRR_report JSON_stringify item_section).
Local Abbreviation run := (getMRR_run JSON_parse report).
Local Abbreviation post_tools_call :=
  (post_tools_call JSON_parse JSON_stringify zod_message report).

Lemma getMRR_run_answered e args parsed resp payload log :
  zod_parse getMRRInput args = Return parsed ->
  token_present e ->
  url_parses e "mrr" ->
  upstream e (api_request e "mrr" (tool_filters GetMRR e parsed)) = Responded resp ->
  ok resp = true ->
  JSON_parse (body resp) = Return payload ->
  run e args log
  = (report payload, (log ++ [api_request e "mrr" (tool_filters GetMRR e parsed)])%list).
Proof.
  intros Hp Htok Hurl Hup Hok Hj.
  change (run e args log)
    with (tool_run JSON_parse JSON_stringify report GetMRR e args log).
  rewrite (tool_run_parsed JSON_parse JSON_stringify report GetMRR e args parsed log Hp).
  unfold bind. cbn [tool_endpoint].
  rewrite (callApi_outcome JSON_parse _ _ _ _ Htok Hurl
             (tool_filters_stringifiable GetMRR e args parsed Hp)), Hup, Hok, Hj.
  reflexivity.
Qed.

(** X15. getMRR validates what the upstream sends. A 2xx payload with an item
    of [result] that lacks a required metric, or holds something other than
    a number there, makes [run] throw the validation error after the request
    has been sent, and [POST /events] answers -32603. *)
Theorem mrr_payload_rejected e id args parsed resp payload items item k log :
  zod_parse getMRRInput args = Return parsed ->
  token_present e ->
  url_parses e "mrr" ->
  upstream e (api_request e "mrr" (tool_filters GetMRR e parsed)) = Responded resp ->
  ok resp = true ->
  JSON_parse (body resp) = Return payload ->
  get payload "result" = VArr items ->
  In item items ->
  In (k, ONumber) getMRROutput ->
  (forall n, get item k <> VNum n) ->
  let log' := (log ++ [api_request e "mrr" (tool_filters GetMRR e parsed)])%list in
  exists issues,
    run e args log = (Throw (ZodError issues), log')
    /\ post_tools_call e (call_message id (VStr "getMRR") args) log
       = (Return (mkRpc "2.0" id
                    (Failure (mkRpcError (-32603) "Internal error"
                                (Some (zod_message issues))))), log').
Proof.
  intros Hp Htok Hurl Hup Hok Hj Hres Hitem Hk Hbad log'.
  assert (exists issues, getMRRApiResponse_parse payload = Throw (ZodError issues))
    as (issues & Hthrow).
  { destruct (getMRRApiResponse_parse payload) as [result | err] eqn:E.
    - exfalso. destruct (getMRRApiResponse_parse_items _ _ E) as (items' & Hres' & Hall).
      rewrite Hres in Hres'. injection Hres' as <-.
      destruct (Forall2_in_left _ _ _ _ Hall Hitem) as (v & _ & Hv).
      destruct (validated_item_number _ _ _ Hv Hk) as (n & Hn).
      now apply (Hbad n).
    - destruct (getMRRApiResponse_parse_throws _ _ E) as (issues & ->). eauto. }
  exists issues.
  assert (Hrun : run e args log = (Throw (ZodError issues), log')).
  { rewrite (getMRR_run_answered _ _ _ _ _ _ Hp Htok Hurl Hup Hok Hj).
    unfold getMRR_report. now rewrite Hthrow. }
  split; [exact Hrun |].
  change (call_message id (VStr "getMRR") args)
    with (call_message id (VStr (tool_name GetMRR)) args).
  rewrite (post_tools_call_registered JSON_parse JSON_stringify zod_message report).
  cbn [tool_run].
  now rewrite (wrapTool_throws JSON_stringify _ _ _ _ _ Hrun).
Qed.

(** X16. On a payload that validates, getMRR returns two text blocks, the
    report and the raw data, and the raw data are the serialization of the
    validated items, cut down to the contract, not the payload as the
    upstream sent it; [wrapTool] hands the envelope on as it is. *)
Theorem mrr_report_envelope e id args parsed resp payload result raw log :
  zod_parse getMRRInput args = Return parsed ->
  token_present e ->
  url_parses e "mrr" ->
  upstream e (api_request e "mrr" (tool_filters GetMRR e parsed)) = Responded resp ->
  ok resp = true ->
  JSON_parse (body resp) = Return payload ->
  getMRRApiResponse_parse payload = Return result ->
  JSON_stringify (VArr result) = VStr raw ->
  let log' := (log ++ [api_request e "mrr" (tool_filters GetMRR e parsed)])%list in
  let envelope :=
    VObj [("content",
           VArr [ text_block
                    (VStr ("# MRR Report" ++ nl ++ nl
                           ++ concat "" (map item_section result)));
                  text_block
                    (VStr ("Raw data:" ++ nl ++ "```json" ++ nl
                           ++ raw ++ nl ++ "```")) ])] in
  wrapTool JSON_stringify (run e) args log = (Return envelope, log')
  /\ post_tools_call e (call_message id (VStr "getMRR") args) log
     = (Return (mkRpc "2.0" id (Result envelope)), log').
Proof.
  intros Hp Htok Hurl Hup Hok Hj Hv Hraw log' envelope.
  assert (Hrun : run e args log = (Return envelope, log')).
  { rewrite (getMRR_run_answered _ _ _ _ _ _ Hp Htok Hurl Hup Hok Hj).
    unfold getMRR_report. now rewrite Hv, Hraw. }
  assert (Hw : wrapTool JSON_stringify (run e) args log = (Return envelope, log')).
  { rewrite (wrapTool_returns JSON_stringify _ _ _ _ _ Hrun). reflexivity. }
  split; [exact Hw |].
  change (call_message id (VStr "getMRR") args)
    with (call_message id (VStr (tool_name GetMRR)) args).
  rewrite (post_tools_call_registered JSON_parse JSON_stringify zod_message report).
  cbn [tool_run]. now rewrite Hw.
Qed.
End MrrProperties.

(** *** Instances of the further properties *)

Lemma unknown_tool_refused_on_post_witness :
  sample_parse2 "call 42" = Return (call_message (VNum 7) (VNum 42) (VObj []))
  /\ post_events sample_parse2 sample_stringify sample_zod_message sample_mrr_report
       healthy "call 42" []
     = (Return (mkReply 200 [("Content-Type", "application/json")]
                  (mkRpc "2.0" (VNum 7)
                     (Failure (mkRpcError (-32601) "Unknown tool: 42" None)))), []).
Proof.
  split; [reflexivity |].
  apply (unknown_tool_refused_on_post sample_parse2 sample_stringify sample_zod_message
           sample_mrr_report healthy "call 42"
           (call_message (VNum 7) (VNum 42) (VObj [])) []); reflexivity.
Defined.

(** A number beyond 10^21 is named in exponential notation, and a name
    that is an object with a [toString] of its own is answered with -32603. *)
Example unknown_tool_named_by_a_large_number :
  post_events sample_parse2 sample_stringify sample_zod_message sample_mrr_report
    healthy "call 1e21" []
  = (Return (mkReply 200 [("Content-Type", "application/json")]
               (mkRpc "2.0" (VNum 8)
                  (Failure (mkRpcError (-32601) "Unknown tool: 1e+21" None)))), []).
Proof. vm_compute. reflexivity. Qed.

Example unknown_tool_named_by_an_object :
  post_events sample_parse2 sample_stringify sample_zod_message sample_mrr_report
    healthy "call object" []
  = (Return (mkReply 200 [("Content-Type", "application/json")]
               (mkRpc "2.0" (VNum 9)
                  (Failure (mkRpcError (-32603) "Internal error"
                              (Some "Cannot convert object to primitive value"))))), []).
Proof. vm_compute. reflexivity. Qed.

(** Scenario E: the upstream answers 500 with the body "rate limited". *)
Lemma upstream_failure_surfaces_witness :
  token_present failing
  /\ ok rate_limited = false
  /\ exists msg,
       contains msg "500" /\ contains msg "rate limited"
       /\ post_events sample_parse sample_stringify sample_zod_message sample_mrr_report
            failing "call getLeads" []
          = (Return (mkReply 200 [("Content-Type", "application/json")]
                       (mkRpc "2.0" (VNum 3)
                          (Failure (mkRpcError (-32603) "Internal error" (Some msg))))),
             [api_request failing "leads"
                (tool_filters GetLeads failing [("interval", VStr "month")])]).
Proof.
  split; [exact failing_token |]. split; [reflexivity |].
  destruct (upstream_failure_surfaces sample_parse sample_stringify sample_zod_message
              sample_mrr_report failing rate_limited failing_token eq_refl)
    as (msg & Hcode & _ & Hbody & _ & Hpost).
  exists msg. split; [exact Hcode |]. split; [exact Hbody |].
  exact (Hpost GetLeads (VNum 3) (VObj []) [("interval", VStr "month")]
           "call getLeads" [] eq_refl eq_refl eq_refl eq_refl).
Defined.

(** With a base URL that lacks its scheme nothing is sent: [new URL] throws
    before [fetch] is reached. *)
Example misconfigured_base_sends_nothing :
  tool_run sample_parse sample_stringify sample_mrr_report GetLeads misconfigured
    (VObj []) []
  = (Throw (TypeError "Invalid URL"), []).
Proof. vm_compute. reflexivity. Qed.

(** Two readings on either side of midnight at the end of a month: getMRR
    sets the day of the month read before midnight on the month read after
    it, and the range spans 334 days.  Two readings on either side of local
    midnight, one hour east of UTC: the start is printed a day early, and
    the range spans 366 days. *)
Example getMRR_default_date_across_midnight :
  getMRR_default_date around_midnight = "20250303-20260131"
  /\ days_from_civil 2026 1 31 - days_from_civil 2025 3 3 = 334
  /\ getMRR_default_date around_local_midnight = "20250114-20260115"
  /\ days_from_civil 2026 1 15 - days_from_civil 2025 1 14 = 366.
Proof. repeat split; vm_compute; reflexivity. Qed.

Lemma upstream_only_for_valid_tool_calls_witness :
  snd (httpServer sample_parse sample_stringify sample_zod_message sample_mrr_report
         healthy "POST" "/events" "call getLeads" []) <> []
  /\ exists t parsed,
       snd (httpServer sample_parse sample_stringify sample_zod_message sample_mrr_report
              healthy "POST" "/events" "call getLeads" [])
       = [api_request healthy (tool_endpoint t) (tool_filters t healthy parsed)].
Proof.
  assert (H : snd (httpServer sample_parse sample_stringify sample_zod_message
                     sample_mrr_report healthy "POST" "/events" "call getLeads" []) <> [])
    by (vm_compute; discriminate).
  split; [exact H |].
  destruct (upstream_only_for_valid_tool_calls sample_parse sample_stringify
              sample_zod_message sample_mrr_report healthy "POST" "/events"
              "call getLeads" [] H)
    as (_ & _ & message & t & parsed & _ & _ & _ & _ & _ & _ & Hlog).
  exists t, parsed. exact Hlog.
Defined.

Lemma tools_call_without_params_witness :
  sample_parse2 "call without params"
  = Return (VObj [("jsonrpc", VStr "2.0"); ("id", VNum 5); ("method", VStr "tools/call")])
  /\ exists d,
       post_events sample_parse2 sample_stringify sample_zod_message sample_mrr_report
         healthy "call without params" []
       = (Return (mkReply 200 [("Content-Type", "application/json")]
                    (mkRpc "2.0" (VNum 5)
                       (Failure (mkRpcError (-32603) "Internal error" (Some d))))), []).
Proof.
  split; [reflexivity |].
  apply (tools_call_without_params sample_parse2 sample_stringify sample_zod_message
           sample_mrr_report healthy "call without params"
           (VObj [("jsonrpc", VStr "2.0"); ("id", VNum 5); ("method", VStr "tools/call")])
           []); reflexivity.
Defined.

Lemma region_is_a_field_of_getMRR : In "region" (map fst (tool_input GetMRR)).
Proof. simpl. auto. Qed.

Lemma non_string_field_rejected_witness :
  is_string (lookup "region" [("region", VNull)]) = false
  /\ exists issues,
       tool_run sample_parse sample_stringify sample_mrr_report GetMRR healthy
         (VObj [("region", VNull)]) []
       = (Throw (ZodError issues), []).
Proof.
  split; [reflexivity |].
  apply (non_string_field_rejected sample_parse sample_stringify sample_mrr_report
           GetMRR healthy [("region", VNull)] "region" []
           region_is_a_field_of_getMRR eq_refl eq_refl).
Defined.

Lemma undefined_is_no_object : forall fields, VUndefined <> VObj fields.
Proof. discriminate. Qed.

Lemma arguments_must_be_an_object_witness :
  exists issues,
    tool_run sample_parse sample_stringify sample_mrr_report GetLeads healthy VUndefined []
    = (Throw (ZodError issues), [])
    /\ post_tools_call sample_parse sample_stringify sample_zod_message sample_mrr_report
         healthy
         (VObj [("jsonrpc", VStr "2.0"); ("id", VNum 8); ("method", VStr "tools/call");
                ("params", VObj [("name", VStr "getLeads")])]) []
       = (Return (mkRpc "2.0" (VNum 8)
                    (Failure (mkRpcError (-32603) "Internal error"
                                (Some (sample_zod_message issues))))), []).
Proof.
  destruct (arguments_must_be_an_object sample_parse sample_stringify sample_zod_message
              sample_mrr_report GetLeads healthy (VNum 8) VUndefined []
              undefined_is_no_object)
    as (issues & Hrun & _ & _ & Hpost).
  exists issues. split; [exact Hrun | exact (Hpost eq_refl)].
Defined.

Lemma usd_request_sent :
  In usd_request
     (snd (tool_run sample_parse sample_stringify sample_mrr_report GetLeads healthy
             (VObj [("currency", VStr "usd")]) [])).
Proof. vm_compute. left. reflexivity. Qed.

Lemma tool_query_within_contract_witness :
  In usd_request
     (snd (tool_run sample_parse sample_stringify sample_mrr_report GetLeads healthy
             (VObj [("currency", VStr "usd")]) []))
  /\ NoDup (map fst (rq_query usd_request))
  /\ forall s, In ("currency", s) (rq_query usd_request) -> String.length s = 3%nat.
Proof.
  split; [exact usd_request_sent |].
  destruct (tool_query_within_contract sample_parse sample_stringify sample_mrr_report
              GetLeads healthy (VObj [("currency", VStr "usd")]) usd_request
              usd_request_sent)
    as (Hnd & _ & _ & _ & Hcur & _).
  split; [exact Hnd | exact Hcur].
Defined.

Lemma tool_query_has_interval_and_date_witness :
  In usd_request
     (snd (tool_run sample_parse sample_stringify sample_mrr_report GetLeads healthy
             (VObj [("currency", VStr "usd")]) []))
  /\ (exists s, In ("interval", s) (rq_query usd_request) /\ mem s intervals = true
                /\ (get (VObj [("currency", VStr "usd")]) "interval" = VUndefined
                    -> s = "month"))
  /\ exists s, In ("date", s) (rq_query usd_request).
Proof.
  split; [exact usd_request_sent |].
  exact (tool_query_has_interval_and_date sample_parse sample_stringify sample_mrr_report
           GetLeads healthy (VObj [("currency", VStr "usd")]) usd_request
           usd_request_sent).
Defined.

Lemma dated_request_sent :
  In dated_request
     (snd (tool_run sample_parse sample_stringify sample_mrr_report GetCohorts healthy
             (VObj [("date", VStr "20240101-20240201")]) [])).
Proof. vm_compute. left. reflexivity. Qed.

Lemma supplied_date_forwarded_witness :
  In dated_request
     (snd (tool_run sample_parse sample_stringify sample_mrr_report GetCohorts healthy
             (VObj [("date", VStr "20240101-20240201")]) []))
  /\ In ("date", "20240101-20240201") (rq_query dated_request)
  /\ snd (tool_run sample_parse sample_stringify sample_mrr_report GetCohorts berlin_night
            (VObj [("date", VStr "20240101-20240201")]) [])
     = [dated_request].
Proof.
  split; [exact dated_request_sent |].
  destruct (supplied_date_forwarded sample_parse sample_stringify sample_mrr_report
              GetCohorts healthy (VObj [("date", VStr "20240101-20240201")])
              "20240101-20240201" dated_request dated_request_sent eq_refl)
    as (Hin & Hsame).
  split; [exact Hin | exact (Hsame berlin_night eq_refl eq_refl eq_refl)].
Defined.

Lemma bogus_billing_freq_is_unknown_to_getLeads :
  forall k, In k (map fst (tool_input GetLeads)) ->
            lookup k [("billing_freq", VStr "bogus"); ("region", VStr "europe")]
            = lookup k [("region", VStr "europe")]
            /\ has_key k [("billing_freq", VStr "bogus"); ("region", VStr "europe")]
               = has_key k [("region", VStr "europe")].
Proof.
  intros k Hk. simpl in Hk.
  destruct Hk as [<- | [<- | [<- | [<- | [<- | [<- | []]]]]]]; split; reflexivity.
Qed.

Lemma unknown_arguments_are_ignored_witness :
  zod_parse (tool_input GetLeads)
    (VObj [("billing_freq", VStr "bogus"); ("region", VStr "europe")])
  = zod_parse (tool_input GetLeads) (VObj [("region", VStr "europe")]).
Proof.
  exact (unknown_arguments_are_ignored GetLeads _ _ bogus_billing_freq_is_unknown_to_getLeads).
Defined.

Lemma validated_filters_validate_again_witness :
  zod_parse (tool_input GetMRR) (VObj [("plan", VNum 1); ("region", VStr "emea")])
  = Return [("interval", VStr "month"); ("region", VStr "emea")]
  /\ zod_parse (tool_input GetMRR)
       (VObj [("interval", VStr "month"); ("region", VStr "emea")])
     = Return [("interval", VStr "month"); ("region", VStr "emea")].
Proof.
  split; [reflexivity |].
  apply (validated_filters_validate_again GetMRR
           (VObj [("plan", VNum 1); ("region", VStr "emea")])). reflexivity.
Defined.

Lemma getLeads_is_not_getMRR : GetLeads <> GetMRR.
Proof. discriminate. Qed.

Lemma passthrough_tools_return_payload_witness :
  GetLeads <> GetMRR
  /\ wrapTool sample_stringify
       (tool_run sample_parse sample_stringify sample_mrr_report GetLeads healthy)
       (VObj []) []
     = (Return (VObj [("content", VArr [text_block (VStr "{}")])]),
        [api_request healthy "leads"
           (tool_filters GetLeads healthy [("interval", VStr "month")])]).
Proof.
  split; [exact getLeads_is_not_getMRR |].
  destruct (passthrough_tools_return_payload sample_parse sample_stringify
              sample_zod_message sample_mrr_report GetLeads healthy (VNum 1) (VObj [])
              [("interval", VStr "month")] (mkResponse 200 "OK" "{}") (VObj []) []
              getLeads_is_not_getMRR eq_refl eq_refl eq_refl eq_refl eq_refl eq_refl)
    as (_ & Hw & _).
  exact Hw.
Defined.

Lemma failures_after_sending_propagate_witness :
  token_present offline
  /\ tool_run sample_parse sample_stringify sample_mrr_report GetCohorts offline (VObj []) []
     = (Throw (TypeError "fetch failed"),
        [api_request offline "cohort"
           (tool_filters GetCohorts offline [("interval", VStr "month")])]).
Proof.
  split; [reflexivity |].
  destruct (failures_after_sending_propagate sample_parse sample_stringify
              sample_zod_message sample_mrr_report GetCohorts offline (VNum 1) (VObj [])
              [("interval", VStr "month")] (TypeError "fetch failed") []
              eq_refl eq_refl eq_refl (or_introl eq_refl))
    as (Hrun & _).
  exact Hrun.
Defined.

Lemma healthy_years :
  (0 <= year_of_day (Day (now healthy) - 365) <= 9999)
  /\ (0 <= year_of_day (Day (now healthy)) <= 9999)
  /\ (1 <= year_of_day (Day (now healthy + 0) - 365) <= 9999)
  /\ (1 <= year_of_day (Day (now healthy + 0)) <= 9999).
Proof. vm_compute. repeat split; discriminate. Qed.

Lemma default_date_on_fixed_offset_host_witness :
  LocalTZA healthy = (fun _ _ => 0)
  /\ Day (now_again healthy) = Day (now healthy)
  /\ getMRR_default_date healthy
     = yyyymmdd (Day (now healthy) - 365) ++ "-" ++ yyyymmdd (Day (now healthy))
  /\ regex_test date_regex (getMRR_default_date healthy) = true
  /\ regex_test date_regex (datefns_default_date healthy) = true.
Proof.
  split; [reflexivity |]. split; [reflexivity |].
  destruct healthy_years as (H1 & H2 & H3 & H4).
  destruct (default_date_on_fixed_offset_host healthy 0 eq_refl) as (Hm & Hd).
  split; [exact (proj1 (Hm eq_refl eq_refl H1 H2)) |].
  split; [exact (proj2 (Hm eq_refl eq_refl H1 H2)) | exact (proj2 (Hd H3 H4))].
Defined.

Lemma mrr_payload_validated_witness :
  getMRRApiResponse_parse sample_payload = Return [sample_item_validated]
  /\ exists items,
       get sample_payload "result" = VArr items
       /\ Forall2 validated_item items [sample_item_validated].
Proof.
  split; [reflexivity |].
  apply (mrr_payload_validated sample_payload [sample_item_validated]). reflexivity.
Defined.

Lemma churn_is_required : In ("churn", ONumber) getMRROutput.
Proof. simpl. auto 10. Qed.

Lemma short_item_has_no_churn : forall n, get short_item "churn" <> VNum n.
Proof. intros n. discriminate. Qed.

Lemma mrr_payload_rejected_witness :
  In short_item [sample_item; short_item]
  /\ exists issues,
       getMRR_run sample_parse2 (getMRR_report sample_stringify sample_section)
         short_host (VObj []) []
       = (Throw (ZodError issues),
          [api_request short_host "mrr"
             (tool_filters GetMRR short_host [("interval", VStr "month")])]).
Proof.
  split; [right; left; reflexivity |].
  destruct (mrr_payload_rejected sample_parse2 sample_stringify sample_zod_message
              sample_section short_host (VNum 6) (VObj []) [("interval", VStr "month")]
              (mkResponse 200 "OK" "short payload") short_payload
              [sample_item; short_item] short_item "churn" []
              eq_refl eq_refl eq_refl eq_refl eq_refl eq_refl eq_refl
              (or_intror (or_introl eq_refl)) churn_is_required short_item_has_no_churn)
    as (issues & Hrun & _).
  exists issues. exact Hrun.
Defined.

Lemma mrr_report_envelope_witness :
  getMRRApiResponse_parse sample_payload = Return [sample_item_validated]
  /\ sample_stringify (VArr [sample_item_validated]) = VStr "<json>"
  /\ wrapTool sample_stringify
       (getMRR_run sample_parse2 (getMRR_report sample_stringify sample_section) mrr_host)
       (VObj []) []
     = (Return
          (VObj [("content",
                  VArr [ text_block
                           (VStr ("# MRR Report" ++ nl ++ nl
                                  ++ concat "" (map sample_section [sample_item_validated])));
                         text_block
                           (VStr ("Raw data:" ++ nl ++ "```json" ++ nl
                                  ++ "<json>" ++ nl ++ "```")) ])]),
        [api_request mrr_host "mrr"
           (tool_filters GetMRR mrr_host [("interval", VStr "month")])]).
Proof.
  split; [reflexivity |]. split; [reflexivity |].
  destruct (mrr_report_envelope sample_parse2 sample_stringify sample_zod_message
              sample_section mrr_host (VNum 6) (VObj []) [("interval", VStr "month")]
              (mkResponse 200 "OK" "mrr payload") sample_payload [sample_item_validated]
              "<json>" [] eq_refl eq_refl eq_refl eq_refl eq_refl eq_refl eq_refl eq_refl)
    as (Hw & _).
  exact Hw.
Defined.
